(** * ScanFlow eBay fetcher: persistence glue, evaluation loop and run loop

    A shallow embedding of [supabase.ts], [evaluate.ts] and [index.ts].
    The program talks to three collaborators (the Supabase store, the Keepa
    valuation service and the eBay listing API); the embedding keeps them in
    an explicit [World] that every operation threads, in a small state and
    exception monad.  Exceptions keep the world they were raised in, as a
    JavaScript [throw] rolls nothing back. *)

From Stdlib Require Import QArith Qround Lia.
From stdpp Require Import base list strings gmap sorting pretty.

Local Open Scope Z_scope.

(** ** JavaScript numbers

    A [number] is an IEEE-754 double.  Every finite double is a rational, so
    a finite number carries its exact value; [Number.isFinite], [Math.round]
    and the comparisons are exact on it.  The arithmetic operators round
    their exact result to a double: that rounding is the parameter [fl] of
    the operators below (round to nearest, overflow to an infinity), so that
    what is proved holds for the IEEE rounding as well as for exact
    arithmetic.  The sign of zero is not kept: no operation of the program
    observes it. *)
Module Js.

Inductive number : Type :=
| NaN
| Inf (negative : bool)
| Fin (q : Q).

Definition num (z : Z) : number := Fin (inject_Z z).

Definition Qneg (q : Q) : bool := negb (Qle_bool 0 q).
Definition Qzero (q : Q) : bool := Qeq_bool q 0.

Definition Number_isFinite (x : number) : bool :=
  match x with Fin _ => true | _ => false end.

(** [Math.round]: the integer nearest to the argument, ties towards
    +Infinity; NaN and the infinities are returned as they are. *)
Definition round_half_up (q : Q) : Z := Qfloor (q + (1 # 2)).

Definition Math_round (x : number) : number :=
  match x with
  | Fin q => num (round_half_up q)
  | _ => x
  end.

(** [x < y] and [x > y]: false as soon as one side is NaN. *)
Definition lt (x y : number) : bool :=
  match x, y with
  | NaN, _ | _, NaN => false
  | Inf true, Inf true => false
  | Inf true, _ => true
  | _, Inf true => false
  | Inf false, _ => false
  | Fin _, Inf false => true
  | Fin a, Fin b => negb (Qle_bool b a)
  end.

Definition gt (x y : number) : bool := lt y x.

Section Arithmetic.
Variable fl : Q -> number.

Definition add (x y : number) : number :=
  match x, y with
  | NaN, _ | _, NaN => NaN
  | Inf s, Inf t => if Bool.eqb s t then Inf s else NaN
  | Inf s, Fin _ | Fin _, Inf s => Inf s
  | Fin a, Fin b => fl (a + b)
  end.

Definition mul (x y : number) : number :=
  match x, y with
  | NaN, _ | _, NaN => NaN
  | Inf s, Inf t => Inf (xorb s t)
  | Inf s, Fin a | Fin a, Inf s =>
      if Qzero a then NaN else Inf (xorb s (Qneg a))
  | Fin a, Fin b => fl (a * b)
  end.

Definition div (x y : number) : number :=
  match x, y with
  | NaN, _ | _, NaN => NaN
  | Inf _, Inf _ => NaN
  | Inf s, Fin b => Inf (xorb s (Qneg b))
  | Fin _, Inf _ => num 0
  | Fin a, Fin b =>
      if Qzero b then (if Qzero a then NaN else Inf (Qneg a))
      else fl (a / b)
  end.
End Arithmetic.

(** The rounding of the arithmetic of a JavaScript engine: IEEE-754 binary64,
    round to nearest, ties to even.  [ilog2 a] is the exponent of the leading
    bit of a positive [a]; below 2^-1022 the doubles keep the spacing 2^-1074;
    a result whose magnitude reaches 2^1024 overflows to an infinity. *)
Definition ilog2 (a : Q) : Z :=
  let k := Z.log2 (Qnum a) - Z.log2 (Z.pos (Qden a)) in
  if Qle_bool (Qpower (2 # 1) k) a then k else k - 1.

Definition round_half_even (x : Q) : Z :=
  let f := Qfloor x in
  match (x - inject_Z f ?= 1 # 2)%Q with
  | Lt => f
  | Gt => f + 1
  | Eq => if Z.even f then f else f + 1
  end.

Definition binary64 (q : Q) : number :=
  if Qzero q then Fin 0
  else
    let a := if Qneg q then (- q)%Q else q in
    let e := Z.max (ilog2 a) (-1022) in
    let ulp := Qpower (2 # 1) (e - 52) in
    let r := Qred (inject_Z (round_half_even (a / ulp)) * ulp) in
    if Qle_bool (Qpower (2 # 1) 1024) r then Inf (Qneg q)
    else Fin (if Qneg q then Qred (- r) else r).

End Js.

Abbreviation number := Js.number.

(** An instant; [new Date().toISOString()] and the timestamp columns carry
    it as an ISO-8601 string, of which only the instant is kept
    (milliseconds since the epoch). *)
Definition Timestamp : Type := N.
Bind Scope N_scope with Timestamp.

(** ** Records of the store: [EbayBook] ([supabase.ts]) *)

Inductive EvalDecision : Type := BUY | REVIEW | REJECT.

(** The [decision] column: ['BUY' | 'REVIEW' | 'REJECT' | 'BOUGHT'], [None]
    standing for SQL null. *)
Inductive BookDecision : Type :=
| Decided (d : EvalDecision)
| BOUGHT.

Module EbayBook.
Record t : Type := mk {
  id : option Z;
  isbn : string;
  title : string;
  price : number;
  condition : string;
  seller : string;
  category : string;
  ebay_item_id : string;
  ebay_url : string;
  image_url : option string;
  shipping : number;
  scraped_at : Timestamp;
  decision : option BookDecision;
  asin : option string;
  amazon_price : option number;
  sales_rank : option number;
  sales_rank_drops_90 : option number;
  fba_profit : option number;
  fbm_profit : option number;
  amazon_flag : option string;
  book_type : option string;
  weight_oz : option number;
  evaluated_at : option Timestamp;
  bought_at : option Timestamp
}.
End EbayBook.

(** The argument of [updateBookEvaluation]: [decision] is mandatory, every
    other key is optional; [None] is a key that is missing or holds
    [undefined]. *)
Module Evaluation.
Record t : Type := mk {
  decision : EvalDecision;
  asin : option string;
  amazon_price : option number;
  sales_rank : option number;
  sales_rank_drops_90 : option number;
  fba_profit : option number;
  fbm_profit : option number;
  amazon_flag : option string;
  book_type : option string;
  weight_oz : option number
}.
End Evaluation.

(** The result of [evaluateBook] ([keepaApi.ts], not among the files embedded
    here): the fields read by [evaluatePendingBooks], nullable where the
    code tests them against null. *)
Module KeepaEval.
Record t : Type := mk {
  decision : EvalDecision;
  asin : option string;
  amazonPrice : option number;
  salesRank : option number;
  salesRankDrops90 : option number;
  fbaProfit : option number;
  fbmProfit : option number;
  amazonFlag : option string;
  binding : option string;
  weightLbs : option number;
  reason : string
}.
End KeepaEval.

(** ** [evaluate.ts]: the numeric guards of the evaluation boundary *)

(** Guard against numeric overflow for DB integer columns. *)
Definition safeInt (v : option number) : option number :=
  match v with
  | None => None
  | Some x =>
      if negb (Js.Number_isFinite x) then None
      else
        let rounded := Js.Math_round x in
        if Js.gt rounded (Js.num 2000000000) || Js.lt rounded (Js.num (-2000000000))
        then None
        else Some rounded
  end.

(** ** The store and its wire format *)

(** A PostgREST error: [{ code, message }]. *)
Module Pg.
Record Error : Type := mk { code : string; message : string }.
End Pg.

(** A JSON value as sent to the store. *)
Inductive JsVal : Type :=
| JUndefined
| JNull
| JString (s : string)
| JNumber (n : number)
| JTime (t : Timestamp).

(** A row of [fetcher_checkpoints]; its key is (seller, category_id). *)
Module Checkpoint.
Record t : Type := mk { last_offset : N; updated_at : Timestamp }.
End Checkpoint.

(** Modelled from the spec: [ScrapedBook] is declared in [ebayApi.ts], which
    is not among the files embedded here.  It is the spec's Listing once it
    bears a catalog key: item id, title, price, shipping cost, condition,
    seller, category, catalog key, image reference and scrape timestamp,
    under the names of the listing columns of [EbayBook]. *)
Module ScrapedBook.
Record t : Type := mk {
  isbn : string;
  title : string;
  price : number;
  condition : string;
  seller : string;
  category : string;
  ebay_item_id : string;
  ebay_url : string;
  image_url : option string;
  shipping : number;
  scraped_at : Timestamp
}.
End ScrapedBook.

(** Modelled from the spec: the raw item of the marketplace listing API, whose
    catalog key is optional. *)
Module Listing.
Record t : Type := mk {
  item : ScrapedBook.t;
  has_isbn : bool
}.
End Listing.

Inductive DbRequest : Type :=
| SelectIsbns (from to : nat)
| SelectPending (seller : option string) (from to : nat)
| InsertBook (book : ScrapedBook.t)
| UpdateBook (isbn : string) (cleanEval : gmap string JsVal)
| SelectCheckpoint (seller category_id : string)
| UpsertCheckpoint (seller category_id : string) (last_offset : N)
    (updated_at : Timestamp).

(** What a run does to its collaborators and writes to its console, in
    order. *)
Inductive Event : Type :=
| EvDb (req : DbRequest)
| EvWaitForKeepaTokens
| EvGetProductByIsbn (isbn : string)
| EvSleep (ms : N)
| EvEbayFetch (seller query : string) (offset limit : N)
| EvLog (line : string).

(** The world a run acts on.  [db_faults] schedules the transport and server
    failures of the coming store requests, one entry per request ([None]:
    the store answers; an exhausted schedule answers ever after).  The last
    two fields are the counters of [main] that its page callback captures and
    adds to. *)
Record World : Type := mkWorld {
  ebay_books : list EbayBook.t;
  fetcher_checkpoints : gmap (string * string) Checkpoint.t;
  db_faults : list (option Pg.Error);
  clock : Timestamp;
  totalNew : nat;
  totalSkipped : nat
}.

Definition set_books (f : list EbayBook.t -> list EbayBook.t) (w : World) : World :=
  mkWorld (f (ebay_books w)) (fetcher_checkpoints w) (db_faults w) (clock w)
    (totalNew w) (totalSkipped w).

Definition set_checkpoints
    (f : gmap (string * string) Checkpoint.t -> gmap (string * string) Checkpoint.t)
    (w : World) : World :=
  mkWorld (ebay_books w) (f (fetcher_checkpoints w)) (db_faults w) (clock w)
    (totalNew w) (totalSkipped w).

Definition set_faults (fs : list (option Pg.Error)) (w : World) : World :=
  mkWorld (ebay_books w) (fetcher_checkpoints w) fs (clock w)
    (totalNew w) (totalSkipped w).

Definition set_clock (t : Timestamp) (w : World) : World :=
  mkWorld (ebay_books w) (fetcher_checkpoints w) (db_faults w) t
    (totalNew w) (totalSkipped w).

Definition set_totals (new skipped : nat) (w : World) : World :=
  mkWorld (ebay_books w) (fetcher_checkpoints w) (db_faults w) (clock w)
    new skipped.

(** ** The monad of the program: state, exceptions and the trace

    A computation takes the world it starts in and gives its outcome (a value
    or a thrown error), the world it leaves and the events it produced, in
    order.  A thrown error keeps the world and the events of what ran before
    it. *)

Inductive Outcome (A : Type) : Type :=
| Ok (a : A)
| Thrown (error : string).
Arguments Ok {A} a.
Arguments Thrown {A} error.

Record Run (A : Type) : Type := mkRun {
  outcome : Outcome A;
  final : World;
  events : list Event
}.
Arguments mkRun {A} outcome final events.
Arguments outcome {A} r.
Arguments final {A} r.
Arguments events {A} r.

Definition M (A : Type) : Type := World -> Run A.

#[global] Instance M_ret : MRet M := fun A a w => mkRun (Ok a) w [].

(** What follows [first]: [next] runs when [first] returned, its events after
    those of [first]. *)
Definition and_then {A B : Type} (first : Run A) (next : A -> M B) : Run B :=
  match outcome first with
  | Ok a =>
      let r := next a (final first) in
      mkRun (outcome r) (final r) (events first ++ events r)
  | Thrown e => mkRun (Thrown e) (final first) (events first)
  end.

#[global] Instance M_bind : MBind M := fun A B k m w => and_then (m w) k.

Definition throw {A : Type} (e : string) : M A := fun w => mkRun (Thrown e) w [].

(** [try { body } catch (error) { handler(error) }] *)
Definition try_catch {A : Type} (body : M A) (handler : string -> M A) : M A :=
  fun w =>
    let r := body w in
    match outcome r with
    | Ok a => r
    | Thrown e =>
        let h := handler e (final r) in
        mkRun (outcome h) (final h) (events r ++ events h)
    end.

Definition modify (f : World -> World) : M unit := fun w => mkRun (Ok tt) (f w) [].
Definition gets {A : Type} (f : World -> A) : M A := fun w => mkRun (Ok (f w)) w [].
Definition emit (e : Event) : M unit := fun w => mkRun (Ok tt) w [e].

(** [console.log] and [console.error]. *)
Definition log (line : string) : M unit := emit (EvLog line).
Definition now : M Timestamp := gets clock.

(** [sleep(ms)]: the clock moves on by [ms]. *)
Definition sleep (ms : N) : M unit :=
  emit (EvSleep ms);; modify (fun w => set_clock (clock w + ms)%N w).

(** One request to the store: it is recorded, and the next entry of the fault
    schedule says whether the transport or the server fails it. *)
Definition db_request (req : DbRequest) : M (option Pg.Error) :=
  emit (EvDb req);;
  fs ← gets db_faults;
  match fs with
  | [] => mret None
  | f :: fs' => modify (set_faults fs');; mret f
  end.

(** The offsets that the checkpoint writes of a run carry, in order. *)
Definition upserted_offsets (evs : list Event) : list N :=
  omap (fun e =>
          match e with
          | EvDb (UpsertCheckpoint _ _ offset _) => Some offset
          | _ => None
          end) evs.

(** The stored offset of a pair, if it has a checkpoint row. *)
Definition stored_offset (seller key : string) (w : World) : option N :=
  Checkpoint.last_offset <$> fetcher_checkpoints w !! (seller, key).

(** No failure is scheduled: the store answers every request. *)
Definition store_reliable (w : World) : Prop :=
  Forall (fun f => f = None) (db_faults w).

(** The store requests among the events of a run. *)
Definition db_requests (evs : list Event) : list DbRequest :=
  omap (fun e => match e with EvDb req => Some req | _ => None end) evs.

(** The answer scheduled for the next request: [None] when the store will
    carry it out. *)
Definition next_fault (w : World) : option Pg.Error :=
  match db_faults w with
  | f :: _ => f
  | [] => None
  end.

(** ** [supabase.ts] *)

#[global] Instance EvalDecision_eq_dec : EqDecision EvalDecision.
Proof. solve_decision. Defined.

#[global] Instance BookDecision_eq_dec : EqDecision BookDecision.
Proof. solve_decision. Defined.

(** A JavaScript string is truthy unless it is empty. *)
Definition truthy (s : string) : bool := negb (String.eqb s "").

Definition pageSize : nat := 1000.

(** [.range(from, to)] on an ordered result: the rows of rank [from] to [to],
    both included. *)
Definition range {A : Type} (from to : nat) (rows : list A) : list A :=
  take (S to - from) (drop from rows).

(** *** [getExistingISBNs] *)

Fixpoint getExistingISBNs_loop (fuel from : nat) (isbns : gset string)
  : M (gset string) :=
  match fuel with
  | O => throw "getExistingISBNs: out of fuel"
  | S fuel' =>
      error ← db_request (SelectIsbns from (from + pageSize - 1));
      match error with
      | Some e =>
          log ("Error loading existing ISBNs: " +:+ Pg.message e);;
          mret isbns
      | None =>
          rows ← gets ebay_books;
          let data := range from (from + pageSize - 1) (EbayBook.isbn <$> rows) in
          if Nat.eqb (length data) 0 then mret isbns
          else
            let isbns := isbns ∪ list_to_set data in
            let from := (from + pageSize)%nat in
            if Nat.ltb (length data) pageSize then mret isbns
            else getExistingISBNs_loop fuel' from isbns
      end
  end.

Definition getExistingISBNs : M (gset string) :=
  rows ← gets ebay_books;
  isbns ← getExistingISBNs_loop (S (length rows)) 0%nat ∅;
  log ("Loaded " +:+ pretty (size isbns) +:+ " existing ISBNs from DB");;
  mret isbns.

(** *** [insertBooks] *)

Module InsertCounts.
Record t : Type := mk { saved : nat; duplicates : nat; errors : nat }.
End InsertCounts.

(** The row an insert creates: the listing columns of the book, the
    evaluation columns at their null default. *)
Definition new_row (next_id : Z) (b : ScrapedBook.t) : EbayBook.t :=
  {| EbayBook.id := Some next_id;
     EbayBook.isbn := ScrapedBook.isbn b;
     EbayBook.title := ScrapedBook.title b;
     EbayBook.price := ScrapedBook.price b;
     EbayBook.condition := ScrapedBook.condition b;
     EbayBook.seller := ScrapedBook.seller b;
     EbayBook.category := ScrapedBook.category b;
     EbayBook.ebay_item_id := ScrapedBook.ebay_item_id b;
     EbayBook.ebay_url := ScrapedBook.ebay_url b;
     EbayBook.image_url := ScrapedBook.image_url b;
     EbayBook.shipping := ScrapedBook.shipping b;
     EbayBook.scraped_at := ScrapedBook.scraped_at b;
     EbayBook.decision := None;
     EbayBook.asin := None;
     EbayBook.amazon_price := None;
     EbayBook.sales_rank := None;
     EbayBook.sales_rank_drops_90 := None;
     EbayBook.fba_profit := None;
     EbayBook.fbm_profit := None;
     EbayBook.amazon_flag := None;
     EbayBook.book_type := None;
     EbayBook.weight_oz := None;
     EbayBook.evaluated_at := None;
     EbayBook.bought_at := None |}.

Definition unique_violation : Pg.Error :=
  {| Pg.code := "23505";
     Pg.message := "duplicate key value violates unique constraint" |}.

(** [supabase.from(TABLE).insert(book)]: the request fails as scheduled, is
    refused with 23505 when the catalog key is already in the table, and
    appends the row otherwise. *)
Definition insert_book (book : ScrapedBook.t) : M (option Pg.Error) :=
  error ← db_request (InsertBook book);
  match error with
  | Some e => mret (Some e)
  | None =>
      rows ← gets ebay_books;
      if bool_decide (ScrapedBook.isbn book ∈ EbayBook.isbn <$> rows)
      then mret (Some unique_violation)
      else
        modify (set_books (fun rows =>
                  rows ++ [new_row (Z.of_nat (S (length rows))) book]));;
        mret None
  end.

Fixpoint insertBooks_loop (books : list ScrapedBook.t) (saved duplicates errors : nat)
  : M InsertCounts.t :=
  match books with
  | [] => mret (InsertCounts.mk saved duplicates errors)
  | book :: rest =>
      error ← insert_book book;
      match error with
      | Some e =>
          if String.eqb (Pg.code e) "23505"
          then insertBooks_loop rest saved (S duplicates) errors
          else
            log ("  Insert error for " +:+ ScrapedBook.isbn book +:+ ": "
                   +:+ Pg.message e);;
            insertBooks_loop rest saved duplicates (S errors)
      | None => insertBooks_loop rest (S saved) duplicates errors
      end
  end.

Definition insertBooks (books : list ScrapedBook.t) : M InsertCounts.t :=
  insertBooks_loop books 0%nat 0%nat 0%nat.

(** The answers of the store to the inserts of [books], issued one after the
    other from the world [w]. *)
Fixpoint insert_answers (books : list ScrapedBook.t) (w : World)
  : list (option Pg.Error) :=
  match books with
  | [] => []
  | book :: rest =>
      match outcome (insert_book book w) with
      | Ok answer => answer :: insert_answers rest (final (insert_book book w))
      | Thrown _ => []
      end
  end.

Definition is_saved (answer : option Pg.Error) : bool :=
  match answer with None => true | Some _ => false end.

Definition is_duplicate (answer : option Pg.Error) : bool :=
  match answer with Some e => String.eqb (Pg.code e) "23505" | None => false end.

Definition is_other_error (answer : option Pg.Error) : bool :=
  match answer with Some e => negb (String.eqb (Pg.code e) "23505") | None => false end.

(** *** [getPendingBooks] *)

Definition scraped_le (a b : EbayBook.t) : Prop :=
  (EbayBook.scraped_at a <= EbayBook.scraped_at b)%N.

#[global] Instance scraped_le_dec : RelDecision scraped_le.
Proof. intros a b. unfold scraped_le. apply _. Defined.

(** The filters of the pending query: [.is('decision', null)], and
    [.eq('seller', seller)] when [seller] is truthy. *)
Definition is_pending (seller : option string) (b : EbayBook.t) : bool :=
  bool_decide (EbayBook.decision b = None)
  && match seller with
     | Some s => if truthy s then String.eqb (EbayBook.seller b) s else true
     | None => true
     end.

(** The result of the pending query before [.range]: the filtered rows,
    [.order('scraped_at', { ascending: true })]. *)
Definition pending_rows (seller : option string) (rows : list EbayBook.t)
  : list EbayBook.t :=
  merge_sort scraped_le (List.filter (is_pending seller) rows).

Fixpoint getPendingBooks_loop (seller : option string) (fuel from : nat)
    (allPending : list EbayBook.t) : M (list EbayBook.t) :=
  match fuel with
  | O => throw "getPendingBooks: out of fuel"
  | S fuel' =>
      error ← db_request (SelectPending seller from (from + pageSize - 1));
      match error with
      | Some e =>
          log ("Error fetching pending books: " +:+ Pg.message e);;
          mret allPending
      | None =>
          rows ← gets ebay_books;
          let data := range from (from + pageSize - 1) (pending_rows seller rows) in
          if Nat.eqb (length data) 0 then mret allPending
          else
            let allPending := allPending ++ data in
            if Nat.ltb (length data) pageSize then mret allPending
            else getPendingBooks_loop seller fuel' (from + pageSize)%nat allPending
      end
  end.

Definition getPendingBooks (seller : option string) : M (list EbayBook.t) :=
  rows ← gets ebay_books;
  getPendingBooks_loop seller (S (length rows)) 0%nat [].

(** The requests of [pages] successive pages, the first at rank [from]. *)
Definition pending_page_requests (seller : option string) (from pages : nat)
  : list DbRequest :=
  (fun i => SelectPending seller (from + i * pageSize)
              (from + i * pageSize + pageSize - 1)) <$> seq 0 pages.

(** *** [updateBookEvaluation] *)

Definition decision_name (d : EvalDecision) : string :=
  match d with BUY => "BUY" | REVIEW => "REVIEW" | REJECT => "REJECT" end.

Definition or_undefined {A : Type} (f : A -> JsVal) (o : option A) : JsVal :=
  match o with Some a => f a | None => JUndefined end.

(** [Object.entries(evaluation)]; a key the caller left out is listed with
    [undefined], which the loop of [updateBookEvaluation] treats as it
    treats a missing key. *)
Definition Object_entries (e : Evaluation.t) : list (string * JsVal) :=
  [ ("decision", JString (decision_name (Evaluation.decision e)));
    ("asin", or_undefined JString (Evaluation.asin e));
    ("amazon_price", or_undefined JNumber (Evaluation.amazon_price e));
    ("sales_rank", or_undefined JNumber (Evaluation.sales_rank e));
    ("sales_rank_drops_90", or_undefined JNumber (Evaluation.sales_rank_drops_90 e));
    ("fba_profit", or_undefined JNumber (Evaluation.fba_profit e));
    ("fbm_profit", or_undefined JNumber (Evaluation.fbm_profit e));
    ("amazon_flag", or_undefined JString (Evaluation.amazon_flag e));
    ("book_type", or_undefined JString (Evaluation.book_type e));
    ("weight_oz", or_undefined JNumber (Evaluation.weight_oz e)) ].

(** [if (value !== undefined) cleanEval[key] = value] *)
Definition copy_defined (cleanEval : gmap string JsVal) (entry : string * JsVal)
  : gmap string JsVal :=
  match entry.2 with
  | JUndefined => cleanEval
  | value => <[entry.1 := value]> cleanEval
  end.

(** Strip undefined values: the body sent to the store. *)
Definition cleanEval_of (stamp : Timestamp) (evaluation : Evaluation.t)
  : gmap string JsVal :=
  foldl copy_defined {[ "evaluated_at" := JTime stamp ]} (Object_entries evaluation).

(** How a column takes the value a request body gives it.  A key missing from
    the body leaves the column as it is; [null] empties a nullable column; a
    number that is not finite travels as [null] (JSON has no other way to
    write it).  The typed callers of this file send no value of another
    type than the column's. *)
Definition col_text (v : option JsVal) (old : string) : string :=
  match v with Some (JString s) => s | _ => old end.

Definition col_text_null (v : option JsVal) (old : option string) : option string :=
  match v with
  | Some (JString s) => Some s
  | Some JNull => None
  | _ => old
  end.

Definition col_number (v : option JsVal) (old : number) : number :=
  match v with Some (JNumber (Js.Fin q)) => Js.Fin q | _ => old end.

Definition col_number_null (v : option JsVal) (old : option number) : option number :=
  match v with
  | Some (JNumber (Js.Fin q)) => Some (Js.Fin q)
  | Some (JNumber _) => None
  | Some JNull => None
  | _ => old
  end.

Definition col_time (v : option JsVal) (old : Timestamp) : Timestamp :=
  match v with Some (JTime t) => t | _ => old end.

Definition col_time_null (v : option JsVal) (old : option Timestamp)
  : option Timestamp :=
  match v with
  | Some (JTime t) => Some t
  | Some JNull => None
  | _ => old
  end.

Definition col_decision (v : option JsVal) (old : option BookDecision)
  : option BookDecision :=
  match v with
  | Some (JString s) =>
      if String.eqb s "BUY" then Some (Decided BUY)
      else if String.eqb s "REVIEW" then Some (Decided REVIEW)
      else if String.eqb s "REJECT" then Some (Decided REJECT)
      else if String.eqb s "BOUGHT" then Some BOUGHT
      else old
  | Some JNull => None
  | _ => old
  end.

(** [.update(body)] on one row; [id] is generated by the store and is never
    rewritten. *)
Definition update_row (body : gmap string JsVal) (r : EbayBook.t) : EbayBook.t :=
  {| EbayBook.id := EbayBook.id r;
     EbayBook.isbn := col_text (body !! "isbn") (EbayBook.isbn r);
     EbayBook.title := col_text (body !! "title") (EbayBook.title r);
     EbayBook.price := col_number (body !! "price") (EbayBook.price r);
     EbayBook.condition := col_text (body !! "condition") (EbayBook.condition r);
     EbayBook.seller := col_text (body !! "seller") (EbayBook.seller r);
     EbayBook.category := col_text (body !! "category") (EbayBook.category r);
     EbayBook.ebay_item_id := col_text (body !! "ebay_item_id") (EbayBook.ebay_item_id r);
     EbayBook.ebay_url := col_text (body !! "ebay_url") (EbayBook.ebay_url r);
     EbayBook.image_url := col_text_null (body !! "image_url") (EbayBook.image_url r);
     EbayBook.shipping := col_number (body !! "shipping") (EbayBook.shipping r);
     EbayBook.scraped_at := col_time (body !! "scraped_at") (EbayBook.scraped_at r);
     EbayBook.decision := col_decision (body !! "decision") (EbayBook.decision r);
     EbayBook.asin := col_text_null (body !! "asin") (EbayBook.asin r);
     EbayBook.amazon_price :=
       col_number_null (body !! "amazon_price") (EbayBook.amazon_price r);
     EbayBook.sales_rank :=
       col_number_null (body !! "sales_rank") (EbayBook.sales_rank r);
     EbayBook.sales_rank_drops_90 :=
       col_number_null (body !! "sales_rank_drops_90") (EbayBook.sales_rank_drops_90 r);
     EbayBook.fba_profit := col_number_null (body !! "fba_profit") (EbayBook.fba_profit r);
     EbayBook.fbm_profit := col_number_null (body !! "fbm_profit") (EbayBook.fbm_profit r);
     EbayBook.amazon_flag := col_text_null (body !! "amazon_flag") (EbayBook.amazon_flag r);
     EbayBook.book_type := col_text_null (body !! "book_type") (EbayBook.book_type r);
     EbayBook.weight_oz := col_number_null (body !! "weight_oz") (EbayBook.weight_oz r);
     EbayBook.evaluated_at :=
       col_time_null (body !! "evaluated_at") (EbayBook.evaluated_at r);
     EbayBook.bought_at := col_time_null (body !! "bought_at") (EbayBook.bought_at r) |}.

(** [.update(body).eq('isbn', isbn)] on the table. *)
Definition update_where_isbn (isbn : string) (body : gmap string JsVal)
    (rows : list EbayBook.t) : list EbayBook.t :=
  (fun r => if String.eqb (EbayBook.isbn r) isbn then update_row body r else r)
    <$> rows.

Definition updateBookEvaluation (isbn : string) (evaluation : Evaluation.t) : M bool :=
  stamp ← now;
  let cleanEval := cleanEval_of stamp evaluation in
  error ← db_request (UpdateBook isbn cleanEval);
  match error with
  | Some e =>
      log ("  Update error for " +:+ isbn +:+ ": " +:+ Pg.message e);;
      mret false
  | None =>
      modify (set_books (update_where_isbn isbn cleanEval));;
      mret true
  end.

(** What a nullable column holds after a write of [new]: the value written
    when there is one, what it held otherwise.  A number is stored when it is
    finite. *)
Definition written {A : Type} (new old : option A) : option A :=
  match new with Some v => Some v | None => old end.

Definition written_number (new old : option number) : option number :=
  match new with
  | Some (Js.Fin q) => Some (Js.Fin q)
  | Some _ => None
  | None => old
  end.

(** The keys an evaluation can send. *)
Definition evaluation_keys : list string :=
  [ "evaluated_at"; "decision"; "asin"; "amazon_price"; "sales_rank";
    "sales_rank_drops_90"; "fba_profit"; "fbm_profit"; "amazon_flag";
    "book_type"; "weight_oz" ].

(** How a row stands after the books of catalog keys [isbns] were decided:
    it keeps its catalog key and its seller, a decision it had is not undone,
    and it has a decision when its key is among [isbns]. *)
Definition advanced (isbns : list string) (r r' : EbayBook.t) : Prop :=
  EbayBook.isbn r' = EbayBook.isbn r
  /\ EbayBook.seller r' = EbayBook.seller r
  /\ (EbayBook.decision r <> None -> EbayBook.decision r' <> None)
  /\ (EbayBook.isbn r ∈ isbns -> EbayBook.decision r' <> None).

(** *** Checkpoint functions for resumable scraping *)

(** [.select('last_offset').eq(...).eq(...).single()]: an error when the
    request fails or when there is no row, the row otherwise. *)
Definition getCheckpoint (seller categoryId : string) : M N :=
  error ← db_request (SelectCheckpoint seller categoryId);
  rows ← gets fetcher_checkpoints;
  let data :=
    match error with
    | Some _ => None
    | None => rows !! (seller, categoryId)
    end in
  match data with
  | None => mret 0%N
  | Some row => mret (Checkpoint.last_offset row)
  end.

(** [.upsert(row, { onConflict: 'seller,category_id' })] *)
Definition upsert_checkpoint (seller categoryId : string) (offset : N)
  : M (option Pg.Error) :=
  stamp ← now;
  error ← db_request (UpsertCheckpoint seller categoryId offset stamp);
  match error with
  | Some e => mret (Some e)
  | None =>
      modify (set_checkpoints
                (fun rows => <[(seller, categoryId) := Checkpoint.mk offset stamp]> rows));;
      mret None
  end.

Definition saveCheckpoint (seller categoryId : string) (offset : N) : M unit :=
  error ← upsert_checkpoint seller categoryId offset;
  match error with
  | Some e => log ("  Checkpoint save error: " +:+ Pg.message e)
  | None => mret tt
  end.

Definition resetCheckpoint (seller categoryId : string) : M unit :=
  error ← upsert_checkpoint seller categoryId 0%N;
  match error with
  | Some e => log ("  Checkpoint reset error: " +:+ Pg.message e)
  | None => mret tt
  end.

(** ** [evaluate.ts] *)

Module EvalCounts.
Record t : Type := mk {
  evaluated : nat;
  buy : nat;
  review : nat;
  reject : nat;
  noData : nat
}.
End EvalCounts.

(** What [getProductByIsbn] does for a catalog key: it throws, resolves to a
    falsy value, or resolves to a product. *)
Inductive KeepaReply (KeepaProduct : Type) : Type :=
| KeepaThrows (error : string)
| KeepaNoData
| KeepaFound (raw : KeepaProduct).
Arguments KeepaThrows {KeepaProduct} error.
Arguments KeepaNoData {KeepaProduct}.
Arguments KeepaFound {KeepaProduct} raw.

(** The line feed, character 10. *)
Definition newline : string :=
  String (Ascii.Ascii false true false true false false false false) EmptyString.

Section Evaluate.

(** [keepaApi.ts] and [config.ts] are not among the files embedded here: the
    payload type, the valuation service, the evaluation engine and the
    pacing delay are parameters, as is the rounding of the arithmetic. *)
Variable fl : Q -> number.
Variable KeepaProduct : Type.
Variable keepa : string -> KeepaReply KeepaProduct.
Variable evaluateBook : KeepaProduct -> number -> KeepaEval.t.
Variable KEEPA_DELAY_MS : N.

(** [waitForKeepaTokens], the acquire of the rate limiter: the call is
    recorded and returns; the token bucket lives in [keepaApi.ts]. *)
Definition waitForKeepaTokens : M unit := emit EvWaitForKeepaTokens.

(** [getProductByIsbn]: the call is recorded and answers as the parameter
    [keepa] says for the catalog key. *)
Definition getProductByIsbn (isbn : string) : M (option KeepaProduct) :=
  emit (EvGetProductByIsbn isbn);;
  match keepa isbn with
  | KeepaThrows e => throw e
  | KeepaNoData => mret None
  | KeepaFound raw => mret (Some raw)
  end.

(** Buy price in dollars (price + shipping are stored in cents). *)
Definition buyPriceDollars (book : EbayBook.t) : number :=
  Js.div fl (Js.add fl (EbayBook.price book) (EbayBook.shipping book)) (Js.num 100).

(** Convert dollars to cents for DB storage. *)
Definition cents (dollars : option number) : option number :=
  match dollars with
  | Some d => Some (Js.Math_round (Js.mul fl d (Js.num 100)))
  | None => None
  end.

Definition weightOz (weightLbs : option number) : option number :=
  match weightLbs with
  | Some w =>
      Some (Js.div fl
              (Js.Math_round (Js.mul fl (Js.mul fl w (Js.num 16)) (Js.num 10)))
              (Js.num 10))
  | None => None
  end.

(** The object handed to [updateBookEvaluation] for an evaluated book. *)
Definition evaluation_of (result : KeepaEval.t) : Evaluation.t :=
  let amazonPriceCents := cents (KeepaEval.amazonPrice result) in
  let fbaProfitCents := cents (KeepaEval.fbaProfit result) in
  let fbmProfitCents := cents (KeepaEval.fbmProfit result) in
  let weightOz := weightOz (KeepaEval.weightLbs result) in
  {| Evaluation.decision := KeepaEval.decision result;
     Evaluation.asin := KeepaEval.asin result;
     Evaluation.amazon_price := safeInt amazonPriceCents;
     Evaluation.sales_rank := safeInt (KeepaEval.salesRank result);
     Evaluation.sales_rank_drops_90 := safeInt (KeepaEval.salesRankDrops90 result);
     Evaluation.fba_profit := safeInt fbaProfitCents;
     Evaluation.fbm_profit := safeInt fbmProfitCents;
     Evaluation.amazon_flag := KeepaEval.amazonFlag result;
     Evaluation.book_type := KeepaEval.binding result;
     Evaluation.weight_oz :=
       match weightOz with
       | Some w => if Js.Number_isFinite w then Some w else None
       | None => None
       end |}.

(** The object handed to [updateBookEvaluation] when Keepa has no data:
    [{ decision: 'REJECT' }]. *)
Definition no_data_evaluation : Evaluation.t :=
  Evaluation.mk REJECT None None None None None None None None None.

Definition progress (evaluated total : nat) (isbn : string) : string :=
  "  [" +:+ pretty evaluated +:+ "/" +:+ pretty total +:+ "] " +:+ isbn.

Definition count_decision (d : EvalDecision) (c : EvalCounts.t) : EvalCounts.t :=
  match d with
  | BUY =>
      EvalCounts.mk (EvalCounts.evaluated c) (S (EvalCounts.buy c))
        (EvalCounts.review c) (EvalCounts.reject c) (EvalCounts.noData c)
  | REVIEW =>
      EvalCounts.mk (EvalCounts.evaluated c) (EvalCounts.buy c)
        (S (EvalCounts.review c)) (EvalCounts.reject c) (EvalCounts.noData c)
  | REJECT =>
      EvalCounts.mk (EvalCounts.evaluated c) (EvalCounts.buy c)
        (EvalCounts.review c) (S (EvalCounts.reject c)) (EvalCounts.noData c)
  end.

Definition count_noData (c : EvalCounts.t) : EvalCounts.t :=
  EvalCounts.mk (EvalCounts.evaluated c) (EvalCounts.buy c)
    (EvalCounts.review c) (EvalCounts.reject c) (S (EvalCounts.noData c)).

Definition count_evaluated (c : EvalCounts.t) : EvalCounts.t :=
  EvalCounts.mk (S (EvalCounts.evaluated c)) (EvalCounts.buy c)
    (EvalCounts.review c) (EvalCounts.reject c) (EvalCounts.noData c).

(** The body of [for (const book of pending)], up to its [continue] or its
    end; [total] is [pending.length], [c] the five counters. *)
Definition evaluate_book (total : nat) (book : EbayBook.t) (c : EvalCounts.t)
  : M EvalCounts.t :=
  waitForKeepaTokens;;
  raw ← getProductByIsbn (EbayBook.isbn book);
  match raw with
  | None =>
      updateBookEvaluation (EbayBook.isbn book) no_data_evaluation;;
      let c := count_evaluated (count_noData c) in
      log (progress (EvalCounts.evaluated c) total (EbayBook.isbn book)
             +:+ " — no Keepa data → REJECT");;
      sleep KEEPA_DELAY_MS;;
      mret c
  | Some raw =>
      let result := evaluateBook raw (buyPriceDollars book) in
      updateBookEvaluation (EbayBook.isbn book) (evaluation_of result);;
      let c := count_evaluated (count_decision (KeepaEval.decision result) c) in
      log (progress (EvalCounts.evaluated c) total (EbayBook.isbn book)
             +:+ " → " +:+ decision_name (KeepaEval.decision result)
             +:+ " (" +:+ KeepaEval.reason result +:+ ")");;
      sleep KEEPA_DELAY_MS;;
      mret c
  end.

(** What a turn of the loop leaves once the lookup has answered: the
    counters [c], the update of [evaluation], the progress line ending in
    [line] and the pacing delay. *)
Definition turn (total : nat) (book : EbayBook.t) (c : EvalCounts.t)
    (evaluation : Evaluation.t) (line : string) (w : World) : Run EvalCounts.t :=
  let update := updateBookEvaluation (EbayBook.isbn book) evaluation w in
  mkRun (Ok c)
    (set_clock (clock (final update) + KEEPA_DELAY_MS)%N (final update))
    ([EvWaitForKeepaTokens; EvGetProductByIsbn (EbayBook.isbn book)]
       ++ events update
       ++ [EvLog (progress (EvalCounts.evaluated c) total (EbayBook.isbn book) +:+ line);
           EvSleep KEEPA_DELAY_MS]).

Fixpoint evaluate_loop (total : nat) (pending : list EbayBook.t) (c : EvalCounts.t)
  : M EvalCounts.t :=
  match pending with
  | [] => mret c
  | book :: rest =>
      c ← evaluate_book total book c;
      evaluate_loop total rest c
  end.

Definition evaluatePendingBooks (seller : option string) : M EvalCounts.t :=
  pending ← getPendingBooks seller;
  log (newline +:+ "Evaluating " +:+ pretty (length pending) +:+ " pending books...");;
  (if Nat.ltb 0 (length pending) then waitForKeepaTokens else mret tt);;
  evaluate_loop (length pending) pending (EvalCounts.mk 0 0 0 0 0).

(** What the lookup and the engine make of a book: nothing when the lookup
    throws, [Some None] when Keepa has no data, the decision of the engine
    otherwise. *)
Definition verdict (book : EbayBook.t) : option (option EvalDecision) :=
  match keepa (EbayBook.isbn book) with
  | KeepaThrows _ => None
  | KeepaNoData => Some None
  | KeepaFound raw =>
      Some (Some (KeepaEval.decision (evaluateBook raw (buyPriceDollars book))))
  end.

(** How many books of [pending] get the verdict [v]. *)
Definition tally (v : option EvalDecision) (pending : list EbayBook.t) : nat :=
  length (List.filter (fun book => bool_decide (verdict book = Some v)) pending).


End Evaluate.

(** The calls to the valuation service among the events of a run. *)
Inductive KeepaCall : Type :=
| Acquire
| Lookup (isbn : string).

Definition keepa_calls (evs : list Event) : list KeepaCall :=
  omap (fun e =>
          match e with
          | EvWaitForKeepaTokens => Some Acquire
          | EvGetProductByIsbn isbn => Some (Lookup isbn)
          | _ => None
          end) evs.

(** An update that stores the decision REJECT. *)
Definition is_reject_update (req : DbRequest) : bool :=
  match req with
  | UpdateBook _ body =>
      match body !! "decision" with
      | Some (JString s) => String.eqb s "REJECT"
      | _ => false
      end
  | _ => false
  end.

(** ** [ebayApi.ts]: the paginated listing scraper *)

Module ScrapeResult.
Record t : Type := mk {
  completed : bool;
  totalScraped : nat;
  totalWithISBN : nat;
  totalNew : nat
}.
End ScrapeResult.

(** What the marketplace answers to one page request. *)
Inductive PageReply : Type :=
| PageError (error : string)
| Page (items : list Listing.t).

(** The fixed page size of the listing API. *)
Definition PAGE_SIZE : N := 200.

Section Scraper.

Variable seller query : string.
Variable existingISBNs : gset string.
Variable onPage : list ScrapedBook.t -> M unit.
Variable onCheckpoint : N -> M unit.
Variable maxNew : option nat.

Definition is_new (l : Listing.t) : bool :=
  Listing.has_isbn l
  && negb (bool_decide (ScrapedBook.isbn (Listing.item l) ∈ existingISBNs)).

Definition count_page (items : list Listing.t) (totals : ScrapeResult.t)
  : ScrapeResult.t :=
  ScrapeResult.mk false
    (ScrapeResult.totalScraped totals + length items)
    (ScrapeResult.totalWithISBN totals + length (List.filter Listing.has_isbn items))
    (ScrapeResult.totalNew totals + length (List.filter is_new items)).

Definition finished (completed : bool) (totals : ScrapeResult.t) : ScrapeResult.t :=
  ScrapeResult.mk completed (ScrapeResult.totalScraped totals)
    (ScrapeResult.totalWithISBN totals) (ScrapeResult.totalNew totals).

Definition threshold_exceeded (totals : ScrapeResult.t) : bool :=
  match maxNew with
  | Some n => Nat.ltb n (ScrapeResult.totalNew totals)
  | None => false
  end.

(** Modelled from the spec: completion is signalled when the fetched page is
    empty or shorter than the page size; the crawl stops early, checkpoint
    preserved, when the new-item threshold is configured and exceeded.  The
    result is [inl] when the crawl ends with this page and [inr] when it
    goes on. *)
Definition page_verdict (items : list Listing.t) (totals : ScrapeResult.t)
  : ScrapeResult.t + ScrapeResult.t :=
  if Nat.eqb (length items) 0 || Nat.ltb (length items) (N.to_nat PAGE_SIZE)
  then inl (finished true totals)
  else if threshold_exceeded totals
  then inl (finished false totals)
  else inr totals.

(** Modelled from the spec: one page of the crawl.  The listings whose
    catalog key is already in the dedup index are filtered out and the
    remaining listings are passed to the insert callback; after the page
    the checkpoint-save callback is invoked with the next offset. *)
Definition crawl_page (items : list Listing.t) (offset : N) (totals : ScrapeResult.t)
  : M (ScrapeResult.t + ScrapeResult.t) :=
  onPage (Listing.item <$> List.filter is_new items);;
  onCheckpoint (offset + PAGE_SIZE)%N;;
  mret (page_verdict items (count_page items totals)).

(** Modelled from the spec: [scrapeAllListings] of [ebayApi.ts], which is
    not among the files embedded here, fetches successive pages of fixed size
    from the marketplace API starting at the starting offset, and
    accumulates and returns the run totals.  [replies] are the answers of
    the marketplace to the successive page requests of this crawl; once
    they are used up the result set has ended and the page is empty.  A
    failed page request is thrown to the caller. *)
Fixpoint scrape_pages (replies : list PageReply) (offset : N) (totals : ScrapeResult.t)
  : M ScrapeResult.t :=
  emit (EvEbayFetch seller query offset PAGE_SIZE);;
  match replies with
  | [] =>
      r ← crawl_page [] offset totals;
      match r with
      | inl result => mret result
      | inr totals => mret (finished true totals)
      end
  | PageError e :: _ => throw e
  | Page items :: rest =>
      r ← crawl_page items offset totals;
      match r with
      | inl result => mret result
      | inr totals => scrape_pages rest (offset + PAGE_SIZE)%N totals
      end
  end.

Definition scrapeAllListings (replies : list PageReply) (startOffset : N)
  : M ScrapeResult.t :=
  scrape_pages replies startOffset (ScrapeResult.mk false 0 0 0).

End Scraper.

(** ** [index.ts]: the run loop

    The console output of [main] is left out; its calls and their order are
    kept. *)

(** An entry of [SEARCHES] ([config.ts]). *)
Module Search.
Record t : Type := mk { name : string; query : string }.
End Search.

Section Main.

Variable fl : Q -> number.
Variable KeepaProduct : Type.
Variable keepa : string -> KeepaReply KeepaProduct.
Variable evaluateBook : KeepaProduct -> number -> KeepaEval.t.
Variable KEEPA_DELAY_MS : N.
(** [config.ts] is not among the files embedded here: its tables are
    parameters, and so is what the marketplace answers for a seller and a
    query. *)
Variable SELLERS : list string.
Variable SEARCHES : list Search.t.
Variable ebay : string -> string -> list PageReply.

(** The page callback of [main]; it ignores the page number. *)
Definition main_onPage (books : list ScrapedBook.t) : M unit :=
  insertResult ← insertBooks books;
  modify (fun w =>
    set_totals (totalNew w + InsertCounts.saved insertResult)
               (totalSkipped w + InsertCounts.duplicates insertResult) w).

(** The [try] block of the body of [for (const search of SEARCHES)]. *)
Definition crawl_try (existingISBNs : gset string) (seller : string)
    (search : Search.t) : M unit :=
  startOffset ← getCheckpoint seller (Search.query search);
  result ← scrapeAllListings seller (Search.query search) existingISBNs
             main_onPage
             (fun nextOffset => saveCheckpoint seller (Search.query search) nextOffset)
             None
             (ebay seller (Search.query search)) startOffset;
  if ScrapeResult.completed result
  then resetCheckpoint seller (Search.query search)
  else mret tt.

(** The body of [for (const search of SEARCHES)]: the [try] block and its
    [catch]. *)
Definition crawl_search (existingISBNs : gset string) (seller : string)
    (search : Search.t) : M unit :=
  try_catch (crawl_try existingISBNs seller search) (fun error => mret tt).

Fixpoint for_searches (existingISBNs : gset string) (seller : string)
    (searches : list Search.t) : M unit :=
  match searches with
  | [] => mret tt
  | search :: rest =>
      crawl_search existingISBNs seller search;;
      for_searches existingISBNs seller rest
  end.

Fixpoint for_sellers (existingISBNs : gset string) (sellers : list string) : M unit :=
  match sellers with
  | [] => mret tt
  | seller :: rest =>
      for_searches existingISBNs seller SEARCHES;;
      for_sellers existingISBNs rest
  end.

Definition main : M unit :=
  evalResult ← evaluatePendingBooks fl KeepaProduct keepa evaluateBook
                 KEEPA_DELAY_MS None;
  existingISBNs ← getExistingISBNs;
  modify (set_totals 0 0);;
  for_sellers existingISBNs SELLERS.

End Main.

(** The crawls of a list of (seller, search) pairs, one after the other. *)
Fixpoint crawl_all (ebay : string -> string -> list PageReply)
    (existingISBNs : gset string) (pairs : list (string * Search.t)) : M unit :=
  match pairs with
  | [] => mret tt
  | p :: rest =>
      crawl_search ebay existingISBNs p.1 p.2;;
      crawl_all ebay existingISBNs rest
  end.

(** The offset a crawl of [main] starts at, and the run of the scraper in
    that crawl: what [crawl_search] hands to [scrapeAllListings] from the
    world [w]. *)
Definition start_offset (seller key : string) (w : World) : N :=
  match outcome (getCheckpoint seller key w) with
  | Ok offset => offset
  | Thrown _ => 0%N
  end.

Definition crawl_scrape (ebay : string -> string -> list PageReply)
    (existingISBNs : gset string) (seller key : string) (w : World)
  : Run ScrapeResult.t :=
  scrapeAllListings seller key existingISBNs main_onPage
    (fun nextOffset => saveCheckpoint seller key nextOffset) None
    (ebay seller key) (start_offset seller key w)
    (final (getCheckpoint seller key w)).

(** Whether a run of the scraper reported completion. *)
Definition reported_completed (scrape : Run ScrapeResult.t) : bool :=
  match outcome scrape with
  | Ok result => ScrapeResult.completed result
  | Thrown _ => false
  end.

(** ** The one-time OAuth helper ([scripts/ebay-auth.ts])

    The helper is a script.  It reads three settings from the environment,
    prints the consent URL, asks for the URL that the browser was redirected
    to and exchanges the authorization code of that URL for tokens.  What it
    is given is the environment, the line typed at the prompt (none when the
    input ends first) and the answer of the token endpoint; what it does is
    the list of its steps, in order.  [process.exit] ends the script on the
    spot, so a run that reaches it has nothing after it; a run that does not
    ends with the exit code 0. *)
Module EbayAuth.

(** A value parsed from JSON, as [tokenRes.json()] resolves to. *)
#[warnings="-register-all"] Inductive Json : Type :=
| JsonNull
| JsonBool (b : bool)
| JsonNumber (n : number)
| JsonString (s : string)
| JsonArray (items : list Json)
| JsonObject (members : list (string * Json)).

Record Request : Type := mkRequest {
  url : string;
  method : string;
  headers : list (string * string);
  body : string
}.

(** What [fetch] and [json()] come to: a rejection of [fetch], or a response
    with its [ok] flag and its body, which parses ([inr]) or makes [json()]
    reject ([inl]). *)
Inductive Reply : Type :=
| Rejects (reason : string)
| Response (ok : bool) (json : string + Json).

(** What the [catch] of the exchange catches: a rejection, or the TypeError
    of reading a property of null, of calling [substring] on what is not a
    string, or of converting an object that has no primitive value. *)
Inductive Caught : Type :=
| Rejection (reason : string)
| TypeError.

Inductive Step : Type :=
| ConsoleLog (line : string)
| ConsoleError (line : string)
| ConsoleErrorData (line data : string)
| ConsoleErrorCaught (line : string) (err : Caught)
| Question (prompt : string)
| Fetch (request : Request)
| ProcessExit (code : Z).

Definition OAUTH_SCOPES : string := "https://api.ebay.com/oauth/api_scope".
Definition EBAY_AUTH_URL : string := "https://auth.ebay.com/oauth2/authorize".
Definition EBAY_TOKEN_URL : string := "https://api.ebay.com/identity/v1/oauth2/token".

(** [searchParams.get(name)]: the value of the first pair of that name, null
    when there is none. *)
Definition searchParams_get (name : string) (searchParams : list (string * string))
  : option string :=
  snd <$> List.find (fun p => String.eqb (fst p) name) searchParams.

(** [data.name] for one of the three names the script reads: [None] when the
    read throws, which it does on null; [Some None] for undefined, which is
    what every value but an object with that member gives. *)
Definition member (data : Json) (name : string) : option (option Json) :=
  match data with
  | JsonNull => None
  | JsonObject members =>
      Some (snd <$> List.find (fun p => String.eqb (fst p) name) members)
  | _ => Some None
  end.

Section Script.

(** The platform: [URLSearchParams.toString], [String.trim], the pairs of
    the query of a URL ([None] when [new URL] throws), the base64 encoding of
    [Buffer], [JSON.stringify(_, null, 2)], the text that a template literal
    makes of a value that is neither a string nor undefined, and the text of
    [Math.round(v / 86400)] ([None] when the conversion throws, as it does
    for an object that has no primitive value). *)
Variable URLSearchParams_toString : list (string * string) -> string.
Variable String_trim : string -> string.
Variable URL_searchParams : string -> option (list (string * string)).
Variable base64 : string -> string.
Variable JSON_stringify : Json -> string.
Variable ToString : Json -> option string.
Variable days : option Json -> option string.

Variable env : string -> option string.
Variable stdin : option string.
Variable reply : Request -> Reply.

Definition CLIENT_ID : string := default "" (env "EBAY_CLIENT_ID").
Definition CLIENT_SECRET : string := default "" (env "EBAY_CLIENT_SECRET").
Definition RUNAME : string := default "" (env "EBAY_RUNAME").

Definition consentUrl : string :=
  EBAY_AUTH_URL +:+ "?" +:+
  URLSearchParams_toString
    [ ("client_id", CLIENT_ID);
      ("response_type", "code");
      ("redirect_uri", RUNAME);
      ("scope", OAUTH_SCOPES) ].

Definition token_request (code : string) : Request :=
  {| url := EBAY_TOKEN_URL;
     method := "POST";
     headers :=
       [ ("Content-Type", "application/x-www-form-urlencoded");
         ("Authorization", "Basic " +:+ base64 (CLIENT_ID +:+ ":" +:+ CLIENT_SECRET)) ];
     body :=
       URLSearchParams_toString
         [ ("grant_type", "authorization_code");
           ("code", code);
           ("redirect_uri", RUNAME) ] |}.

(** A template literal on a value. *)
Definition template (v : option Json) : option string :=
  match v with
  | None => Some "undefined"
  | Some (JsonString s) => Some s
  | Some v => ToString v
  end.

(** The [catch] of the exchange. *)
Definition caught (err : Caught) : list Step :=
  [ConsoleErrorCaught "Error exchanging code:" err; ProcessExit 1].

(** The lines 89 to 97: what is done with the body of an ok response. *)
Definition report (data : Json) : list Step :=
  match member data "refresh_token",
        member data "access_token",
        member data "refresh_token_expires_in" with
  | Some refreshToken, Some accessToken, Some refreshExpires =>
      ConsoleLog ("Success!" +:+ newline) ::
      match accessToken with
      | Some (JsonString s) =>
          ConsoleLog ("Access token:  " +:+ String.substring 0 30 s +:+ "...") ::
          match days refreshExpires with
          | Some d =>
              ConsoleLog ("Refresh token expires in: " +:+ d +:+ " days" +:+ newline) ::
              ConsoleLog ("=== Add this to your environment (e.g. Railway) ===" +:+ newline) ::
              match template refreshToken with
              | Some t => [ConsoleLog ("EBAY_REFRESH_TOKEN=" +:+ t +:+ newline)]
              | None => caught TypeError
              end
          | None => caught TypeError
          end
      | _ => caught TypeError
      end
  | _, _, _ => caught TypeError
  end.

(** The second [try] of the callback. *)
Definition exchange (code : string) : list Step :=
  Fetch (token_request code) ::
  match reply (token_request code) with
  | Rejects reason => caught (Rejection reason)
  | Response _ (inl reason) => caught (Rejection reason)
  | Response false (inr data) =>
      [ConsoleErrorData "Token exchange failed:" (JSON_stringify data); ProcessExit 1]
  | Response true (inr data) => report data
  end.

(** The callback of [rl.question]. *)
Definition on_answer (redirectUrl : string) : list Step :=
  match URL_searchParams (String_trim redirectUrl) with
  | None =>
      [ ConsoleError
          "Error: Invalid URL. Make sure you copied the full URL from the address bar.";
        ProcessExit 1 ]
  | Some searchParams =>
      let code := default "" (searchParams_get "code" searchParams) in
      if String.eqb code ""
      then [ConsoleError "Error: No authorization code found in the URL."; ProcessExit 1]
      else
        ConsoleLog (newline +:+ "Exchanging authorization code for tokens..." +:+ newline)
          :: exchange code
  end.

(** The script. *)
Definition ebay_auth : list Step :=
  if String.eqb CLIENT_ID "" || String.eqb CLIENT_SECRET ""
  then [ ConsoleError "Error: EBAY_CLIENT_ID and EBAY_CLIENT_SECRET must be set.";
         ProcessExit 1 ]
  else if String.eqb RUNAME ""
  then [ ConsoleError "Error: EBAY_RUNAME must be set (your eBay redirect URI name).";
         ProcessExit 1 ]
  else
    [ ConsoleLog (newline +:+ "=== eBay OAuth User Token Setup ===" +:+ newline);
      ConsoleLog ("1. Open this URL in your browser:" +:+ newline);
      ConsoleLog ("   " +:+ consentUrl +:+ newline);
      ConsoleLog "2. Sign in to eBay and grant access.";
      ConsoleLog "3. The browser will redirect to a URL that won't load (that's expected).";
      ConsoleLog ("4. Copy the FULL URL from your browser's address bar and paste it below."
                    +:+ newline);
      Question "Paste the redirect URL here: " ]
    ++ match stdin with
       | Some redirectUrl => on_answer redirectUrl
       | None => []
       end.

End Script.

(** The requests that a run has sent, and the exit code it ends with. *)
Definition fetches (steps : list Step) : list Request :=
  omap (fun s => match s with Fetch request => Some request | _ => None end) steps.

Definition exits (steps : list Step) : list Z :=
  omap (fun s => match s with ProcessExit code => Some code | _ => None end) steps.

Definition exit_code (steps : list Step) : Z := default 0 (head (exits steps)).

End EbayAuth.

(** ** [index.ts], the batch variant: one seller, an evaluation after each
    batch

    The second [main] of [index.ts] crawls the searches of one seller.  For
    each search it crawls in turns: a turn resumes from the checkpoint,
    stops when the scraper has seen more than [EVAL_BATCH_SIZE] new books or
    has reached the end of the results, and is followed by an evaluation of
    the pending books of the seller when it has saved a book.  As for the
    first [main], the console output is left out, and with it [totalEval],
    which only feeds the summary. *)

(** An entry of [SEARCHES] as this variant reads it. *)
Module BatchSearch.
Record t : Type := mk {
  name : string;
  key : string;
  query : string;
  categoryId : string
}.
End BatchSearch.

Section BatchMain.

Variable fl : Q -> number.
Variable KeepaProduct : Type.
Variable keepa : string -> KeepaReply KeepaProduct.
Variable evaluateBook : KeepaProduct -> number -> KeepaEval.t.
Variable KEEPA_DELAY_MS : N.
(** The constants of [config.ts], and what the marketplace answers to the
    page requests of a crawl: a crawl is known by the query, the category
    and the condition it filters on and by the number of the turn, as the
    marketplace may answer a later crawl of the same search otherwise. *)
Variable SELLER : string.
Variable CONDITION_ID : string.
Variable EVAL_BATCH_SIZE : nat.
Variable SEARCHES : list BatchSearch.t.
Variable ebay : string -> string -> string -> nat -> list PageReply.

(** The [try] block of a turn of [while (!searchDone)]; its value is what
    [searchDone] is at the end of the block.  The page callback is that of
    the first [main] with one more counter, [batchNew], which starts at 0 at
    each turn and to which the callback adds what it adds to [totalNew]:
    [batchNew > 0] says that [totalNew] has grown during the turn. *)
Definition batch_try (existingISBNs : gset string) (search : BatchSearch.t)
    (turn : nat) (startOffset : N) : M bool :=
  before ← gets totalNew;
  result ← scrapeAllListings SELLER (BatchSearch.query search) existingISBNs
             main_onPage
             (fun nextOffset => saveCheckpoint SELLER (BatchSearch.key search) nextOffset)
             (Some EVAL_BATCH_SIZE)
             (ebay (BatchSearch.query search) (BatchSearch.categoryId search)
                CONDITION_ID turn)
             startOffset;
  after ← gets totalNew;
  if Nat.ltb before after
  then
    evalResult ← evaluatePendingBooks fl KeepaProduct keepa evaluateBook
                   KEEPA_DELAY_MS (Some SELLER);
    mret (ScrapeResult.completed result)
  else mret true.

(** One turn of [while (!searchDone)]: the checkpoint read, the [try] block
    and its [catch], which ends the search. *)
Definition batch_turn (existingISBNs : gset string) (search : BatchSearch.t)
    (turn : nat) : M bool :=
  startOffset ← getCheckpoint SELLER (BatchSearch.key search);
  try_catch (batch_try existingISBNs search turn startOffset) (fun error => mret true).

(** [while (!searchDone)], for at most [fuel] turns: the value is true when
    the loop has ended and false when the turns are used up. *)
Fixpoint batch_while (fuel : nat) (existingISBNs : gset string)
    (search : BatchSearch.t) (turn : nat) : M bool :=
  match fuel with
  | O => mret false
  | S fuel' =>
      searchDone ← batch_turn existingISBNs search turn;
      if searchDone : bool then mret true
      else batch_while fuel' existingISBNs search (S turn)
  end.

(** [for (const search of SEARCHES)]; it stops where a loop has used up its
    turns. *)
Fixpoint batch_for (fuel : nat) (existingISBNs : gset string)
    (searches : list BatchSearch.t) : M bool :=
  match searches with
  | [] => mret true
  | search :: rest =>
      ended ← batch_while fuel existingISBNs search 0;
      if ended : bool then batch_for fuel existingISBNs rest else mret false
  end.

(** The batch [main], each of its loops run for at most [fuel] turns: true
    when [main] has returned. *)
Definition batch_main (fuel : nat) : M bool :=
  existingISBNs ← getExistingISBNs;
  modify (set_totals 0 0);;
  batch_for fuel existingISBNs SEARCHES.

End BatchMain.

(** What every step of the batch run keeps, from the world [w] it starts in:
    the table grows by what [totalNew] grows by, [totalNew] does not
    decrease, no checkpoint write carries an offset below one page, and the
    valuation service is not called unless [totalNew] has grown. *)
Definition batch_step {A : Type} (w : World) (r : Run A) : Prop :=
  (length (ebay_books (final r)) + totalNew w
   = length (ebay_books w) + totalNew (final r))%nat
  /\ (totalNew w <= totalNew (final r))%nat
  /\ Forall (fun offset => (PAGE_SIZE <= offset)%N) (upserted_offsets (events r))
  /\ (totalNew (final r) = totalNew w -> keepa_calls (events r) = []).


(** ** Reference values for the properties

    What a run asked of the store, read off its events, and the values that
    the properties below compare the program with. *)

(** The page reads of [getExistingISBNs]: [pages] reads of 1000 keys each,
    from rank [from] on. *)
Definition isbn_page_requests (from pages : nat) : list DbRequest :=
  (fun i => SelectIsbns (from + i * pageSize) (from + i * pageSize + pageSize - 1))
    <$> seq 0 pages.

(** The evaluation that two successive evaluations of a book amount to: the
    decision of the later one and, field by field, the value of the later one
    where it defines the field, the value of the earlier one where it does
    not. *)
Definition merge_evaluations (earlier later : Evaluation.t) : Evaluation.t :=
  {| Evaluation.decision := Evaluation.decision later;
     Evaluation.asin := written (Evaluation.asin later) (Evaluation.asin earlier);
     Evaluation.amazon_price :=
       written (Evaluation.amazon_price later) (Evaluation.amazon_price earlier);
     Evaluation.sales_rank :=
       written (Evaluation.sales_rank later) (Evaluation.sales_rank earlier);
     Evaluation.sales_rank_drops_90 :=
       written (Evaluation.sales_rank_drops_90 later)
         (Evaluation.sales_rank_drops_90 earlier);
     Evaluation.fba_profit :=
       written (Evaluation.fba_profit later) (Evaluation.fba_profit earlier);
     Evaluation.fbm_profit :=
       written (Evaluation.fbm_profit later) (Evaluation.fbm_profit earlier);
     Evaluation.amazon_flag :=
       written (Evaluation.amazon_flag later) (Evaluation.amazon_flag earlier);
     Evaluation.book_type :=
       written (Evaluation.book_type later) (Evaluation.book_type earlier);
     Evaluation.weight_oz :=
       written (Evaluation.weight_oz later) (Evaluation.weight_oz earlier) |}.

(** The catalog keys that the updates of a run are addressed to, in order. *)
Definition updated_isbns (evs : list Event) : list string :=
  omap (fun e =>
          match e with
          | EvDb (UpdateBook isbn _) => Some isbn
          | _ => None
          end) evs.

(** The pauses of a run, in order. *)
Definition sleeps (evs : list Event) : list N :=
  omap (fun e => match e with EvSleep ms => Some ms | _ => None end) evs.

(** The (seller, search) pairs whose checkpoint a run reads, in order. *)
Definition checkpoint_reads (evs : list Event) : list (string * string) :=
  omap (fun e =>
          match e with
          | EvDb (SelectCheckpoint seller key) => Some (seller, key)
          | _ => None
          end) evs.

(** The pairs that [main] crawls, in the order of its loops. *)
Definition crawl_order (SELLERS : list string) (SEARCHES : list Search.t)
  : list (string * Search.t) :=
  flat_map (fun seller => pair seller <$> SEARCHES) SELLERS.

(** ** Sample data for the examples *)

Definition sample_book (isbn seller : string) (scraped_at : Timestamp) : EbayBook.t :=
  {| EbayBook.id := None;
     EbayBook.isbn := isbn;
     EbayBook.title := "A used book";
     EbayBook.price := Js.num 1000;
     EbayBook.condition := "Good";
     EbayBook.seller := seller;
     EbayBook.category := "Books";
     EbayBook.ebay_item_id := "v1|1|0";
     EbayBook.ebay_url := "https://www.ebay.com/itm/1";
     EbayBook.image_url := None;
     EbayBook.shipping := Js.num 300;
     EbayBook.scraped_at := scraped_at;
     EbayBook.decision := None;
     EbayBook.asin := None;
     EbayBook.amazon_price := None;
     EbayBook.sales_rank := None;
     EbayBook.sales_rank_drops_90 := None;
     EbayBook.fba_profit := None;
     EbayBook.fbm_profit := None;
     EbayBook.amazon_flag := None;
     EbayBook.book_type := None;
     EbayBook.weight_oz := None;
     EbayBook.evaluated_at := None;
     EbayBook.bought_at := None |}.

Definition timeout_error : Pg.Error :=
  {| Pg.code := "57014";
     Pg.message := "canceling statement due to statement timeout" |}.

(** A valuation service that has no data for one catalog key, and an engine
    that buys everything else. *)
Definition sample_keepa (isbn : string) : KeepaReply unit :=
  if String.eqb isbn "9780000000001" then KeepaNoData else KeepaFound tt.

Definition sample_engine (raw : unit) (buyPrice : number) : KeepaEval.t :=
  {| KeepaEval.decision := BUY;
     KeepaEval.asin := Some "B000000001";
     KeepaEval.amazonPrice := Some (Js.Fin (4005 # 100));
     KeepaEval.salesRank := Some (Js.num 15000);
     KeepaEval.salesRankDrops90 := Some (Js.num 12);
     KeepaEval.fbaProfit := Some (Js.Fin (1250 # 100));
     KeepaEval.fbmProfit := Some (Js.Fin (980 # 100));
     KeepaEval.amazonFlag := None;
     KeepaEval.binding := Some "Paperback";
     KeepaEval.weightLbs := Some (Js.Fin (13 # 10));
     KeepaEval.reason := "multiplier above threshold" |}.

(** A world with the given table, no checkpoint, and the given fault
    schedule. *)
Definition sample_world (books : list EbayBook.t) (faults : list (option Pg.Error))
  : World :=
  mkWorld books ∅ faults 1000%N 0 0.

Definition sample_listing (isbn : string) : ScrapedBook.t :=
  {| ScrapedBook.isbn := isbn;
     ScrapedBook.title := "A used book";
     ScrapedBook.price := Js.num 1000;
     ScrapedBook.condition := "Good";
     ScrapedBook.seller := "seller-a";
     ScrapedBook.category := "Books";
     ScrapedBook.ebay_item_id := "v1|1|0";
     ScrapedBook.ebay_url := "https://www.ebay.com/itm/1";
     ScrapedBook.image_url := None;
     ScrapedBook.shipping := Js.num 300;
     ScrapedBook.scraped_at := 10%N |}.

(** A world whose only content is the checkpoint of one pair, at offset 400,
    and a marketplace whose result sets have all ended. *)
Definition checkpoint_world (faults : list (option Pg.Error)) : World :=
  mkWorld [] {[ ("seller-a", "books") := Checkpoint.mk 400 0 ]} faults 1000%N 0 0.


Definition books_search : Search.t := Search.mk "Books" "books".

(** An engine whose results are doubles: 1.005 dollars, 12.5 dollars, 9.8
    dollars and 1.3 pounds as the engine of the program holds them, and one
    whose ranks are beyond what the store's integer columns take. *)
Definition double_engine (raw : unit) (buyPrice : number) : KeepaEval.t :=
  {| KeepaEval.decision := BUY;
     KeepaEval.asin := Some "B000000001";
     KeepaEval.amazonPrice := Some (Js.binary64 (1005 # 1000));
     KeepaEval.salesRank := Some (Js.num 15000);
     KeepaEval.salesRankDrops90 := Some (Js.num 12);
     KeepaEval.fbaProfit := Some (Js.binary64 (125 # 10));
     KeepaEval.fbmProfit := Some (Js.binary64 (98 # 10));
     KeepaEval.amazonFlag := None;
     KeepaEval.binding := Some "Paperback";
     KeepaEval.weightLbs := Some (Js.binary64 (13 # 10));
     KeepaEval.reason := "multiplier above threshold" |}.

Definition oversized_engine (raw : unit) (buyPrice : number) : KeepaEval.t :=
  {| KeepaEval.decision := REVIEW;
     KeepaEval.asin := Some "B000000002";
     KeepaEval.amazonPrice := Some (Js.binary64 (30000000 # 1));
     KeepaEval.salesRank := Some (Js.num 3000000000);
     KeepaEval.salesRankDrops90 := Some (Js.num (-3000000000));
     KeepaEval.fbaProfit := Some (Js.binary64 (125 # 10));
     KeepaEval.fbmProfit := None;
     KeepaEval.amazonFlag := None;
     KeepaEval.binding := None;
     KeepaEval.weightLbs := None;
     KeepaEval.reason := "rank out of range" |}.

(** A row that an earlier evaluation has filled. *)
Definition evaluated_book (isbn : string) : EbayBook.t :=
  {| EbayBook.id := None;
     EbayBook.isbn := isbn;
     EbayBook.title := "A used book";
     EbayBook.price := Js.num 1000;
     EbayBook.condition := "Good";
     EbayBook.seller := "seller-a";
     EbayBook.category := "Books";
     EbayBook.ebay_item_id := "v1|1|0";
     EbayBook.ebay_url := "https://www.ebay.com/itm/1";
     EbayBook.image_url := None;
     EbayBook.shipping := Js.num 300;
     EbayBook.scraped_at := 10%N;
     EbayBook.decision := Some (Decided REVIEW);
     EbayBook.asin := Some "B000000002";
     EbayBook.amazon_price := Some (Js.num 2000);
     EbayBook.sales_rank := Some (Js.num 777);
     EbayBook.sales_rank_drops_90 := Some (Js.num 5);
     EbayBook.fba_profit := Some (Js.num 300);
     EbayBook.fbm_profit := Some (Js.num 200);
     EbayBook.amazon_flag := None;
     EbayBook.book_type := None;
     EbayBook.weight_oz := Some (Js.num 8);
     EbayBook.evaluated_at := Some 500%N;
     EbayBook.bought_at := None |}.

(** A valuation service whose lookup fails for one catalog key and that has
    no data for the others. *)
Definition failing_keepa (isbn : string) : KeepaReply unit :=
  if String.eqb isbn "9780000000002"
  then KeepaThrows "Keepa request failed: 429"
  else KeepaNoData.

(** A book that was bought: a row whose decision is set. *)
Definition bought_book (isbn seller : string) (scraped_at : Timestamp) : EbayBook.t :=
  {| EbayBook.id := None;
     EbayBook.isbn := isbn;
     EbayBook.title := "A used book";
     EbayBook.price := Js.num 1000;
     EbayBook.condition := "Good";
     EbayBook.seller := seller;
     EbayBook.category := "Books";
     EbayBook.ebay_item_id := "v1|1|0";
     EbayBook.ebay_url := "https://www.ebay.com/itm/1";
     EbayBook.image_url := None;
     EbayBook.shipping := Js.num 300;
     EbayBook.scraped_at := scraped_at;
     EbayBook.decision := Some BOUGHT;
     EbayBook.asin := Some "B000000001";
     EbayBook.amazon_price := Some (Js.num 4005);
     EbayBook.sales_rank := Some (Js.num 15000);
     EbayBook.sales_rank_drops_90 := Some (Js.num 12);
     EbayBook.fba_profit := Some (Js.num 1250);
     EbayBook.fbm_profit := Some (Js.num 980);
     EbayBook.amazon_flag := None;
     EbayBook.book_type := Some "Paperback";
     EbayBook.weight_oz := Some (Js.Fin (208 # 10));
     EbayBook.evaluated_at := Some 500%N;
     EbayBook.bought_at := Some 600%N |}.

(** A marketplace whose every page request fails, and one that has a single
    short page with one listing. *)
Definition failing_marketplace (seller query : string) : list PageReply :=
  [PageError "503 Service Unavailable"].

Definition one_page_marketplace (seller query : string) : list PageReply :=
  [Page [Listing.mk (sample_listing "9780000000005") true]].

(** An environment that holds the three settings of the OAuth helper, a
    serialization of query pairs, and a URL parser that knows the redirect
    URL of the helper and takes what follows [code=] for the code. *)
Definition sample_env (name : string) : option string :=
  if String.eqb name "EBAY_CLIENT_ID" then Some "client-id"
  else if String.eqb name "EBAY_CLIENT_SECRET" then Some "client-secret"
  else if String.eqb name "EBAY_RUNAME" then Some "Some-RuName"
  else None.

Definition sample_query (pairs : list (string * string)) : string :=
  String.concat "&" ((fun p => fst p +:+ "=" +:+ snd p) <$> pairs).

Definition sample_url (s : string) : option (list (string * string)) :=
  if String.prefix "https://localhost:8080/callback?code=" s
  then Some [("code", String.substring 37 (String.length s - 37) s)]
  else None.

(** A search of the batch variant, and a marketplace that has nothing for
    any crawl. *)
Definition fiction_search : BatchSearch.t :=
  BatchSearch.mk "Fiction" "fiction-used" "fiction" "171228".

Definition empty_marketplace (query categoryId conditionId : string) (turn : nat)
  : list PageReply := [].


(** * Properties *)

(** ** Numbers *)

Lemma Qle_bool_inject_Z (a b : Z) : Qle_bool (inject_Z a) (inject_Z b) = (a <=? b).
Proof. unfold Qle_bool, inject_Z; simpl. by rewrite !Z.mul_1_r. Qed.

Lemma gt_num (a b : Z) : Js.gt (Js.num a) (Js.num b) = (b <? a).
Proof.
  unfold Js.gt, Js.lt, Js.num. rewrite Qle_bool_inject_Z.
  destruct (Z.leb_spec a b), (Z.ltb_spec b a); simpl; auto; lia.
Qed.

Lemma lt_num (a b : Z) : Js.lt (Js.num a) (Js.num b) = (a <? b).
Proof. apply (gt_num b a). Qed.

(** [Math.round] picks the integer nearest to its argument, the upper one
    at a tie. *)
Lemma round_half_up_nearest (q : Q) :
  (inject_Z (Js.round_half_up q) - (1 # 2) <= q)%Q
  /\ (q < inject_Z (Js.round_half_up q) + (1 # 2))%Q.
Proof.
  unfold Js.round_half_up.
  pose proof (Qfloor_le (q + (1 # 2))) as Hle.
  pose proof (Qlt_floor (q + (1 # 2))) as Hlt.
  rewrite inject_Z_plus in Hlt. simpl in Hlt.
  split.
  - apply (Qplus_le_l _ _ (1 # 2)). ring_simplify.
    ring_simplify in Hle. exact Hle.
  - apply (Qplus_lt_l _ _ (1 # 2)).
    eapply Qlt_le_trans; [exact Hlt|].
    ring_simplify. apply Qle_refl.
Qed.

Lemma round_half_up_integer (n : Z) : Js.round_half_up (inject_Z n) = n.
Proof.
  unfold Js.round_half_up, Qfloor, Qplus, inject_Z. simpl.
  rewrite Z.mul_1_r. rewrite Z.div_add_l by lia.
  change (1 `div` Z.pos (1 * 2)) with 0. lia.
Qed.

(** The value of [safeInt] on a finite number, in terms of integers. *)
Lemma safeInt_finite (q : Q) :
  safeInt (Some (Js.Fin q)) =
    if (2000000000 <? Js.round_half_up q) || (Js.round_half_up q <? -2000000000)
    then None
    else Some (Js.num (Js.round_half_up q)).
Proof. unfold safeInt. cbn [Js.Number_isFinite negb Js.Math_round]. by rewrite gt_num, lt_num. Qed.

Lemma safeInt_some (v : option number) (r : number) :
  safeInt v = Some r ->
  exists q, v = Some (Js.Fin q) /\ r = Js.num (Js.round_half_up q)
            /\ -2000000000 <= Js.round_half_up q <= 2000000000.
Proof.
  destruct v as [[| s | q]|]; try discriminate.
  rewrite safeInt_finite.
  destruct (Z.ltb_spec 2000000000 (Js.round_half_up q));
    destruct (Z.ltb_spec (Js.round_half_up q) (-2000000000)); simpl;
    try discriminate.
  intros [= <-]. exists q. repeat split; auto; lia.
Qed.

(** ** Running the monad *)

Lemma run_bind {A B : Type} (m : M A) (k : A -> M B) (w : World) :
  (m ≫= k) w = and_then (m w) k.
Proof. reflexivity. Qed.

Lemma and_then_ok {A B : Type} (first : Run A) (next : A -> M B) (a : A) :
  outcome first = Ok a ->
  and_then first next =
    mkRun (outcome (next a (final first))) (final (next a (final first)))
      (events first ++ events (next a (final first))).
Proof. unfold and_then. by intros ->. Qed.

Lemma and_then_thrown {A B : Type} (first : Run A) (next : A -> M B) (e : string) :
  outcome first = Thrown e ->
  and_then first next = mkRun (Thrown e) (final first) (events first).
Proof. unfold and_then. by intros ->. Qed.

Lemma db_request_run (req : DbRequest) (w : World) :
  db_request req w =
    mkRun (Ok (next_fault w)) (set_faults (tail (db_faults w)) w) [EvDb req].
Proof.
  unfold db_request, next_fault.
  destruct w as [books cps fs clk tn ts].
  destruct fs as [|f fs]; reflexivity.
Qed.

(** ** Checkpoints *)

Lemma getCheckpoint_run (seller key : string) (w : World) :
  getCheckpoint seller key w =
    mkRun (Ok (match next_fault w with
               | Some _ => 0%N
               | None =>
                   match fetcher_checkpoints w !! (seller, key) with
                   | Some row => Checkpoint.last_offset row
                   | None => 0%N
                   end
               end))
      (set_faults (tail (db_faults w)) w)
      [EvDb (SelectCheckpoint seller key)].
Proof.
  unfold getCheckpoint. rewrite run_bind, db_request_run.
  unfold and_then; simpl.
  destruct (next_fault w); simpl.
  - reflexivity.
  - destruct (fetcher_checkpoints w !! (seller, key)); reflexivity.
Qed.

Lemma upsert_checkpoint_run (seller key : string) (offset : N) (w : World) :
  upsert_checkpoint seller key offset w =
    mkRun (Ok (next_fault w))
      (match next_fault w with
       | Some _ => set_faults (tail (db_faults w)) w
       | None =>
           set_checkpoints
             (fun rows => <[(seller, key) := Checkpoint.mk offset (clock w)]> rows)
             (set_faults (tail (db_faults w)) w)
       end)
      [EvDb (UpsertCheckpoint seller key offset (clock w))].
Proof.
  unfold upsert_checkpoint. rewrite run_bind. unfold now, gets, and_then; simpl.
  rewrite run_bind, db_request_run. unfold and_then; simpl.
  destruct (next_fault w); reflexivity.
Qed.

Lemma saveCheckpoint_run (seller key : string) (offset : N) (w : World) :
  saveCheckpoint seller key offset w =
    mkRun (Ok tt) (final (upsert_checkpoint seller key offset w))
      (EvDb (UpsertCheckpoint seller key offset (clock w))
         :: match next_fault w with
            | Some e => [EvLog ("  Checkpoint save error: " +:+ Pg.message e)]
            | None => []
            end).
Proof.
  unfold saveCheckpoint. rewrite run_bind, upsert_checkpoint_run.
  unfold and_then; simpl. destruct (next_fault w); reflexivity.
Qed.

Lemma resetCheckpoint_run (seller key : string) (w : World) :
  resetCheckpoint seller key w =
    mkRun (Ok tt) (final (upsert_checkpoint seller key 0%N w))
      (EvDb (UpsertCheckpoint seller key 0%N (clock w))
         :: match next_fault w with
            | Some e => [EvLog ("  Checkpoint reset error: " +:+ Pg.message e)]
            | None => []
            end).
Proof.
  unfold resetCheckpoint. rewrite run_bind, upsert_checkpoint_run.
  unfold and_then; simpl. destruct (next_fault w); reflexivity.
Qed.

Lemma scrape_pages_first_event (seller query : string) (isbns : gset string)
    (onPage : list ScrapedBook.t -> M unit) (onCheckpoint : N -> M unit)
    (maxNew : option nat) (replies : list PageReply) (offset : N)
    (totals : ScrapeResult.t) (w : World) :
  exists evs,
    events (scrape_pages seller query isbns onPage onCheckpoint maxNew
              replies offset totals w)
    = EvEbayFetch seller query offset PAGE_SIZE :: evs.
Proof.
  destruct replies as [|[e|items] rest]; cbn [scrape_pages]; rewrite run_bind;
    unfold and_then, emit; cbn [outcome final events app]; eauto.
Qed.

Lemma try_catch_events_prefix {A : Type} (body : M A) (handler : string -> M A)
    (w : World) :
  exists evs, events (try_catch body handler w) = events (body w) ++ evs.
Proof.
  unfold try_catch. destruct (outcome (body w)); simpl.
  - exists []. by rewrite app_nil_r.
  - eauto.
Qed.

Lemma try_catch_outcome {A : Type} (body : M A) (handler : string -> M A)
    (w : World) :
  outcome (try_catch body handler w) =
    match outcome (body w) with
    | Ok a => Ok a
    | Thrown e => outcome (handler e (final (body w)))
    end.
Proof. unfold try_catch. by destruct (outcome (body w)) eqn:H. Qed.

Lemma crawl_search_returns (ebay : string -> string -> list PageReply)
    (isbns : gset string) (seller : string) (search : Search.t) (w : World) :
  outcome (crawl_search ebay isbns seller search w) = Ok tt.
Proof.
  unfold crawl_search. rewrite try_catch_outcome.
  by destruct (outcome _) as [[]|e].
Qed.

(** C10.  [getCheckpoint] never throws: it returns 0 when the pair has no
    checkpoint row and when the read fails, and the stored offset otherwise.
    A crawl whose checkpoint is missing or unreadable therefore does not
    abort: its first page request is at offset 0. *)
Theorem getCheckpoint_zero_when_missing_or_unreadable
    (seller key : string) (w : World) :
  (exists n, outcome (getCheckpoint seller key w) = Ok n)
  /\ (fetcher_checkpoints w !! (seller, key) = None ->
        outcome (getCheckpoint seller key w) = Ok 0%N)
  /\ (forall e, next_fault w = Some e ->
        outcome (getCheckpoint seller key w) = Ok 0%N)
  /\ (forall row, next_fault w = None ->
        fetcher_checkpoints w !! (seller, key) = Some row ->
        outcome (getCheckpoint seller key w) = Ok (Checkpoint.last_offset row))
  /\ (forall (ebay : string -> string -> list PageReply) (isbns : gset string)
        (name : string),
        fetcher_checkpoints w !! (seller, key) = None
        \/ (exists e, next_fault w = Some e) ->
        let run := crawl_search ebay isbns seller (Search.mk name key) w in
        outcome run = Ok tt
        /\ exists evs,
             events run = EvDb (SelectCheckpoint seller key)
                            :: EvEbayFetch seller key 0 PAGE_SIZE :: evs).
Proof.
  rewrite getCheckpoint_run. simpl.
  split; [eauto|]. split; [|split; [|split]].
  - intros ->. by destruct (next_fault w).
  - by intros e ->.
  - by intros row -> ->.
  - intros ebay isbns name Hzero.
    split; [apply crawl_search_returns|].
    destruct (try_catch_events_prefix
      (crawl_try ebay isbns seller (Search.mk name key))
      (fun _ => mret tt) w) as [evs Hevs].
    unfold crawl_search. rewrite Hevs. clear Hevs.
    unfold crawl_try. cbn [Search.query].
    rewrite run_bind, getCheckpoint_run. unfold and_then at 1; simpl.
    assert (Hstart : match next_fault w with
               | Some _ => 0%N
               | None =>
                   match fetcher_checkpoints w !! (seller, key) with
                   | Some row => Checkpoint.last_offset row
                   | None => 0%N
                   end
               end = 0%N).
    { destruct Hzero as [-> | [e ->]]; [by destruct (next_fault w) | done]. }
    rewrite Hstart. rewrite run_bind. unfold scrapeAllListings.
    destruct (scrape_pages_first_event seller key isbns main_onPage
      (fun nextOffset => saveCheckpoint seller key nextOffset) None
      (ebay seller key) 0%N (ScrapeResult.mk false 0 0 0)
      (set_faults (tail (db_faults w)) w)) as [evs' Hevs'].
    unfold and_then.
    match goal with |- context [outcome ?r] => destruct (outcome r) end;
      simpl; rewrite Hevs'; simpl; eauto.
Qed.

Lemma getCheckpoint_zero_when_missing_or_unreadable_witness :
  outcome (getCheckpoint "seller-a" "books" (checkpoint_world [Some timeout_error]))
  = Ok 0%N.
Proof.
  apply (proj1 (proj2 (proj2
    (getCheckpoint_zero_when_missing_or_unreadable "seller-a" "books"
       (checkpoint_world [Some timeout_error]))))
    timeout_error).
  reflexivity.
Defined.

(** ** Inserting books *)

Lemma insert_book_run (book : ScrapedBook.t) (w : World) :
  exists answer,
    outcome (insert_book book w) = Ok answer
    /\ events (insert_book book w) = [EvDb (InsertBook book)]
    /\ answer =
         match next_fault w with
         | Some e => Some e
         | None =>
             if bool_decide (ScrapedBook.isbn book ∈ EbayBook.isbn <$> ebay_books w)
             then Some unique_violation
             else None
         end.
Proof.
  unfold insert_book. rewrite run_bind, db_request_run. unfold and_then; simpl.
  destruct (next_fault w) as [e|]; simpl; [eauto|].
  destruct (bool_decide _); simpl; eauto.
Qed.

Lemma insertBooks_loop_spec (books : list ScrapedBook.t) (s d e : nat) (w : World) :
  outcome (insertBooks_loop books s d e w)
  = Ok (InsertCounts.mk
          (s + length (List.filter is_saved (insert_answers books w)))
          (d + length (List.filter is_duplicate (insert_answers books w)))
          (e + length (List.filter is_other_error (insert_answers books w))))
  /\ length (insert_answers books w) = length books
  /\ db_requests (events (insertBooks_loop books s d e w)) = InsertBook <$> books.
Proof.
  revert s d e w. induction books as [|book rest IH]; intros s d e w.
  - simpl. by rewrite !Nat.add_0_r.
  - cbn [insertBooks_loop insert_answers]. rewrite run_bind. unfold and_then.
    destruct (insert_book_run book w) as (answer & Hout & Hev & _).
    rewrite Hout, Hev. clear Hout Hev.
    destruct answer as [err|]; cbn [is_saved is_duplicate is_other_error].
    + destruct (String.eqb (Pg.code err) "23505") eqn:Hcode; cbn [negb].
      * destruct (IH s (S d) e (final (insert_book book w))) as (H1 & H2 & H3).
        cbn [outcome events List.filter is_saved is_duplicate is_other_error].
        rewrite Hcode. cbn [negb length].
        rewrite H1, H2. simpl. rewrite H3.
        repeat split; auto. do 2 f_equal. lia.
      * rewrite run_bind. unfold and_then, log, emit. cbn [outcome final events].
        destruct (IH s d (S e) (final (insert_book book w))) as (H1 & H2 & H3).
        cbn [List.filter is_saved is_duplicate is_other_error].
        rewrite Hcode. cbn [negb length].
        rewrite H1, H2. simpl. rewrite H3.
        repeat split; auto. do 2 f_equal. lia.
    + destruct (IH (S s) d e (final (insert_book book w))) as (H1 & H2 & H3).
      cbn [outcome events List.filter is_saved is_duplicate is_other_error length].
      rewrite H1, H2. simpl. rewrite H3.
      repeat split; auto. do 2 f_equal. lia.
Qed.

(** C5.  [insertBooks] issues one insert per book of its input, in order,
    whatever the store answers, and never throws.  Its counters add up to
    the length of the input: [saved] counts the inserts the store accepted,
    [duplicates] those it refused with code 23505 (as it does when the
    catalog key is already in the table), [errors] those that failed with
    any other code. *)
Theorem insertBooks_counts (books : list ScrapedBook.t) (w : World) :
  let answers := insert_answers books w in
  let run := insertBooks books w in
  length answers = length books
  /\ db_requests (events run) = InsertBook <$> books
  /\ (exists counts,
        outcome run = Ok counts
        /\ InsertCounts.saved counts = length (List.filter is_saved answers)
        /\ InsertCounts.duplicates counts = length (List.filter is_duplicate answers)
        /\ InsertCounts.errors counts = length (List.filter is_other_error answers)
        /\ (InsertCounts.saved counts + InsertCounts.duplicates counts
            + InsertCounts.errors counts = length books)%nat)
  /\ (forall book,
        next_fault w = None ->
        ScrapedBook.isbn book ∈ EbayBook.isbn <$> ebay_books w ->
        outcome (insert_book book w) = Ok (Some unique_violation)
        /\ is_duplicate (Some unique_violation) = true
        /\ is_other_error (Some unique_violation) = false).
Proof.
  intros answers run. subst answers run. unfold insertBooks.
  destruct (insertBooks_loop_spec books 0 0 0 w) as (H1 & H2 & H3).
  split; [exact H2|]. split; [exact H3|]. split.
  - eexists. split; [exact H1|]. simpl. repeat split; auto.
    rewrite <- H2. clear.
    induction (insert_answers books w) as [|[err|] l IH]; simpl;
      try destruct (String.eqb (Pg.code err) "23505"); simpl; lia.
  - intros book Hfault Hin.
    destruct (insert_book_run book w) as (answer & Hout & _ & ->).
    rewrite Hout, Hfault. rewrite bool_decide_eq_true_2 by exact Hin.
    repeat split.
Qed.

(** ** Writing an evaluation *)

Lemma copy_defined_lookup (m : gmap string JsVal) (k : string) (v : JsVal)
    (key : string) :
  copy_defined m (k, v) !! key =
    if decide (k = key)
    then match v with JUndefined => m !! key | _ => Some v end
    else m !! key.
Proof.
  unfold copy_defined; simpl.
  destruct (decide (k = key)) as [->|Hne].
  - destruct v; try apply lookup_insert_eq; reflexivity.
  - destruct v; try (by apply lookup_insert_ne); reflexivity.
Qed.

Lemma cleanEval_other_key (stamp : Timestamp) (ev : Evaluation.t) (key : string) :
  key ∉ evaluation_keys -> cleanEval_of stamp ev !! key = None.
Proof.
  unfold evaluation_keys. rewrite !not_elem_of_cons. intros H. destruct_and!.
  unfold cleanEval_of, Object_entries; cbn [foldl].
  rewrite !copy_defined_lookup.
  repeat (case_decide; [subst; congruence|]).
  apply lookup_singleton_ne. congruence.
Qed.

Lemma copy_defined_lookup_eqb (m : gmap string JsVal) (k : string) (v : JsVal)
    (key : string) :
  copy_defined m (k, v) !! key =
    if String.eqb k key
    then match v with JUndefined => m !! key | _ => Some v end
    else m !! key.
Proof.
  rewrite copy_defined_lookup.
  destruct (String.eqb_spec k key); by case_decide.
Qed.

Lemma cleanEval_sent_keys (stamp : Timestamp) (ev : Evaluation.t) :
  let body := cleanEval_of stamp ev in
  body !! "evaluated_at" = Some (JTime stamp)
  /\ body !! "decision" = Some (JString (decision_name (Evaluation.decision ev)))
  /\ body !! "asin" = JString <$> Evaluation.asin ev
  /\ body !! "amazon_price" = JNumber <$> Evaluation.amazon_price ev
  /\ body !! "sales_rank" = JNumber <$> Evaluation.sales_rank ev
  /\ body !! "sales_rank_drops_90" = JNumber <$> Evaluation.sales_rank_drops_90 ev
  /\ body !! "fba_profit" = JNumber <$> Evaluation.fba_profit ev
  /\ body !! "fbm_profit" = JNumber <$> Evaluation.fbm_profit ev
  /\ body !! "amazon_flag" = JString <$> Evaluation.amazon_flag ev
  /\ body !! "book_type" = JString <$> Evaluation.book_type ev
  /\ body !! "weight_oz" = JNumber <$> Evaluation.weight_oz ev.
Proof.
  intros body. subst body.
  repeat split;
    unfold cleanEval_of, Object_entries; cbn [foldl];
    rewrite !copy_defined_lookup_eqb;
    cbn [String.eqb Ascii.eqb Bool.eqb];
    try reflexivity;
    match goal with
    | |- context [or_undefined _ ?o] => destruct o; reflexivity
    end.
Qed.

Lemma updateBookEvaluation_run (isbn : string) (ev : Evaluation.t) (w : World) :
  updateBookEvaluation isbn ev w =
    let body := cleanEval_of (clock w) ev in
    match next_fault w with
    | Some e =>
        mkRun (Ok false) (set_faults (tail (db_faults w)) w)
          [EvDb (UpdateBook isbn body);
           EvLog ("  Update error for " +:+ isbn +:+ ": " +:+ Pg.message e)]
    | None =>
        mkRun (Ok true)
          (set_books (update_where_isbn isbn body) (set_faults (tail (db_faults w)) w))
          [EvDb (UpdateBook isbn body)]
    end.
Proof.
  unfold updateBookEvaluation. rewrite run_bind. unfold now, gets, and_then; simpl.
  rewrite run_bind, db_request_run. unfold and_then; simpl.
  destruct (next_fault w); reflexivity.
Qed.

Lemma col_decision_sent (d : EvalDecision) (old : option BookDecision) :
  col_decision (Some (JString (decision_name d))) old = Some (Decided d).
Proof. by destruct d. Qed.

Lemma col_text_null_sent (new old : option string) :
  col_text_null (JString <$> new) old = written new old.
Proof. by destruct new. Qed.

Lemma col_number_null_sent (new old : option number) :
  col_number_null (JNumber <$> new) old = written_number new old.
Proof. by destruct new as [[]|]. Qed.

Lemma not_evaluation_key (key : string) :
  bool_decide (key ∈ evaluation_keys) = false -> key ∉ evaluation_keys.
Proof. intros H Hin. by rewrite bool_decide_eq_true_2 in H. Qed.

(** The row that an accepted evaluation leaves: the columns of the defined
    fields and [evaluated_at] are rewritten, every other column is as it
    was. *)
Lemma update_row_cleanEval (stamp : Timestamp) (ev : Evaluation.t) (r : EbayBook.t) :
  update_row (cleanEval_of stamp ev) r =
    {| EbayBook.id := EbayBook.id r;
       EbayBook.isbn := EbayBook.isbn r;
       EbayBook.title := EbayBook.title r;
       EbayBook.price := EbayBook.price r;
       EbayBook.condition := EbayBook.condition r;
       EbayBook.seller := EbayBook.seller r;
       EbayBook.category := EbayBook.category r;
       EbayBook.ebay_item_id := EbayBook.ebay_item_id r;
       EbayBook.ebay_url := EbayBook.ebay_url r;
       EbayBook.image_url := EbayBook.image_url r;
       EbayBook.shipping := EbayBook.shipping r;
       EbayBook.scraped_at := EbayBook.scraped_at r;
       EbayBook.decision := Some (Decided (Evaluation.decision ev));
       EbayBook.asin := written (Evaluation.asin ev) (EbayBook.asin r);
       EbayBook.amazon_price :=
         written_number (Evaluation.amazon_price ev) (EbayBook.amazon_price r);
       EbayBook.sales_rank :=
         written_number (Evaluation.sales_rank ev) (EbayBook.sales_rank r);
       EbayBook.sales_rank_drops_90 :=
         written_number (Evaluation.sales_rank_drops_90 ev)
           (EbayBook.sales_rank_drops_90 r);
       EbayBook.fba_profit :=
         written_number (Evaluation.fba_profit ev) (EbayBook.fba_profit r);
       EbayBook.fbm_profit :=
         written_number (Evaluation.fbm_profit ev) (EbayBook.fbm_profit r);
       EbayBook.amazon_flag := written (Evaluation.amazon_flag ev) (EbayBook.amazon_flag r);
       EbayBook.book_type := written (Evaluation.book_type ev) (EbayBook.book_type r);
       EbayBook.weight_oz :=
         written_number (Evaluation.weight_oz ev) (EbayBook.weight_oz r);
       EbayBook.evaluated_at := Some stamp;
       EbayBook.bought_at := EbayBook.bought_at r |}.
Proof.
  unfold update_row.
  destruct (cleanEval_sent_keys stamp ev)
    as (-> & -> & -> & -> & -> & -> & -> & -> & -> & -> & ->).
  rewrite !cleanEval_other_key by (by apply not_evaluation_key).
  rewrite col_decision_sent, !col_text_null_sent, !col_number_null_sent.
  reflexivity.
Qed.

(** C4.  For every catalog key and every evaluation, [updateBookEvaluation]
    sends one update whose body holds exactly the defined fields of the
    evaluation and [evaluated_at], stamped with the current time.  When the
    store accepts it, the call returns true, and in every row of that catalog
    key the columns of the defined fields and [evaluated_at] hold what was
    sent while every other column, and every other row, is as it was: a field
    the evaluation leaves out is not overwritten.  When the store refuses it,
    the call returns false and the table is as it was. *)
Theorem updateBookEvaluation_writes_defined_fields
    (isbn : string) (ev : Evaluation.t) (w : World) :
  let stamp := clock w in
  let body := cleanEval_of stamp ev in
  let run := updateBookEvaluation isbn ev w in
  db_requests (events run) = [UpdateBook isbn body]
  /\ (body !! "evaluated_at" = Some (JTime stamp)
      /\ body !! "decision" = Some (JString (decision_name (Evaluation.decision ev)))
      /\ body !! "asin" = JString <$> Evaluation.asin ev
      /\ body !! "amazon_price" = JNumber <$> Evaluation.amazon_price ev
      /\ body !! "sales_rank" = JNumber <$> Evaluation.sales_rank ev
      /\ body !! "sales_rank_drops_90" = JNumber <$> Evaluation.sales_rank_drops_90 ev
      /\ body !! "fba_profit" = JNumber <$> Evaluation.fba_profit ev
      /\ body !! "fbm_profit" = JNumber <$> Evaluation.fbm_profit ev
      /\ body !! "amazon_flag" = JString <$> Evaluation.amazon_flag ev
      /\ body !! "book_type" = JString <$> Evaluation.book_type ev
      /\ body !! "weight_oz" = JNumber <$> Evaluation.weight_oz ev)
  /\ (forall key, key ∉ evaluation_keys -> body !! key = None)
  /\ (next_fault w = None ->
        outcome run = Ok true
        /\ ebay_books (final run) =
             (fun r => if String.eqb (EbayBook.isbn r) isbn then update_row body r else r)
               <$> ebay_books w)
  /\ (forall e, next_fault w = Some e ->
        outcome run = Ok false /\ ebay_books (final run) = ebay_books w)
  /\ (forall r,
        update_row body r =
          {| EbayBook.id := EbayBook.id r;
             EbayBook.isbn := EbayBook.isbn r;
             EbayBook.title := EbayBook.title r;
             EbayBook.price := EbayBook.price r;
             EbayBook.condition := EbayBook.condition r;
             EbayBook.seller := EbayBook.seller r;
             EbayBook.category := EbayBook.category r;
             EbayBook.ebay_item_id := EbayBook.ebay_item_id r;
             EbayBook.ebay_url := EbayBook.ebay_url r;
             EbayBook.image_url := EbayBook.image_url r;
             EbayBook.shipping := EbayBook.shipping r;
             EbayBook.scraped_at := EbayBook.scraped_at r;
             EbayBook.decision := Some (Decided (Evaluation.decision ev));
             EbayBook.asin := written (Evaluation.asin ev) (EbayBook.asin r);
             EbayBook.amazon_price :=
               written_number (Evaluation.amazon_price ev) (EbayBook.amazon_price r);
             EbayBook.sales_rank :=
               written_number (Evaluation.sales_rank ev) (EbayBook.sales_rank r);
             EbayBook.sales_rank_drops_90 :=
               written_number (Evaluation.sales_rank_drops_90 ev)
                 (EbayBook.sales_rank_drops_90 r);
             EbayBook.fba_profit :=
               written_number (Evaluation.fba_profit ev) (EbayBook.fba_profit r);
             EbayBook.fbm_profit :=
               written_number (Evaluation.fbm_profit ev) (EbayBook.fbm_profit r);
             EbayBook.amazon_flag :=
               written (Evaluation.amazon_flag ev) (EbayBook.amazon_flag r);
             EbayBook.book_type := written (Evaluation.book_type ev) (EbayBook.book_type r);
             EbayBook.weight_oz :=
               written_number (Evaluation.weight_oz ev) (EbayBook.weight_oz r);
             EbayBook.evaluated_at := Some stamp;
             EbayBook.bought_at := EbayBook.bought_at r |}).
Proof.
  intros stamp body run. subst stamp body run.
  rewrite updateBookEvaluation_run. cbn zeta.
  split; [by destruct (next_fault w)|].
  split; [apply cleanEval_sent_keys|].
  split; [apply cleanEval_other_key|].
  split; [by intros ->|].
  split; [by intros e ->|].
  apply update_row_cleanEval.
Qed.

(** ** Listing the pending books *)

Lemma pageSize_pos : (0 < pageSize)%nat.
Proof. unfold pageSize. lia. Qed.

Lemma range_page {A : Type} (from : nat) (rows : list A) :
  range from (from + pageSize - 1) rows = take pageSize (drop from rows).
Proof.
  unfold range. f_equal. pose proof pageSize_pos. lia.
Qed.

Lemma store_reliable_next (w : World) : store_reliable w -> next_fault w = None.
Proof.
  unfold store_reliable, next_fault. destruct (db_faults w) as [|f fs]; [done|].
  by inversion 1.
Qed.

Lemma store_reliable_tail (w : World) :
  store_reliable w -> store_reliable (set_faults (tail (db_faults w)) w).
Proof.
  unfold store_reliable. simpl. destruct (db_faults w) as [|f fs]; [done|].
  by inversion 1.
Qed.

Lemma pending_page_requests_S (seller : option string) (from pages : nat) :
  pending_page_requests seller from (S pages) =
    SelectPending seller from (from + pageSize - 1)
      :: pending_page_requests seller (from + pageSize) pages.
Proof.
  unfold pending_page_requests. cbn [seq fmap list_fmap].
  rewrite Nat.mul_0_l, Nat.add_0_r. f_equal.
  rewrite <- seq_shift, <- list_fmap_compose.
  apply list_fmap_ext. intros _ i _. unfold compose.
  generalize pageSize. intros p. f_equal; lia.
Qed.

Lemma getPendingBooks_loop_spec (seller : option string) (fuel from : nat)
    (acc : list EbayBook.t) (w : World) :
  let all := pending_rows seller (ebay_books w) in
  (from <= length all)%nat ->
  acc = take from all ->
  (length all - from < fuel * pageSize)%nat ->
  exists n pages,
    outcome (getPendingBooks_loop seller fuel from acc w) = Ok (take n all)
    /\ (store_reliable w -> (length all <= n)%nat)
    /\ ebay_books (final (getPendingBooks_loop seller fuel from acc w)) = ebay_books w
    /\ (store_reliable w ->
        store_reliable (final (getPendingBooks_loop seller fuel from acc w)))
    /\ db_requests (events (getPendingBooks_loop seller fuel from acc w))
       = pending_page_requests seller from pages.
Proof.
  revert from acc w. induction fuel as [|fuel IH]; intros from acc w all Hfrom Hacc Hfuel.
  { lia. }
  cbn [getPendingBooks_loop]. rewrite run_bind, db_request_run.
  unfold and_then. cbn [outcome final events].
  destruct (next_fault w) as [e|] eqn:Hfault.
  - (* the read fails: the pages read so far are returned *)
    exists from, 1%nat. rewrite Hacc.
    rewrite pending_page_requests_S.
    repeat split; auto;
      intros Hrel; apply store_reliable_next in Hrel; congruence.
  - rewrite run_bind. unfold gets, and_then. cbn [outcome final events ebay_books set_faults].
    fold all. rewrite range_page.
    set (data := take pageSize (drop from all)).
    assert (Hlen : length data = Nat.min pageSize (length all - from)).
    { subst data. by rewrite length_take, length_drop. }
    pose proof pageSize_pos as Hpos.
    destruct (Nat.eqb_spec (length data) 0) as [H0|H0].
    + exists from, 1%nat. rewrite Hacc, pending_page_requests_S.
      repeat split; auto; try lia.
      intros Hrel. by apply store_reliable_tail.
    + destruct (Nat.ltb_spec (length data) pageSize) as [Hshort|Hfull].
      * exists (length all), 1%nat. rewrite pending_page_requests_S.
        rewrite firstn_all.
        assert (data = drop from all) as ->.
        { subst data. apply take_ge. rewrite length_drop. lia. }
        rewrite Hacc, take_drop.
        repeat split; auto.
        intros Hrel. by apply store_reliable_tail.
      * destruct (IH (from + pageSize)%nat (acc ++ data)
                    (set_faults (tail (db_faults w)) w)) as (n & pages & H1 & H2 & H3 & H4 & H5).
        { cbn [ebay_books set_faults]. fold all. lia. }
        { cbn [ebay_books set_faults]. fold all. subst acc data.
          by rewrite take_take_drop. }
        { cbn [ebay_books set_faults]. fold all.
          cbn [Nat.mul] in Hfuel. lia. }
        cbn [ebay_books set_faults] in H1, H2, H3. fold all in H1, H2.
        exists n, (S pages). rewrite pending_page_requests_S.
        rewrite H1. cbn [events app db_requests omap list_omap].
        repeat split; auto.
        -- intros Hrel. apply H2. by apply store_reliable_tail.
        -- intros Hrel. apply H4. by apply store_reliable_tail.
        -- unfold db_requests in H5. by rewrite H5.
Qed.

#[local] Instance scraped_le_transitive : Transitive scraped_le.
Proof. intros a b c. unfold scraped_le. lia. Qed.

#[local] Instance scraped_le_total : Total scraped_le.
Proof. intros a b. unfold scraped_le. lia. Qed.

Lemma is_pending_spec (seller : option string) (b : EbayBook.t) :
  is_pending seller b = true <->
    EbayBook.decision b = None
    /\ match seller with
       | Some s => s = "" \/ EbayBook.seller b = s
       | None => True
       end.
Proof.
  unfold is_pending, truthy. rewrite andb_true_iff, bool_decide_eq_true.
  apply and_iff_compat_l.
  destruct seller as [s|]; [|done].
  destruct (String.eqb_spec s ""); simpl.
  - split; auto.
  - rewrite String.eqb_eq. split; [auto | by intros [|]].
Qed.

Lemma getPendingBooks_spec (seller : option string) (w : World) :
  exists n pages,
    outcome (getPendingBooks seller w) = Ok (take n (pending_rows seller (ebay_books w)))
    /\ (store_reliable w -> (length (pending_rows seller (ebay_books w)) <= n)%nat)
    /\ ebay_books (final (getPendingBooks seller w)) = ebay_books w
    /\ (store_reliable w -> store_reliable (final (getPendingBooks seller w)))
    /\ db_requests (events (getPendingBooks seller w))
       = pending_page_requests seller 0 pages.
Proof.
  unfold getPendingBooks. rewrite run_bind. unfold gets, and_then.
  cbn [outcome final events app].
  destruct (getPendingBooks_loop_spec seller (S (length (ebay_books w))) 0 [] w)
    as (n & pages & H1 & H2 & H3 & H4 & H5).
  - lia.
  - by rewrite take_0.
  - unfold pending_rows. rewrite merge_sort_Permutation.
    pose proof (filter_length (is_pending seller) (ebay_books w)).
    pose proof pageSize_pos. nia.
  - exists n, pages. by rewrite H1, H3, H5.
Qed.




(** ** The guard of the integer columns *)

Lemma written_number_safeInt (source old : option number) :
  written_number (safeInt source) old = written (safeInt source) old.
Proof.
  destruct (safeInt source) as [rounded|] eqn:Hs; [|done].
  by destruct (safeInt_some _ _ Hs) as (q & _ & -> & _).
Qed.

(** C2.  [safeInt] returns no value exactly when its argument is null or
    undefined, is not finite, or rounds above 2,000,000,000 or below
    -2,000,000,000; in every other case it returns the rounded argument
    itself.  Each of the five financial and rank fields of the object built
    for the store is [safeInt] of its source, the rank as the engine gives it
    and the cents as [Math.round] gives them: when [safeInt] returns the
    rounded value, that value is what the update sends under the key of the
    field and what the column holds after it; when [safeInt] returns
    nothing, the update has no such key and the column keeps what it held.
    Nothing is clamped, wrapped or truncated into the row. *)
Theorem safeInt_omits_or_rounds (v : option number) :
  (safeInt v = None <->
     v = None
     \/ (exists x, v = Some x /\ Js.Number_isFinite x = false)
     \/ (exists q, v = Some (Js.Fin q)
           /\ (2000000000 < Js.round_half_up q \/ Js.round_half_up q < -2000000000)))
  /\ (forall r, safeInt v = Some r ->
        exists q, v = Some (Js.Fin q)
          /\ r = Js.Math_round (Js.Fin q)
          /\ r = Js.num (Js.round_half_up q)
          /\ -2000000000 <= Js.round_half_up q <= 2000000000)
  /\ (forall (fl : Q -> number) (result : KeepaEval.t),
        let e := evaluation_of fl result in
        Forall (fun field : option number =>
                  field = None
                  \/ exists n, field = Some (Js.num n) /\ -2000000000 <= n <= 2000000000)
          [ Evaluation.amazon_price e; Evaluation.sales_rank e;
            Evaluation.sales_rank_drops_90 e; Evaluation.fba_profit e;
            Evaluation.fbm_profit e ])
  /\ (forall (fl : Q -> number) (result : KeepaEval.t) (stamp : Timestamp)
             (r : EbayBook.t),
        let e := evaluation_of fl result in
        let body := cleanEval_of stamp e in
        let row := update_row body r in
        Forall (fun entry : option number * option number * string
                            * option number * option number =>
                  let '(source, field, key, old, new) := entry in
                  field = safeInt source
                  /\ match safeInt source with
                     | Some rounded =>
                         body !! key = Some (JNumber rounded) /\ new = Some rounded
                     | None => body !! key = None /\ new = old
                     end)
          [ (cents fl (KeepaEval.amazonPrice result), Evaluation.amazon_price e,
             "amazon_price", EbayBook.amazon_price r, EbayBook.amazon_price row);
            (KeepaEval.salesRank result, Evaluation.sales_rank e,
             "sales_rank", EbayBook.sales_rank r, EbayBook.sales_rank row);
            (KeepaEval.salesRankDrops90 result, Evaluation.sales_rank_drops_90 e,
             "sales_rank_drops_90", EbayBook.sales_rank_drops_90 r,
             EbayBook.sales_rank_drops_90 row);
            (cents fl (KeepaEval.fbaProfit result), Evaluation.fba_profit e,
             "fba_profit", EbayBook.fba_profit r, EbayBook.fba_profit row);
            (cents fl (KeepaEval.fbmProfit result), Evaluation.fbm_profit e,
             "fbm_profit", EbayBook.fbm_profit r, EbayBook.fbm_profit row) ]).
Proof.
  split; [|split; [|split]].
  - split.
    + destruct v as [[| s | q]|]; intros H.
      * right; left. by exists Js.NaN.
      * right; left. by exists (Js.Inf s).
      * right; right. exists q. split; [done|].
        rewrite safeInt_finite in H.
        destruct (Z.ltb_spec 2000000000 (Js.round_half_up q));
          destruct (Z.ltb_spec (Js.round_half_up q) (-2000000000));
          simpl in H; try discriminate; auto.
      * by left.
    + intros [-> | [(x & -> & Hx) | (q & -> & Hq)]].
      * done.
      * unfold safeInt. by rewrite Hx.
      * rewrite safeInt_finite.
        destruct Hq as [Hq | Hq].
        -- apply Z.ltb_lt in Hq. by rewrite Hq.
        -- apply Z.ltb_lt in Hq. rewrite Hq. by rewrite orb_true_r.
  - intros r Hr. destruct (safeInt_some v r Hr) as (q & -> & -> & Hb).
    exists q. repeat split; auto; lia.
  - intros fl result e.
    assert (Hfield : forall src, safeInt src = None
              \/ exists n, safeInt src = Some (Js.num n) /\ -2000000000 <= n <= 2000000000).
    { intros src. destruct (safeInt src) as [r|] eqn:Hs; [right | by left].
      destruct (safeInt_some src r Hs) as (q & _ & -> & Hb). eauto. }
    subst e. unfold evaluation_of; simpl.
    repeat (constructor; [apply Hfield|]). constructor.
  - intros fl result stamp r e body row.
    assert (Hrow : row = update_row (cleanEval_of stamp e) r) by done.
    rewrite update_row_cleanEval in Hrow.
    destruct (cleanEval_sent_keys stamp e) as (_ & _ & _ & H1 & H2 & H3 & H4 & H5 & _).
    fold body in H1, H2, H3, H4, H5.
    assert (Hentry : forall source field key old new,
              field = safeInt source ->
              body !! key = JNumber <$> field ->
              new = written_number field old ->
              field = safeInt source
              /\ match safeInt source with
                 | Some rounded =>
                     body !! key = Some (JNumber rounded) /\ new = Some rounded
                 | None => body !! key = None /\ new = old
                 end).
    { intros source field key old new -> -> ->. split; [done|].
      rewrite written_number_safeInt. by destruct (safeInt source). }
    repeat (constructor; [apply Hentry; [reflexivity|done|by rewrite Hrow]|]).
    constructor.
Qed.

Lemma safeInt_omits_or_rounds_witness :
  safeInt (Some (Js.Fin (5 # 2))) = Some (Js.num 3)
  /\ safeInt (Some (Js.Fin (4000000001 # 2))) = None
  /\ (exists q, Some (Js.Fin (5 # 2)) = Some (Js.Fin q)
        /\ Js.num 3 = Js.Math_round (Js.Fin q)
        /\ Js.num 3 = Js.num (Js.round_half_up q)
        /\ -2000000000 <= Js.round_half_up q <= 2000000000)
  /\ cleanEval_of 1000
       (evaluation_of Js.binary64 (oversized_engine tt (Js.num 13))) !! "sales_rank"
     = None
  /\ EbayBook.sales_rank
       (update_row
          (cleanEval_of 1000
             (evaluation_of Js.binary64 (oversized_engine tt (Js.num 13))))
          (evaluated_book "9780000000002"))
     = Some (Js.num 777).
Proof.
  split; [reflexivity|]. split; [|split].
  - apply (proj1 (safeInt_omits_or_rounds _)). right; right.
    exists (4000000001 # 2). split; [reflexivity|]. left. vm_compute. reflexivity.
  - apply (proj1 (proj2 (safeInt_omits_or_rounds (Some (Js.Fin (5 # 2)))))).
    reflexivity.
  - pose proof (proj2 (proj2 (proj2 (safeInt_omits_or_rounds None)))
                  Js.binary64 (oversized_engine tt (Js.num 13)) 1000%N
                  (evaluated_book "9780000000002")) as Hfields.
    cbn zeta in Hfields.
    apply Forall_cons in Hfields as [_ Hfields].
    apply Forall_cons in Hfields as [[_ Hrank] _].
    exact Hrank.
Defined.

(** ** The evaluation loop *)

Lemma lookup_after_acquire (books : list EbayBook.t) (i : nat) (isbn : string) :
  flat_map (fun book => [Acquire; Lookup (EbayBook.isbn book)]) books !! i
    = Some (Lookup isbn) ->
  exists j, i = S j
    /\ flat_map (fun book => [Acquire; Lookup (EbayBook.isbn book)]) books !! j
       = Some Acquire.
Proof.
  revert i. induction books as [|book rest IH]; intros i; [done|].
  cbn [flat_map app]. destruct i as [|[|i]]; cbn [lookup list_lookup].
  - done.
  - intros _. by exists 0%nat.
  - intros H. destruct (IH i H) as (j & -> & Hj). by exists (S (S j)).
Qed.

Section EvaluateProperties.

Variable fl : Q -> number.
Variable KeepaProduct : Type.
Variable keepa : string -> KeepaReply KeepaProduct.
Variable evaluateBook : KeepaProduct -> number -> KeepaEval.t.
Variable KEEPA_DELAY_MS : N.

Local Abbreviation run_book :=
  (evaluate_book fl KeepaProduct keepa evaluateBook KEEPA_DELAY_MS).
Local Abbreviation run_loop :=
  (evaluate_loop fl KeepaProduct keepa evaluateBook KEEPA_DELAY_MS).
Local Abbreviation run_pending :=
  (evaluatePendingBooks fl KeepaProduct keepa evaluateBook KEEPA_DELAY_MS).

Lemma evaluate_book_run (total : nat) (book : EbayBook.t) (c : EvalCounts.t)
    (w : World) :
  run_book total book c w =
    match keepa (EbayBook.isbn book) with
    | KeepaThrows e =>
        mkRun (Thrown e) w
          [EvWaitForKeepaTokens; EvGetProductByIsbn (EbayBook.isbn book)]
    | KeepaNoData =>
        turn KEEPA_DELAY_MS total book (count_evaluated (count_noData c))
          no_data_evaluation " — no Keepa data → REJECT" w
    | KeepaFound raw =>
        let result := evaluateBook raw (buyPriceDollars fl book) in
        turn KEEPA_DELAY_MS total book
          (count_evaluated (count_decision (KeepaEval.decision result) c))
          (evaluation_of fl result)
          (" → " +:+ decision_name (KeepaEval.decision result)
             +:+ " (" +:+ KeepaEval.reason result +:+ ")") w
    end.
Proof.
  unfold evaluate_book, turn, getProductByIsbn, waitForKeepaTokens,
    updateBookEvaluation, db_request.
  destruct w as [books cps fs clk tn ts].
  destruct (keepa (EbayBook.isbn book)) as [e| |raw];
    [reflexivity| |]; destruct fs as [|[e|] fs]; reflexivity.
Qed.

Local Abbreviation tally_of := (tally fl KeepaProduct keepa evaluateBook).
Local Abbreviation verdict_of := (verdict fl KeepaProduct keepa evaluateBook).

Lemma tally_cons (v : option EvalDecision) (book : EbayBook.t)
    (rest : list EbayBook.t) :
  tally_of v (book :: rest) =
    if bool_decide (verdict_of book = Some v)
    then S (tally_of v rest)
    else tally_of v rest.
Proof. unfold tally. cbn [List.filter]. by destruct (bool_decide _). Qed.

Lemma updateBookEvaluation_events (isbn : string) (ev : Evaluation.t) (w : World) :
  outcome (updateBookEvaluation isbn ev w) = Ok (bool_decide (next_fault w = None))
  /\ keepa_calls (events (updateBookEvaluation isbn ev w)) = []
  /\ db_requests (events (updateBookEvaluation isbn ev w))
     = [UpdateBook isbn (cleanEval_of (clock w) ev)].
Proof.
  rewrite updateBookEvaluation_run. cbn zeta. by destruct (next_fault w).
Qed.

Lemma turn_events (total : nat) (book : EbayBook.t) (c : EvalCounts.t)
    (ev : Evaluation.t) (line : string) (w : World) :
  keepa_calls (events (turn KEEPA_DELAY_MS total book c ev line w))
  = [Acquire; Lookup (EbayBook.isbn book)]
  /\ db_requests (events (turn KEEPA_DELAY_MS total book c ev line w))
     = [UpdateBook (EbayBook.isbn book) (cleanEval_of (clock w) ev)].
Proof.
  destruct (updateBookEvaluation_events (EbayBook.isbn book) ev w) as (_ & Hk & Hd).
  unfold turn, keepa_calls, db_requests in *. cbn [events].
  rewrite !omap_app, Hk, Hd. split; reflexivity.
Qed.

Lemma is_reject_update_sent (isbn : string) (stamp : Timestamp) (ev : Evaluation.t) :
  is_reject_update (UpdateBook isbn (cleanEval_of stamp ev))
  = bool_decide (Evaluation.decision ev = REJECT).
Proof.
  unfold is_reject_update.
  destruct (cleanEval_sent_keys stamp ev) as (_ & -> & _).
  by destruct (Evaluation.decision ev).
Qed.

Lemma evaluate_loop_spec (total : nat) (pending : list EbayBook.t)
    (c : EvalCounts.t) (w : World) :
  exists n,
    (n <= length pending)%nat
    /\ keepa_calls (events (run_loop total pending c w))
       = flat_map (fun book => [Acquire; Lookup (EbayBook.isbn book)]) (take n pending)
    /\ forall c',
         outcome (run_loop total pending c w) = Ok c' ->
         n = length pending
         /\ EvalCounts.evaluated c' = (EvalCounts.evaluated c + length pending)%nat
         /\ EvalCounts.buy c' = (EvalCounts.buy c + tally_of (Some BUY) pending)%nat
         /\ EvalCounts.review c' = (EvalCounts.review c + tally_of (Some REVIEW) pending)%nat
         /\ EvalCounts.reject c' = (EvalCounts.reject c + tally_of (Some REJECT) pending)%nat
         /\ EvalCounts.noData c' = (EvalCounts.noData c + tally_of None pending)%nat
         /\ length (List.filter is_reject_update
                      (db_requests (events (run_loop total pending c w))))
            = (tally_of (Some REJECT) pending + tally_of None pending)%nat
         /\ (EvalCounts.evaluated c' + EvalCounts.buy c + EvalCounts.review c
             + EvalCounts.reject c + EvalCounts.noData c
             = EvalCounts.evaluated c + EvalCounts.buy c' + EvalCounts.review c'
               + EvalCounts.reject c' + EvalCounts.noData c')%nat.
Proof.
  revert c w. induction pending as [|book rest IH]; intros c w.
  { exists 0%nat. split; [cbn; lia|]. split; [done|].
    intros c' [= <-]. cbn. repeat split; lia. }
  cbn [evaluate_loop]. rewrite run_bind, evaluate_book_run.
  rewrite !tally_cons. unfold verdict.
  destruct (keepa (EbayBook.isbn book)) as [e| |raw] eqn:Hkeepa.
  - exists 1%nat. cbn [and_then outcome events length take flat_map app].
    unfold and_then; cbn. split; [lia|]. split; [done|]. intros c' [=].
  - set (c1 := count_evaluated (count_noData c)).
    destruct (turn_events total book c1 no_data_evaluation
                " — no Keepa data → REJECT" w) as (Hk & Hd).
    set (first := turn KEEPA_DELAY_MS total book c1 no_data_evaluation
                    " — no Keepa data → REJECT" w) in *.
    destruct (IH c1 (final first)) as (n & Hn & Hcalls & Hok).
    exists (S n). rewrite (and_then_ok first _ c1) by reflexivity.
    cbn [outcome events]. split; [cbn; lia|]. split.
    + unfold keepa_calls in *. rewrite omap_app, Hk, Hcalls. reflexivity.
    + intros c' Hc'. destruct (Hok c' Hc') as (-> & H1 & H2 & H3 & H4 & H5 & H6 & H7).
      unfold db_requests in *. rewrite omap_app, Hd, List.filter_app, length_app, H6.
      cbn [List.filter]. rewrite is_reject_update_sent.
      subst c1. unfold count_evaluated, count_noData in *.
      cbn [EvalCounts.evaluated EvalCounts.buy EvalCounts.review
           EvalCounts.reject EvalCounts.noData no_data_evaluation
           Evaluation.decision] in *.
      repeat (case_bool_decide; try congruence).
      cbn [length app]. repeat split; lia.
  - set (result := evaluateBook raw (buyPriceDollars fl book)).
    set (c1 := count_evaluated (count_decision (KeepaEval.decision result) c)).
    set (line := " → " +:+ decision_name (KeepaEval.decision result)
                   +:+ " (" +:+ KeepaEval.reason result +:+ ")").
    cbn zeta. fold result. fold c1. fold line.
    destruct (turn_events total book c1 (evaluation_of fl result) line w) as (Hk & Hd).
    set (first := turn KEEPA_DELAY_MS total book c1 (evaluation_of fl result) line w) in *.
    destruct (IH c1 (final first)) as (n & Hn & Hcalls & Hok).
    exists (S n). rewrite (and_then_ok first _ c1) by reflexivity.
    cbn [outcome events]. split; [cbn; lia|]. split.
    + unfold keepa_calls in *. rewrite omap_app, Hk, Hcalls. reflexivity.
    + intros c' Hc'. destruct (Hok c' Hc') as (-> & H1 & H2 & H3 & H4 & H5 & H6 & H7).
      unfold db_requests in *. rewrite omap_app, Hd, List.filter_app, length_app, H6.
      cbn [List.filter]. rewrite is_reject_update_sent.
      subst c1. unfold count_evaluated, count_decision in *.
      cbn [evaluation_of Evaluation.decision].
      destruct (KeepaEval.decision result);
        cbn [EvalCounts.evaluated EvalCounts.buy EvalCounts.review
             EvalCounts.reject EvalCounts.noData] in *;
        repeat (case_bool_decide; try congruence);
        cbn [length app]; repeat split; lia.
Qed.

Lemma getPendingBooks_loop_no_keepa_call (seller : option string) (fuel from : nat)
    (acc : list EbayBook.t) (w : World) :
  keepa_calls (events (getPendingBooks_loop seller fuel from acc w)) = [].
Proof.
  revert from acc w. induction fuel as [|fuel IH]; intros from acc w; [done|].
  cbn [getPendingBooks_loop]. rewrite run_bind, db_request_run.
  unfold and_then. cbn [outcome final events].
  destruct (next_fault w) as [e|]; [done|].
  rewrite run_bind. unfold gets, and_then. cbn [outcome final events app].
  destruct (Nat.eqb _ 0); [done|].
  destruct (Nat.ltb _ pageSize); [done|].
  unfold keepa_calls in *. cbn [omap list_omap]. apply IH.
Qed.

(** [evaluatePendingBooks] is the listing, the announcement, one
    acquisition when there is something to evaluate, and the loop. *)
Lemma evaluatePendingBooks_run (seller : option string) (w : World) :
  exists pending,
    outcome (getPendingBooks seller w) = Ok pending
    /\ keepa_calls (events (getPendingBooks seller w)) = []
    /\ let loop := run_loop (length pending) pending (EvalCounts.mk 0 0 0 0 0)
                     (final (getPendingBooks seller w)) in
       outcome (run_pending seller w) = outcome loop
       /\ final (run_pending seller w) = final loop
       /\ events (run_pending seller w)
          = events (getPendingBooks seller w)
              ++ [EvLog (newline +:+ "Evaluating " +:+ pretty (length pending)
                           +:+ " pending books...")]
              ++ (if Nat.ltb 0 (length pending) then [EvWaitForKeepaTokens] else [])
              ++ events loop.
Proof.
  destruct (getPendingBooks_spec seller w) as (n & pages & Hout & _).
  eexists. split; [exact Hout|]. split.
  { unfold getPendingBooks. rewrite run_bind. unfold gets, and_then.
    cbn [outcome final events app]. apply getPendingBooks_loop_no_keepa_call. }
  cbn zeta. unfold evaluatePendingBooks. rewrite run_bind.
  rewrite (and_then_ok _ _ _ Hout). cbn [outcome final events].
  set (pending := take n _). set (w1 := final (getPendingBooks seller w)).
  rewrite run_bind. unfold log at 1, emit at 1. unfold and_then at 1.
  cbn [outcome final events]. rewrite run_bind.
  destruct (Nat.ltb 0 (length pending));
    unfold waitForKeepaTokens, emit, and_then; cbn [mret M_ret outcome final events app];
    repeat split; reflexivity.
Qed.

(** C8.  In every run of [evaluatePendingBooks] the calls to the valuation
    service are one acquisition when there is something to evaluate, then,
    for each book in turn, an acquisition followed by the lookup of that
    book.  Every lookup, the first included, comes right after an
    acquisition. *)
Theorem acquisition_before_every_lookup (seller : option string) (w : World) :
  let calls := keepa_calls (events (run_pending seller w)) in
  (forall i isbn,
      calls !! i = Some (Lookup isbn) ->
      exists j, i = S j /\ calls !! j = Some Acquire)
  /\ exists pending n,
       outcome (getPendingBooks seller w) = Ok pending
       /\ (n <= length pending)%nat
       /\ calls
          = (if Nat.ltb 0 (length pending) then [Acquire] else [])
              ++ flat_map (fun book => [Acquire; Lookup (EbayBook.isbn book)])
                   (take n pending)
       /\ (forall counts, outcome (run_pending seller w) = Ok counts ->
             n = length pending).
Proof.
  intros calls.
  destruct (evaluatePendingBooks_run seller w)
    as (pending & Hpending & Hquiet & Hout & _ & Hevents).
  destruct (evaluate_loop_spec (length pending) pending (EvalCounts.mk 0 0 0 0 0)
              (final (getPendingBooks seller w))) as (n & Hn & Hcalls & Hok).
  assert (Hshape : calls
            = (if Nat.ltb 0 (length pending) then [Acquire] else [])
                ++ flat_map (fun book => [Acquire; Lookup (EbayBook.isbn book)])
                     (take n pending)).
  { subst calls. rewrite Hevents. unfold keepa_calls in *.
    rewrite !omap_app, Hquiet, Hcalls. by destruct (Nat.ltb 0 (length pending)). }
  split.
  - rewrite Hshape. intros i isbn.
    destruct (Nat.ltb 0 (length pending)); cbn [app].
    + destruct i as [|i]; cbn [lookup list_lookup]; [done|].
      intros H. destruct (lookup_after_acquire _ _ _ H) as (j & -> & Hj).
      by exists (S j).
    + apply lookup_after_acquire.
  - exists pending, n. split; [done|]. split; [done|]. split; [done|].
    intros counts Hcounts. rewrite Hout in Hcounts.
    by destruct (Hok counts Hcounts) as (-> & _).
Qed.


Lemma safeInt_cents (dollars : option number) (v : number) :
  safeInt (cents fl dollars) = Some v ->
  exists d q,
    dollars = Some d
    /\ Js.mul fl d (Js.num 100) = Js.Fin q
    /\ v = Js.Math_round (Js.mul fl d (Js.num 100))
    /\ v = Js.num (Js.round_half_up q)
    /\ -2000000000 <= Js.round_half_up q <= 2000000000.
Proof.
  intros H. destruct (safeInt_some _ _ H) as (q' & Hcents & -> & Hb).
  destruct dollars as [d|]; [|done]. cbn [cents] in Hcents.
  injection Hcents as Hcents.
  destruct (Js.mul fl d (Js.num 100)) as [| s | q] eqn:Hmul; try done.
  cbn [Js.Math_round] in Hcents. unfold Js.num in Hcents.
  injection Hcents as <-.
  rewrite round_half_up_integer in *.
  exists d, q. rewrite Hmul. repeat split; auto; lia.
Qed.

Lemma div_by_ten (n : Z) :
  Js.div fl (Js.num n) (Js.num 10) = fl (inject_Z n / inject_Z 10).
Proof. reflexivity. Qed.

(** What [safeInt] makes of the cents of a dollar value: the field, the key
    of the update and the column after it. *)
Lemma cents_field (dollars : option number) (field : option number) (key : string)
    (sent : option JsVal) (old new : option number) :
  field = safeInt (cents fl dollars) ->
  sent = JNumber <$> field ->
  new = written_number field old ->
  match dollars with
  | None => field = None /\ sent = None /\ new = old
  | Some d =>
      field = safeInt (Some (Js.Math_round (Js.mul fl d (Js.num 100))))
      /\ forall q, Js.mul fl d (Js.num 100) = Js.Fin q ->
           -2000000000 <= Js.round_half_up q <= 2000000000 ->
           field = Some (Js.num (Js.round_half_up q))
           /\ sent = Some (JNumber (Js.num (Js.round_half_up q)))
           /\ new = Some (Js.num (Js.round_half_up q))
           /\ (inject_Z (Js.round_half_up q) - (1 # 2) <= q)%Q
           /\ (q < inject_Z (Js.round_half_up q) + (1 # 2))%Q
  end.
Proof.
  intros -> -> ->. destruct dollars as [d|]; [|done].
  cbn [cents]. split; [done|]. intros q -> Hbound.
  assert (Hs : safeInt (Some (Js.Math_round (Js.Fin q)))
               = Some (Js.num (Js.round_half_up q))).
  { cbn [Js.Math_round]. unfold Js.num. rewrite safeInt_finite, round_half_up_integer.
    destruct (Z.ltb_spec 2000000000 (Js.round_half_up q)); [lia|].
    by destruct (Z.ltb_spec (Js.round_half_up q) (-2000000000)); [lia|]. }
  rewrite Hs. repeat split; try done; apply round_half_up_nearest.
Qed.

(** C7.  A found book is evaluated at the buy price (price + shipping) / 100,
    in the arithmetic of the program: the quotient by 100 of the sum of the
    two stored values, each operation rounded to a double.  The result of
    the engine is sent converted.  A money field of the engine that is null
    or undefined leaves its key out of the update and its column as it is; a
    dollar value is multiplied by 100 and rounded by [Math.round], and when
    that product is finite and its rounding is within the bound of
    [safeInt], the field, the key of the update and the column after it hold
    this rounding, the integer nearest to the product.  The weight sent is
    [Math.round] of the pounds times 16 times 10, divided by 10: the tenth
    nearest to that product, as a double; it is sent and stored when it is
    finite. *)
Theorem money_and_weight_conversion :
  (forall total book raw c w,
      keepa (EbayBook.isbn book) = KeepaFound raw ->
      db_requests (events (run_book total book c w))
      = [UpdateBook (EbayBook.isbn book)
           (cleanEval_of (clock w)
              (evaluation_of fl
                 (evaluateBook raw
                    (Js.div fl (Js.add fl (EbayBook.price book) (EbayBook.shipping book))
                       (Js.num 100)))))])
  /\ (forall book p s t,
        EbayBook.price book = Js.Fin p -> EbayBook.shipping book = Js.Fin s ->
        fl (p + s) = Js.Fin t ->
        buyPriceDollars fl book = fl (t / inject_Z 100))
  /\ (forall result stamp r,
        let e := evaluation_of fl result in
        let body := cleanEval_of stamp e in
        let row := update_row body r in
        Forall (fun entry : option number * option number * string
                            * option number * option number =>
                  let '(dollars, field, key, old, new) := entry in
                  match dollars with
                  | None => field = None /\ body !! key = None /\ new = old
                  | Some d =>
                      field = safeInt (Some (Js.Math_round (Js.mul fl d (Js.num 100))))
                      /\ forall q, Js.mul fl d (Js.num 100) = Js.Fin q ->
                           -2000000000 <= Js.round_half_up q <= 2000000000 ->
                           field = Some (Js.num (Js.round_half_up q))
                           /\ body !! key = Some (JNumber (Js.num (Js.round_half_up q)))
                           /\ new = Some (Js.num (Js.round_half_up q))
                           /\ (inject_Z (Js.round_half_up q) - (1 # 2) <= q)%Q
                           /\ (q < inject_Z (Js.round_half_up q) + (1 # 2))%Q
                  end)
          [ (KeepaEval.amazonPrice result, Evaluation.amazon_price e,
             "amazon_price", EbayBook.amazon_price r, EbayBook.amazon_price row);
            (KeepaEval.fbaProfit result, Evaluation.fba_profit e,
             "fba_profit", EbayBook.fba_profit r, EbayBook.fba_profit row);
            (KeepaEval.fbmProfit result, Evaluation.fbm_profit e,
             "fbm_profit", EbayBook.fbm_profit r, EbayBook.fbm_profit row) ])
  /\ (forall result stamp r,
        let e := evaluation_of fl result in
        let body := cleanEval_of stamp e in
        let row := update_row body r in
        match KeepaEval.weightLbs result with
        | None =>
            Evaluation.weight_oz e = None
            /\ body !! "weight_oz" = None
            /\ EbayBook.weight_oz row = EbayBook.weight_oz r
        | Some lbs =>
            let tenths :=
              Js.Math_round (Js.mul fl (Js.mul fl lbs (Js.num 16)) (Js.num 10)) in
            let oz := Js.div fl tenths (Js.num 10) in
            Evaluation.weight_oz e = (if Js.Number_isFinite oz then Some oz else None)
            /\ (forall q,
                  Js.mul fl (Js.mul fl lbs (Js.num 16)) (Js.num 10) = Js.Fin q ->
                  oz = fl (inject_Z (Js.round_half_up q) / inject_Z 10)
                  /\ (inject_Z (Js.round_half_up q) - (1 # 2) <= q)%Q
                  /\ (q < inject_Z (Js.round_half_up q) + (1 # 2))%Q)
            /\ (forall x, oz = Js.Fin x ->
                  Evaluation.weight_oz e = Some oz
                  /\ body !! "weight_oz" = Some (JNumber oz)
                  /\ EbayBook.weight_oz row = Some oz)
        end)
  /\ (forall result,
        let e := evaluation_of fl result in
        Forall (fun fields : option number * option number =>
                  forall v, fields.2 = Some v ->
                    exists d q,
                      fields.1 = Some d
                      /\ Js.mul fl d (Js.num 100) = Js.Fin q
                      /\ v = Js.Math_round (Js.mul fl d (Js.num 100))
                      /\ v = Js.num (Js.round_half_up q)
                      /\ (inject_Z (Js.round_half_up q) - (1 # 2) <= q)%Q
                      /\ (q < inject_Z (Js.round_half_up q) + (1 # 2))%Q)
          [ (KeepaEval.amazonPrice result, Evaluation.amazon_price e);
            (KeepaEval.fbaProfit result, Evaluation.fba_profit e);
            (KeepaEval.fbmProfit result, Evaluation.fbm_profit e) ])
  /\ (forall result v,
        Evaluation.weight_oz (evaluation_of fl result) = Some v ->
        exists lbs,
          KeepaEval.weightLbs result = Some lbs
          /\ v = Js.div fl
                   (Js.Math_round (Js.mul fl (Js.mul fl lbs (Js.num 16)) (Js.num 10)))
                   (Js.num 10)
          /\ Js.Number_isFinite v = true).
Proof.
  split; [|split; [|split; [|split; [|split]]]].
  - intros total book raw c w Hfound.
    rewrite evaluate_book_run, Hfound. cbn zeta.
    apply turn_events.
  - intros book p s t Hp Hs Ht. unfold buyPriceDollars. rewrite Hp, Hs.
    cbn [Js.add]. rewrite Ht. reflexivity.
  - intros result stamp r e body row.
    assert (Hrow : row = update_row (cleanEval_of stamp e) r) by done.
    rewrite update_row_cleanEval in Hrow.
    destruct (cleanEval_sent_keys stamp e) as (_ & _ & _ & H1 & _ & _ & H2 & H3 & _).
    fold body in H1, H2, H3.
    constructor.
    { apply (cents_field (KeepaEval.amazonPrice result) (Evaluation.amazon_price e)
               "amazon_price" (body !! "amazon_price") (EbayBook.amazon_price r)
               (EbayBook.amazon_price row)); [reflexivity|done|by rewrite Hrow]. }
    constructor.
    { apply (cents_field (KeepaEval.fbaProfit result) (Evaluation.fba_profit e)
               "fba_profit" (body !! "fba_profit") (EbayBook.fba_profit r)
               (EbayBook.fba_profit row)); [reflexivity|done|by rewrite Hrow]. }
    constructor; [|constructor].
    apply (cents_field (KeepaEval.fbmProfit result) (Evaluation.fbm_profit e)
             "fbm_profit" (body !! "fbm_profit") (EbayBook.fbm_profit r)
             (EbayBook.fbm_profit row)); [reflexivity|done|by rewrite Hrow].
  - intros result stamp r e body row.
    assert (Hrow : row = update_row (cleanEval_of stamp e) r) by done.
    rewrite update_row_cleanEval in Hrow.
    destruct (cleanEval_sent_keys stamp e) as (_ & _ & _ & _ & _ & _ & _ & _ & _ & _ & H).
    fold body in H. rewrite H, Hrow. cbn [EbayBook.weight_oz].
    subst e. unfold evaluation_of. cbn [Evaluation.weight_oz].
    destruct (KeepaEval.weightLbs result) as [lbs|]; cbn [weightOz]; [|done].
    cbn zeta. split; [done|]. split.
    + intros q ->. cbn [Js.Math_round]. rewrite div_by_ten.
      split; [done|]. apply round_half_up_nearest.
    + intros x ->. done.
  - intros result e. subst e. unfold evaluation_of. cbn [Evaluation.amazon_price
      Evaluation.fba_profit Evaluation.fbm_profit].
    repeat (constructor; [
      cbn [fst snd]; intros v Hv;
      destruct (safeInt_cents _ _ Hv) as (d & q & H1 & H2 & H3 & H4 & _);
      exists d, q; repeat split; auto; apply round_half_up_nearest |]).
    constructor.
  - intros result v. unfold evaluation_of. cbn [Evaluation.weight_oz].
    destruct (KeepaEval.weightLbs result) as [lbs|]; cbn [weightOz]; [|done].
    destruct (Js.Number_isFinite _) eqn:Hfin; [|done].
    intros [= <-]. by exists lbs.
Qed.

Lemma advanced_refl (rows : list EbayBook.t) : Forall2 (advanced []) rows rows.
Proof.
  apply Forall_Forall2_diag, Forall_forall. intros r _.
  unfold advanced. repeat split; auto. by intros ?%elem_of_nil.
Qed.

Lemma advanced_trans (l1 l2 : list string) (a b c : list EbayBook.t) :
  Forall2 (advanced l1) a b -> Forall2 (advanced l2) b c ->
  Forall2 (advanced (l1 ++ l2)) a c.
Proof.
  apply Forall2_trans. intros x y z (H1 & H2 & H3 & H4) (K1 & K2 & K3 & K4).
  unfold advanced. repeat split; try congruence; auto.
  rewrite elem_of_app. intros [Hin | Hin]; auto.
  apply K4. by rewrite K1 || rewrite H1.
Qed.

Lemma update_where_isbn_advanced (isbn : string) (stamp : Timestamp)
    (ev : Evaluation.t) (rows : list EbayBook.t) :
  Forall2 (advanced [isbn]) rows
    (update_where_isbn isbn (cleanEval_of stamp ev) rows).
Proof.
  unfold update_where_isbn. apply Forall2_fmap_r, Forall_Forall2_diag, Forall_forall.
  intros r _. unfold compose.
  destruct (String.eqb_spec (EbayBook.isbn r) isbn) as [Heq|Hne].
  - rewrite update_row_cleanEval. unfold advanced. cbn. by repeat split.
  - unfold advanced. repeat split; auto.
    intros Hin%list_elem_of_singleton. done.
Qed.

Lemma turn_advanced (total : nat) (book : EbayBook.t) (c : EvalCounts.t)
    (ev : Evaluation.t) (line : string) (w : World) :
  store_reliable w ->
  store_reliable (final (turn KEEPA_DELAY_MS total book c ev line w))
  /\ Forall2 (advanced [EbayBook.isbn book]) (ebay_books w)
       (ebay_books (final (turn KEEPA_DELAY_MS total book c ev line w))).
Proof.
  intros Hrel. unfold turn. cbn [final].
  rewrite updateBookEvaluation_run. cbn zeta.
  rewrite (store_reliable_next w Hrel). cbn [final].
  split.
  - by apply store_reliable_tail.
  - apply update_where_isbn_advanced.
Qed.

Lemma evaluate_loop_advanced (total : nat) (pending : list EbayBook.t)
    (c : EvalCounts.t) (w : World) (c' : EvalCounts.t) :
  store_reliable w ->
  outcome (run_loop total pending c w) = Ok c' ->
  Forall2 (advanced (EbayBook.isbn <$> pending)) (ebay_books w)
    (ebay_books (final (run_loop total pending c w))).
Proof.
  revert c w. induction pending as [|book rest IH]; intros c w Hrel.
  { intros _. apply advanced_refl. }
  cbn [evaluate_loop]. rewrite run_bind, evaluate_book_run.
  destruct (keepa (EbayBook.isbn book)) as [e| |raw].
  - by rewrite (and_then_thrown _ _ e).
  - set (c1 := count_evaluated (count_noData c)).
    destruct (turn_advanced total book c1 no_data_evaluation
                " — no Keepa data → REJECT" w Hrel) as (Hrel1 & Hadv).
    rewrite (and_then_ok _ _ c1) by reflexivity. cbn [outcome final].
    intros Hout. apply (advanced_trans [_] _ _ _ _ Hadv). by apply IH.
  - cbn zeta. set (result := evaluateBook raw (buyPriceDollars fl book)).
    set (c1 := count_evaluated (count_decision (KeepaEval.decision result) c)).
    set (line := " → " +:+ decision_name (KeepaEval.decision result)
                   +:+ " (" +:+ KeepaEval.reason result +:+ ")").
    destruct (turn_advanced total book c1 (evaluation_of fl result) line w Hrel)
      as (Hrel1 & Hadv).
    rewrite (and_then_ok _ _ c1) by reflexivity. cbn [outcome final].
    intros Hout. apply (advanced_trans [_] _ _ _ _ Hadv). by apply IH.
Qed.

(** When the store answers every request of a run that returns, no entry
    is left pending for the run. *)
Lemma evaluatePendingBooks_decides_all (seller : option string) (w : World)
    (counts : EvalCounts.t) :
  store_reliable w ->
  outcome (run_pending seller w) = Ok counts ->
  forall r, r ∈ ebay_books (final (run_pending seller w)) ->
            is_pending seller r = false.
Proof.
  intros Hrel Hout r' Hin.
  destruct (evaluatePendingBooks_run seller w)
    as (pending & Hpending & _ & Houtcome & Hfinal & _).
  destruct (getPendingBooks_spec seller w) as (n & pages & Hlist & Hall & Hbooks & Hrel1 & _).
  rewrite Hpending in Hlist. injection Hlist as ->.
  rewrite take_ge in * by auto.
  rewrite Houtcome in Hout. rewrite Hfinal in Hin.
  pose proof (evaluate_loop_advanced _ _ _ _ _ (Hrel1 Hrel) Hout) as Hadv.
  rewrite Hbooks in Hadv.
  destruct (list_elem_of_lookup_1 _ _ Hin) as [i Hi].
  destruct (Forall2_lookup_r _ _ _ _ _ Hadv Hi) as (r & Hr & H1 & H2 & H3 & H4).
  destruct (is_pending seller r') eqn:Hp'; [exfalso|done].
  apply is_pending_spec in Hp' as [Hnone Hseller].
  assert (Hp : is_pending seller r = true).
  { apply is_pending_spec. split.
    - destruct (EbayBook.decision r) eqn:Hd; [|done]. by destruct H3.
    - by rewrite <- H2. }
  apply H4; [|exact Hnone].
  apply list_elem_of_fmap_2. unfold pending_rows.
  rewrite merge_sort_Permutation.
  apply list_elem_of_In, List.filter_In. split; [|exact Hp].
  apply list_elem_of_In. by eapply list_elem_of_lookup_2.
Qed.


End EvaluateProperties.

(** ** The crawl of one search *)

Lemma insert_book_frame (book : ScrapedBook.t) (w : World) :
  fetcher_checkpoints (final (insert_book book w)) = fetcher_checkpoints w
  /\ (store_reliable w -> store_reliable (final (insert_book book w)))
  /\ (exists answer, outcome (insert_book book w) = Ok answer)
  /\ upserted_offsets (events (insert_book book w)) = [].
Proof.
  unfold insert_book. rewrite run_bind, db_request_run.
  unfold and_then. cbn [outcome final events].
  destruct (next_fault w) as [e|]; cbn [mret M_ret outcome final events app].
  - repeat split; eauto. apply store_reliable_tail.
  - rewrite run_bind. unfold gets, and_then. cbn [outcome final events app ebay_books set_faults].
    destruct (bool_decide _); cbn; repeat split; eauto; apply store_reliable_tail.
Qed.

Lemma insertBooks_loop_frame (books : list ScrapedBook.t) (s d e : nat) (w : World) :
  fetcher_checkpoints (final (insertBooks_loop books s d e w)) = fetcher_checkpoints w
  /\ (store_reliable w -> store_reliable (final (insertBooks_loop books s d e w)))
  /\ (exists counts, outcome (insertBooks_loop books s d e w) = Ok counts)
  /\ upserted_offsets (events (insertBooks_loop books s d e w)) = [].
Proof.
  revert s d e w. induction books as [|book rest IH]; intros s d e w.
  { cbn. repeat split; eauto. }
  cbn [insertBooks_loop]. rewrite run_bind.
  destruct (insert_book_frame book w) as (Hcp & Hrel & (answer & Hout) & Hev).
  rewrite (and_then_ok _ _ _ Hout). cbn [outcome final events].
  assert (Hnext : forall s d e,
    fetcher_checkpoints (final (insertBooks_loop rest s d e (final (insert_book book w))))
      = fetcher_checkpoints w
    /\ (store_reliable w ->
        store_reliable (final (insertBooks_loop rest s d e (final (insert_book book w)))))
    /\ (exists counts,
          outcome (insertBooks_loop rest s d e (final (insert_book book w))) = Ok counts)
    /\ upserted_offsets
         (events (insert_book book w)
            ++ events (insertBooks_loop rest s d e (final (insert_book book w)))) = []).
  { intros s' d' e'. destruct (IH s' d' e' (final (insert_book book w)))
      as (H1 & H2 & H3 & H4).
    unfold upserted_offsets in *. rewrite omap_app, Hev, H4, H1, Hcp.
    repeat split; auto. }
  destruct answer as [err|]; [|apply Hnext].
  destruct (String.eqb (Pg.code err) "23505"); [apply Hnext|].
  rewrite run_bind. unfold log, emit, and_then. cbn [outcome final events].
  destruct (Hnext s d (S e)) as (H1 & H2 & H3 & H4).
  repeat split; auto.
  unfold upserted_offsets in *. rewrite omap_app in *.
  cbn [omap list_omap app]. exact H4.
Qed.

Lemma main_onPage_frame (books : list ScrapedBook.t) (w : World) :
  fetcher_checkpoints (final (main_onPage books w)) = fetcher_checkpoints w
  /\ (store_reliable w -> store_reliable (final (main_onPage books w)))
  /\ outcome (main_onPage books w) = Ok tt
  /\ upserted_offsets (events (main_onPage books w)) = [].
Proof.
  unfold main_onPage, insertBooks. rewrite run_bind.
  destruct (insertBooks_loop_frame books 0 0 0 w) as (H1 & H2 & (counts & H3) & H4).
  rewrite (and_then_ok _ _ _ H3). unfold modify. cbn [outcome final events].
  rewrite app_nil_r. repeat split; auto.
Qed.

Lemma saveCheckpoint_effect (seller key : string) (offset : N) (w : World) :
  outcome (saveCheckpoint seller key offset w) = Ok tt
  /\ upserted_offsets (events (saveCheckpoint seller key offset w)) = [offset]
  /\ (store_reliable w ->
      store_reliable (final (saveCheckpoint seller key offset w))
      /\ stored_offset seller key (final (saveCheckpoint seller key offset w))
         = Some offset).
Proof.
  rewrite saveCheckpoint_run, upsert_checkpoint_run. cbn [outcome final events].
  split; [done|]. split; [by destruct (next_fault w)|].
  intros Hrel. rewrite (store_reliable_next w Hrel).
  split; [by apply store_reliable_tail|].
  unfold stored_offset. cbn. by rewrite lookup_insert_eq.
Qed.


Lemma crawl_page_run (seller key : string) (isbns : gset string)
    (maxNew : option nat) (items : list Listing.t) (offset : N)
    (totals : ScrapeResult.t) (w : World) :
  let inserted := main_onPage (Listing.item <$> List.filter (is_new isbns) items) w in
  let saved := saveCheckpoint seller key (offset + PAGE_SIZE) (final inserted) in
  crawl_page isbns main_onPage (saveCheckpoint seller key) maxNew items offset totals w
  = mkRun (Ok (page_verdict maxNew items (count_page isbns items totals)))
      (final saved) (events inserted ++ events saved ++ []).
Proof.
  cbn zeta. unfold crawl_page. rewrite run_bind.
  destruct (main_onPage_frame (Listing.item <$> List.filter (is_new isbns) items) w)
    as (_ & _ & Hout & _).
  rewrite (and_then_ok _ _ _ Hout). cbn [outcome final events].
  rewrite run_bind.
  destruct (saveCheckpoint_effect seller key (offset + PAGE_SIZE)
     (final (main_onPage (Listing.item <$> List.filter (is_new isbns) items) w)))
    as (Hout2 & _ & _).
  rewrite (and_then_ok _ _ _ Hout2).
  reflexivity.
Qed.

Lemma crawl_page_spec (seller key : string) (isbns : gset string)
    (maxNew : option nat) (items : list Listing.t) (offset : N)
    (totals : ScrapeResult.t) (w : World) :
  let run := crawl_page isbns main_onPage (saveCheckpoint seller key) maxNew
               items offset totals w in
  outcome run = Ok (page_verdict maxNew items (count_page isbns items totals))
  /\ upserted_offsets (events run) = [(offset + PAGE_SIZE)%N]
  /\ (store_reliable w ->
      store_reliable (final run)
      /\ stored_offset seller key (final run) = Some (offset + PAGE_SIZE)%N).
Proof.
  intros run. subst run. rewrite crawl_page_run. cbn zeta. cbn [outcome final events].
  destruct (main_onPage_frame (Listing.item <$> List.filter (is_new isbns) items) w)
    as (Hcp & Hrel & Hout & Hev).
  destruct (saveCheckpoint_effect seller key (offset + PAGE_SIZE)
     (final (main_onPage (Listing.item <$> List.filter (is_new isbns) items) w)))
    as (Hout2 & Hev2 & Hrel2).
  split; [done|]. split.
  - unfold upserted_offsets in *. rewrite !omap_app, Hev, Hev2. reflexivity.
  - intros Hw. by apply Hrel2, Hrel.
Qed.

Lemma upserted_offsets_app (a b : list Event) :
  upserted_offsets (a ++ b) = upserted_offsets a ++ upserted_offsets b.
Proof. apply omap_app. Qed.



Lemma crawl_try_run (ebay : string -> string -> list PageReply)
    (isbns : gset string) (seller : string) (search : Search.t) (w : World) :
  let key := Search.query search in
  let read := getCheckpoint seller key w in
  let scrape := crawl_scrape ebay isbns seller key w in
  crawl_try ebay isbns seller search w =
    match outcome scrape with
    | Ok result =>
        if ScrapeResult.completed result
        then
          let reset := resetCheckpoint seller key (final scrape) in
          mkRun (Ok tt) (final reset) (events read ++ events scrape ++ events reset)
        else
          mkRun (Ok tt) (final scrape) (events read ++ events scrape ++ [])
    | Thrown e => mkRun (Thrown e) (final scrape) (events read ++ events scrape)
    end.
Proof.
  cbn zeta. unfold crawl_try, crawl_scrape, start_offset.
  rewrite run_bind, getCheckpoint_run.
  unfold and_then at 1. cbn [outcome final events].
  rewrite run_bind.
  set (scrape := scrapeAllListings _ _ _ _ _ _ _ _ _).
  destruct (outcome scrape) as [result|e] eqn:Hout.
  - rewrite (and_then_ok _ _ _ Hout). cbn [outcome final events].
    destruct (ScrapeResult.completed result).
    + rewrite resetCheckpoint_run. reflexivity.
    + reflexivity.
  - rewrite (and_then_thrown _ _ _ Hout). reflexivity.
Qed.

Lemma crawl_search_run (ebay : string -> string -> list PageReply)
    (isbns : gset string) (seller : string) (search : Search.t) (w : World) :
  let key := Search.query search in
  let read := getCheckpoint seller key w in
  let scrape := crawl_scrape ebay isbns seller key w in
  crawl_search ebay isbns seller search w =
    if reported_completed scrape
    then
      let reset := resetCheckpoint seller key (final scrape) in
      mkRun (Ok tt) (final reset) (events read ++ events scrape ++ events reset)
    else
      mkRun (Ok tt) (final scrape) (events read ++ events scrape).
Proof.
  cbn zeta. unfold crawl_search, try_catch, reported_completed.
  rewrite crawl_try_run. cbn zeta.
  destruct (outcome (crawl_scrape _ _ _ _ _)) as [result|e].
  - destruct (ScrapeResult.completed result); cbn [outcome]; [done|].
    by rewrite app_nil_r.
  - cbn [outcome final events mret M_ret]. by rewrite app_nil_r.
Qed.



(** ** The run loop *)

Lemma getExistingISBNs_loop_returns (fuel from : nat) (isbns : gset string) (w : World) :
  (length (ebay_books w) - from < fuel * pageSize)%nat ->
  exists result, outcome (getExistingISBNs_loop fuel from isbns w) = Ok result.
Proof.
  revert from isbns w. induction fuel as [|fuel IH]; intros from isbns w Hfuel; [lia|].
  cbn [getExistingISBNs_loop]. rewrite run_bind, db_request_run.
  unfold and_then at 1. cbn [outcome final events].
  destruct (next_fault w) as [e|]; [by eexists|].
  rewrite run_bind. unfold gets, and_then. cbn [outcome final events ebay_books set_faults].
  rewrite range_page.
  set (data := take pageSize (drop from (EbayBook.isbn <$> ebay_books w))).
  assert (Hlen : length data = Nat.min pageSize (length (ebay_books w) - from)).
  { subst data. by rewrite length_take, length_drop, length_fmap. }
  destruct (Nat.eqb (length data) 0); [by eexists|].
  destruct (Nat.ltb_spec (length data) pageSize) as [Hshort|Hfull]; [by eexists|].
  destruct (IH (from + pageSize)%nat (isbns ∪ list_to_set data)
              (set_faults (tail (db_faults w)) w)) as [result Hresult].
  { cbn [ebay_books set_faults]. cbn [Nat.mul] in Hfuel. lia. }
  exists result. exact Hresult.
Qed.

(** [getExistingISBNs] always returns: the pages of the table run out. *)
Lemma getExistingISBNs_returns (w : World) :
  exists isbns, outcome (getExistingISBNs w) = Ok isbns.
Proof.
  unfold getExistingISBNs. rewrite run_bind. unfold gets, and_then at 1.
  cbn [outcome final events]. rewrite run_bind.
  destruct (getExistingISBNs_loop_returns (S (length (ebay_books w))) 0 ∅ w)
    as [isbns Hisbns].
  { pose proof pageSize_pos. nia. }
  rewrite (and_then_ok _ _ _ Hisbns). by eexists.
Qed.

Lemma for_searches_crawls (ebay : string -> string -> list PageReply)
    (isbns : gset string) (seller : string) (searches : list Search.t) (w : World) :
  for_searches ebay isbns seller searches w
  = crawl_all ebay isbns (pair seller <$> searches) w.
Proof.
  revert w. induction searches as [|search rest IH]; intros w; [done|].
  cbn [for_searches crawl_all fmap list_fmap fst snd]. rewrite !run_bind.
  rewrite !(and_then_ok _ _ tt) by apply crawl_search_returns.
  by rewrite IH.
Qed.

Lemma crawl_all_returns (ebay : string -> string -> list PageReply)
    (isbns : gset string) (pairs : list (string * Search.t)) (w : World) :
  outcome (crawl_all ebay isbns pairs w) = Ok tt.
Proof.
  revert w. induction pairs as [|p rest IH]; intros w; [done|].
  cbn [crawl_all]. rewrite run_bind.
  rewrite (and_then_ok _ _ tt) by apply crawl_search_returns.
  cbn [outcome]. apply IH.
Qed.

Lemma crawl_all_app (ebay : string -> string -> list PageReply)
    (isbns : gset string) (first rest : list (string * Search.t)) (w : World) :
  crawl_all ebay isbns (first ++ rest) w
  = (crawl_all ebay isbns first;; crawl_all ebay isbns rest) w.
Proof.
  revert w. induction first as [|p first IH]; intros w.
  - cbn [app crawl_all]. rewrite run_bind. unfold and_then. cbn.
    by destruct (crawl_all ebay isbns rest w).
  - cbn [app crawl_all]. rewrite !run_bind.
    rewrite !(and_then_ok _ _ tt) by apply crawl_search_returns.
    rewrite IH, run_bind.
    rewrite !(and_then_ok _ _ tt) by apply crawl_all_returns.
    rewrite (and_then_ok (crawl_search _ _ _ _ w) _ tt) by apply crawl_search_returns.
    rewrite (and_then_ok _ _ tt) by (cbn [outcome]; apply crawl_all_returns).
    cbn [outcome final events]. by rewrite app_assoc.
Qed.

(** The loops of [main] crawl every (seller, search) pair once, sellers in
    the order of [SELLERS] and, for each, searches in the order of
    [SEARCHES]; each crawl starts in the world the previous one left. *)
Lemma for_sellers_crawls_every_pair (SEARCHES : list Search.t)
    (ebay : string -> string -> list PageReply) (isbns : gset string)
    (sellers : list string) (w : World) :
  for_sellers SEARCHES ebay isbns sellers w
  = crawl_all ebay isbns
      (flat_map (fun seller => pair seller <$> SEARCHES) sellers) w.
Proof.
  revert w. induction sellers as [|seller rest IH]; intros w; [done|].
  cbn [for_sellers flat_map]. rewrite crawl_all_app, !run_bind.
  rewrite for_searches_crawls.
  rewrite !(and_then_ok _ _ tt) by apply crawl_all_returns.
  by rewrite IH.
Qed.

(** ** Examples *)





Lemma insertBooks_counts_witness :
  outcome (insert_book (sample_listing "9780000000001")
             (sample_world [sample_book "9780000000001" "seller-a" 10] []))
  = Ok (Some unique_violation).
Proof.
  apply (proj2 (proj2 (proj2
    (insertBooks_counts [] (sample_world [sample_book "9780000000001" "seller-a" 10] []))))).
  - reflexivity.
  - vm_compute. apply list_elem_of_singleton. reflexivity.
Defined.

Lemma acquisition_before_every_lookup_witness :
  exists j,
    2%nat = S j
    /\ keepa_calls
         (events (evaluatePendingBooks Js.Fin unit sample_keepa sample_engine 1000 None
                    (sample_world [sample_book "9780000000001" "seller-a" 10] [])))
       !! j = Some Acquire.
Proof.
  apply (proj1 (acquisition_before_every_lookup Js.Fin unit sample_keepa sample_engine
                  1000 None
                  (sample_world [sample_book "9780000000001" "seller-a" 10] []))
           2%nat "9780000000001").
  vm_compute. reflexivity.
Defined.


Lemma money_and_weight_conversion_witness :
  db_requests
    (events (evaluate_book Js.binary64 unit sample_keepa double_engine 1000 1
               (sample_book "9780000000002" "seller-a" 20)
               (EvalCounts.mk 0 0 0 0 0) (sample_world [] [])))
  = [UpdateBook "9780000000002"
       (cleanEval_of 1000
          (evaluation_of Js.binary64
             (double_engine tt
                (Js.div Js.binary64
                   (Js.add Js.binary64 (Js.num 1000) (Js.num 300)) (Js.num 100)))))]
  /\ buyPriceDollars Js.binary64 (sample_book "9780000000002" "seller-a" 20)
     = Js.num 13
  /\ EbayBook.amazon_price
       (update_row
          (cleanEval_of 1000 (evaluation_of Js.binary64 (double_engine tt (Js.num 13))))
          (evaluated_book "9780000000002"))
     = Some (Js.num 100).
Proof.
  destruct (money_and_weight_conversion Js.binary64 unit sample_keepa double_engine 1000)
    as (Hsent & Hbuy & Hmoney & _).
  split; [|split].
  - apply (Hsent 1%nat (sample_book "9780000000002" "seller-a" 20) tt). reflexivity.
  - rewrite (Hbuy (sample_book "9780000000002" "seller-a" 20)
               (inject_Z 1000) (inject_Z 300) (inject_Z 1300));
      [vm_compute; reflexivity|reflexivity|reflexivity|vm_compute; reflexivity].
  - specialize (Hmoney (double_engine tt (Js.num 13)) 1000%N
                  (evaluated_book "9780000000002")).
    cbn zeta in Hmoney. apply Forall_cons in Hmoney as [Hprice _].
    cbn [double_engine KeepaEval.amazonPrice] in Hprice.
    destruct Hprice as [_ Hprice].
    destruct (Hprice (7072058789855231 # 70368744177664)) as (_ & _ & Hrow & _).
    + vm_compute. reflexivity.
    + vm_compute. split; discriminate.
    + rewrite Hrow. vm_compute. reflexivity.
Defined.

Lemma updateBookEvaluation_writes_defined_fields_witness :
  outcome (updateBookEvaluation "9780000000001" no_data_evaluation
             (sample_world [sample_book "9780000000001" "seller-a" 10] []))
  = Ok true.
Proof.
  apply (proj1 (proj2 (proj2 (proj2
    (updateBookEvaluation_writes_defined_fields "9780000000001" no_data_evaluation
       (sample_world [sample_book "9780000000001" "seller-a" 10] []))))));
    reflexivity.
Defined.

(** * Further properties *)

Set Warnings "-clear-no-such-hyp".

(** ** Loading the dedup index *)

Lemma isbn_page_requests_S (from pages : nat) :
  isbn_page_requests from (S pages) =
    SelectIsbns from (from + pageSize - 1)
      :: isbn_page_requests (from + pageSize) pages.
Proof.
  unfold isbn_page_requests. cbn [seq fmap list_fmap].
  rewrite Nat.mul_0_l, Nat.add_0_r. f_equal.
  rewrite <- seq_shift, <- list_fmap_compose.
  apply list_fmap_ext. intros _ i _. unfold compose.
  generalize pageSize. intros p. f_equal; lia.
Qed.

Lemma pages_step (n : nat) :
  (pageSize <= n)%nat -> (n / pageSize = S ((n - pageSize) / pageSize))%nat.
Proof.
  intros H. unfold pageSize in *.
  replace n with ((n - 1000) + 1 * 1000)%nat at 1 by lia.
  rewrite Nat.div_add by lia. lia.
Qed.

Lemma pages_short (n : nat) : (n < pageSize)%nat -> (n / pageSize = 0)%nat.
Proof. intros H. by apply Nat.div_small. Qed.

Lemma getExistingISBNs_loop_step (fuel from : nat) (isbns : gset string) (w : World) :
  getExistingISBNs_loop (S fuel) from isbns w =
    let all := EbayBook.isbn <$> ebay_books w in
    let data := take pageSize (drop from all) in
    let w1 := set_faults (tail (db_faults w)) w in
    let ev := EvDb (SelectIsbns from (from + pageSize - 1)) in
    match next_fault w with
    | Some e =>
        mkRun (Ok isbns) w1
          [ev; EvLog ("Error loading existing ISBNs: " +:+ Pg.message e)]
    | None =>
        if Nat.eqb (length data) 0 then mkRun (Ok isbns) w1 [ev]
        else if Nat.ltb (length data) pageSize
        then mkRun (Ok (isbns ∪ list_to_set data)) w1 [ev]
        else
          let next := getExistingISBNs_loop fuel (from + pageSize)
                        (isbns ∪ list_to_set data) w1 in
          mkRun (outcome next) (final next) (ev :: events next)
    end.
Proof.
  cbn zeta.
  remember (getExistingISBNs_loop (S fuel) from isbns w) as run eqn:Hrun.
  cbn [getExistingISBNs_loop] in Hrun. rewrite run_bind, db_request_run in Hrun.
  unfold and_then at 1 in Hrun. cbn [outcome final events] in Hrun.
  destruct (next_fault w) as [e|]; [by subst|].
  rewrite run_bind in Hrun. unfold gets, and_then in Hrun.
  cbn [outcome final events ebay_books set_faults app] in Hrun.
  rewrite range_page in Hrun.
  destruct (Nat.eqb _ 0); [by subst|].
  destruct (Nat.ltb _ pageSize); by subst.
Qed.

(** With a store that answers, the loop adds the keys of the rows from rank
    [from] on, reading one page more than the full pages it finds. *)
Lemma getExistingISBNs_loop_reliable (fuel from : nat) (isbns : gset string) (w : World) :
  let all := EbayBook.isbn <$> ebay_books w in
  let run := getExistingISBNs_loop fuel from isbns w in
  store_reliable w ->
  (length all - from < fuel * pageSize)%nat ->
  outcome run = Ok (isbns ∪ list_to_set (drop from all))
  /\ events run
     = EvDb <$> isbn_page_requests from (S ((length all - from) / pageSize))
  /\ store_reliable (final run).
Proof.
  cbn zeta. revert from isbns w.
  induction fuel as [|fuel IH]; intros from isbns w Hrel Hfuel; [lia|].
  rewrite getExistingISBNs_loop_step. cbn zeta.
  rewrite (store_reliable_next w Hrel).
  set (all := EbayBook.isbn <$> ebay_books w) in *.
  set (data := take pageSize (drop from all)).
  assert (Hlen : length data = Nat.min pageSize (length all - from)).
  { subst data. by rewrite length_take, length_drop. }
  pose proof pageSize_pos as Hpos.
  rewrite isbn_page_requests_S.
  destruct (Nat.eqb_spec (length data) 0) as [H0|H0].
  - assert (Hnil : drop from all = []).
    { apply length_zero_iff_nil. rewrite length_drop. lia. }
    rewrite Hnil. rewrite pages_short by lia.
    cbn [outcome final events]. split; [f_equal; set_solver|]. split; [done|].
    by apply store_reliable_tail.
  - destruct (Nat.ltb_spec (length data) pageSize) as [Hshort|Hfull].
    + assert (data = drop from all) as ->.
      { subst data. apply take_ge. rewrite length_drop. lia. }
      rewrite pages_short by lia.
      cbn [outcome final events]. split; [done|]. split; [done|].
      by apply store_reliable_tail.
    + destruct (IH (from + pageSize)%nat (isbns ∪ list_to_set data)
                  (set_faults (tail (db_faults w)) w)) as (H1 & H2 & H3).
      { by apply store_reliable_tail. }
      { cbn [ebay_books set_faults]. fold all. cbn [Nat.mul] in Hfuel. lia. }
      cbn [ebay_books set_faults] in H1, H2. fold all in H1, H2.
      cbn [outcome final events]. rewrite H1, H2.
      split; [|split; [|exact H3]].
      * f_equal. subst data.
        rewrite <- (take_drop pageSize (drop from all)) at 2.
        rewrite list_to_set_app_L, drop_drop. set_solver.
      * rewrite (pages_step (length all - from)) by lia.
        replace (length all - (from + pageSize))%nat
          with (length all - from - pageSize)%nat by lia.
        reflexivity.
Qed.

(** A read that fails after [k] full pages ends the loop with the keys of
    those pages. *)
Lemma getExistingISBNs_loop_failure (fuel from : nat) (isbns : gset string)
    (w : World) (k : nat) (e : Pg.Error) (rest : list (option Pg.Error)) :
  let all := EbayBook.isbn <$> ebay_books w in
  let run := getExistingISBNs_loop fuel from isbns w in
  db_faults w = replicate k None ++ Some e :: rest ->
  (from + k * pageSize <= length all)%nat ->
  (k < fuel)%nat ->
  outcome run = Ok (isbns ∪ list_to_set (take (k * pageSize) (drop from all)))
  /\ events run
     = (EvDb <$> isbn_page_requests from (S k))
         ++ [EvLog ("Error loading existing ISBNs: " +:+ Pg.message e)]
  /\ db_faults (final run) = rest.
Proof.
  cbn zeta. revert from isbns w k.
  induction fuel as [|fuel IH]; intros from isbns w k Hfaults Hk Hfuel; [lia|].
  rewrite getExistingISBNs_loop_step. cbn zeta.
  unfold next_fault. rewrite Hfaults.
  set (all := EbayBook.isbn <$> ebay_books w) in *.
  rewrite isbn_page_requests_S.
  destruct k as [|k]; cbn [replicate app tail].
  - cbn [outcome final events set_faults db_faults Nat.mul take].
    split; [f_equal; set_solver|]. done.
  - set (data := take pageSize (drop from all)).
    assert (Hlen : length data = pageSize).
    { subst data. rewrite length_take, length_drop. cbn [Nat.mul] in Hk. lia. }
    pose proof pageSize_pos as Hpos.
    rewrite Hlen. rewrite (proj2 (Nat.eqb_neq _ _)) by lia.
    rewrite (proj2 (Nat.ltb_ge _ _)) by lia.
    destruct (IH (from + pageSize)%nat (isbns ∪ list_to_set data)
                (set_faults (replicate k None ++ Some e :: rest) w) k)
      as (H1 & H2 & H3).
    { reflexivity. }
    { cbn [ebay_books set_faults]. fold all. cbn [Nat.mul] in Hk. lia. }
    { lia. }
    cbn [ebay_books set_faults] in H1. fold all in H1.
    cbn [outcome final events]. rewrite H1, H2, H3.
    split; [|done].
    f_equal. subst data. cbn [Nat.mul].
    rewrite <- drop_drop, <- take_take_drop, list_to_set_app_L. set_solver.
Qed.

Lemma getExistingISBNs_loop_frame (fuel from : nat) (isbns : gset string) (w : World) :
  let run := getExistingISBNs_loop fuel from isbns w in
  ebay_books (final run) = ebay_books w
  /\ fetcher_checkpoints (final run) = fetcher_checkpoints w.
Proof.
  cbn zeta. revert from isbns w.
  induction fuel as [|fuel IH]; intros from isbns w; [done|].
  rewrite getExistingISBNs_loop_step. cbn zeta.
  destruct (next_fault w); [done|].
  destruct (Nat.eqb _ 0); [done|].
  destruct (Nat.ltb _ pageSize); [done|].
  cbn [final].
  destruct (IH (from + pageSize)%nat
              (isbns ∪ list_to_set (take pageSize (drop from (EbayBook.isbn <$> ebay_books w))))
              (set_faults (tail (db_faults w)) w)) as [H1 H2].
  by rewrite H1, H2.
Qed.

Lemma getExistingISBNs_loop_sound (fuel from : nat) (isbns : gset string) (w : World) :
  let all := EbayBook.isbn <$> ebay_books w in
  (length all - from < fuel * pageSize)%nat ->
  exists n,
    outcome (getExistingISBNs_loop fuel from isbns w)
    = Ok (isbns ∪ list_to_set (take n (drop from all))).
Proof.
  cbn zeta. revert from isbns w.
  induction fuel as [|fuel IH]; intros from isbns w Hfuel; [lia|].
  rewrite getExistingISBNs_loop_step. cbn zeta.
  set (all := EbayBook.isbn <$> ebay_books w) in *.
  set (data := take pageSize (drop from all)).
  assert (Hlen : length data = Nat.min pageSize (length all - from)).
  { subst data. by rewrite length_take, length_drop. }
  pose proof pageSize_pos as Hpos.
  destruct (next_fault w) as [e|].
  { exists 0%nat. cbn. f_equal. set_solver. }
  destruct (Nat.eqb_spec (length data) 0) as [H0|H0].
  { exists 0%nat. cbn. f_equal. set_solver. }
  destruct (Nat.ltb_spec (length data) pageSize) as [Hshort|Hfull].
  { by exists pageSize. }
  destruct (IH (from + pageSize)%nat (isbns ∪ list_to_set data)
              (set_faults (tail (db_faults w)) w)) as [n Hn].
  { cbn [ebay_books set_faults]. fold all. cbn [Nat.mul] in Hfuel. lia. }
  cbn [ebay_books set_faults] in Hn. fold all in Hn.
  exists (pageSize + n)%nat. cbn [outcome]. rewrite Hn. f_equal. subst data.
  rewrite <- drop_drop, <- take_take_drop, list_to_set_app_L. set_solver.
Qed.

Lemma getExistingISBNs_unfold (w : World) :
  getExistingISBNs w =
    let loop := getExistingISBNs_loop (S (length (ebay_books w))) 0 ∅ w in
    match outcome loop with
    | Ok isbns =>
        mkRun (Ok isbns) (final loop)
          (events loop
             ++ [EvLog ("Loaded " +:+ pretty (size isbns) +:+ " existing ISBNs from DB")])
    | Thrown e => mkRun (Thrown e) (final loop) (events loop)
    end.
Proof.
  unfold getExistingISBNs. rewrite run_bind. unfold gets, and_then at 1.
  cbn [outcome final events app]. rewrite run_bind. cbn zeta.
  destruct (outcome (getExistingISBNs_loop _ 0 ∅ w)) as [isbns|e] eqn:Hout.
  - rewrite (and_then_ok _ _ _ Hout). rewrite run_bind.
    unfold log, emit, and_then. cbn [outcome final events mret M_ret].
    by rewrite app_nil_r.
  - by rewrite (and_then_thrown _ _ _ Hout).
Qed.

Lemma getExistingISBNs_fuel (w : World) :
  (length (EbayBook.isbn <$> ebay_books w) - 0
   < S (length (ebay_books w)) * pageSize)%nat.
Proof. rewrite length_fmap. pose proof pageSize_pos. nia. Qed.

(** X1.  With a store that answers every request, [getExistingISBNs] returns
    the set of the catalog keys of all the rows of the table.  It reads the
    table in pages of 1000 rows and stops at the first page that is not
    full, so it sends one request more than the table has full pages, and
    then logs the size of the set. *)
Theorem getExistingISBNs_loads_every_key (w : World) :
  store_reliable w ->
  let keys : gset string := list_to_set (EbayBook.isbn <$> ebay_books w) in
  let run := getExistingISBNs w in
  outcome run = Ok keys
  /\ events run
     = (EvDb <$> isbn_page_requests 0 (S (length (ebay_books w) / pageSize)))
         ++ [EvLog ("Loaded " +:+ pretty (size keys) +:+ " existing ISBNs from DB")]
  /\ ebay_books (final run) = ebay_books w
  /\ fetcher_checkpoints (final run) = fetcher_checkpoints w.
Proof.
  intros Hrel keys run. subst keys run.
  rewrite getExistingISBNs_unfold. cbn zeta.
  destruct (getExistingISBNs_loop_reliable (S (length (ebay_books w))) 0 ∅ w Hrel
              (getExistingISBNs_fuel w)) as (Hout & Hev & _).
  destruct (getExistingISBNs_loop_frame (S (length (ebay_books w))) 0 ∅ w) as [Hb Hc].
  rewrite Hout. cbn [outcome final events].
  rewrite drop_0, Nat.sub_0_r, length_fmap in *.
  rewrite (left_id_L ∅ (∪)). rewrite Hev.
  repeat split; auto.
Qed.

Lemma getExistingISBNs_loads_every_key_witness :
  outcome (getExistingISBNs
             (sample_world [ sample_book "9780000000001" "seller-a" 10;
                             sample_book "9780000000002" "seller-b" 20;
                             sample_book "9780000000001" "seller-b" 30 ] []))
  = Ok (list_to_set ["9780000000001"; "9780000000002"; "9780000000001"]).
Proof.
  apply (getExistingISBNs_loads_every_key
           (sample_world [ sample_book "9780000000001" "seller-a" 10;
                           sample_book "9780000000002" "seller-b" 20;
                           sample_book "9780000000001" "seller-b" 30 ] [])).
  constructor.
Defined.

(** X2.  [getExistingISBNs] never throws and changes no table, and what it
    returns holds catalog keys of the table only.  A read that fails ends the
    loading: when the first [k] reads are answered, each with a full page,
    and the next one fails, the function logs the error and returns the keys
    of these [k] pages, [k] * 1000 rows, as if they were all there is. *)
Theorem getExistingISBNs_partial_on_read_error (w : World) :
  let all := EbayBook.isbn <$> ebay_books w in
  let run := getExistingISBNs w in
  (exists isbns : gset string, outcome run = Ok isbns /\ isbns ⊆ list_to_set all)
  /\ ebay_books (final run) = ebay_books w
  /\ fetcher_checkpoints (final run) = fetcher_checkpoints w
  /\ (forall k e rest,
        db_faults w = replicate k None ++ Some e :: rest ->
        (k * pageSize <= length all)%nat ->
        let found : gset string := list_to_set (take (k * pageSize) all) in
        outcome run = Ok found
        /\ events run
           = (EvDb <$> isbn_page_requests 0 (S k))
               ++ [ EvLog ("Error loading existing ISBNs: " +:+ Pg.message e);
                    EvLog ("Loaded " +:+ pretty (size found)
                             +:+ " existing ISBNs from DB") ]
        /\ db_faults (final run) = rest).
Proof.
  intros all run. subst all run.
  rewrite getExistingISBNs_unfold. cbn zeta.
  destruct (getExistingISBNs_loop_frame (S (length (ebay_books w))) 0 ∅ w) as [Hb Hc].
  destruct (getExistingISBNs_loop_sound (S (length (ebay_books w))) 0 ∅ w
              (getExistingISBNs_fuel w)) as [n Hn].
  rewrite drop_0, (left_id_L ∅ (∪)) in Hn.
  split; [|split; [|split]].
  - rewrite Hn. cbn [outcome]. eexists. split; [reflexivity|].
    intros x. rewrite !elem_of_list_to_set. apply subseteq_take.
  - rewrite Hn. exact Hb.
  - rewrite Hn. exact Hc.
  - intros k e rest Hfaults Hk.
    destruct (getExistingISBNs_loop_failure (S (length (ebay_books w))) 0 ∅ w k e rest
                Hfaults) as (Hout & Hev & Hrest).
    { exact Hk. }
    { rewrite length_fmap in Hk. pose proof pageSize_pos. nia. }
    rewrite drop_0, (left_id_L ∅ (∪)) in Hout.
    rewrite Hout. cbn [outcome final events]. rewrite Hev, <- app_assoc.
    repeat split; auto.
Qed.

Lemma getExistingISBNs_partial_on_read_error_witness :
  outcome (getExistingISBNs
             (sample_world [ sample_book "9780000000001" "seller-a" 10;
                             sample_book "9780000000002" "seller-b" 20 ]
                [Some timeout_error]))
  = Ok ∅.
Proof.
  apply (proj2 (proj2 (proj2
    (getExistingISBNs_partial_on_read_error
       (sample_world [ sample_book "9780000000001" "seller-a" 10;
                       sample_book "9780000000002" "seller-b" 20 ]
          [Some timeout_error]))))
    0%nat timeout_error []).
  - reflexivity.
  - cbn. lia.
Defined.

(** ** Inserting books: what the inserts leave in the table *)

Lemma insert_book_effect (book : ScrapedBook.t) (w : World) :
  insert_book book w =
    let w1 := set_faults (tail (db_faults w)) w in
    match next_fault w with
    | Some e => mkRun (Ok (Some e)) w1 [EvDb (InsertBook book)]
    | None =>
        if bool_decide (ScrapedBook.isbn book ∈ EbayBook.isbn <$> ebay_books w)
        then mkRun (Ok (Some unique_violation)) w1 [EvDb (InsertBook book)]
        else
          mkRun (Ok None)
            (set_books
               (fun rows => rows ++ [new_row (Z.of_nat (S (length rows))) book]) w1)
            [EvDb (InsertBook book)]
    end.
Proof.
  cbn zeta. unfold insert_book. rewrite run_bind, db_request_run.
  unfold and_then at 1. cbn [outcome final events].
  destruct (next_fault w) as [e|]; [reflexivity|].
  rewrite run_bind. unfold gets, and_then. cbn [outcome final events ebay_books set_faults].
  destruct (bool_decide _); reflexivity.
Qed.

(** The step of the loop of [insertBooks] on its first book. *)
Lemma insertBooks_loop_cons (book : ScrapedBook.t) (rest : list ScrapedBook.t)
    (s d e : nat) (w : World) :
  insertBooks_loop (book :: rest) s d e w =
    let first := insert_book book w in
    match outcome first with
    | Ok (Some err) =>
        if String.eqb (Pg.code err) "23505"
        then
          let next := insertBooks_loop rest s (S d) e (final first) in
          mkRun (outcome next) (final next) (events first ++ events next)
        else
          let next := insertBooks_loop rest s d (S e) (final first) in
          mkRun (outcome next) (final next)
            (events first
               ++ EvLog ("  Insert error for " +:+ ScrapedBook.isbn book +:+ ": "
                           +:+ Pg.message err) :: events next)
    | Ok None =>
        let next := insertBooks_loop rest (S s) d e (final first) in
        mkRun (outcome next) (final next) (events first ++ events next)
    | Thrown x => mkRun (Thrown x) (final first) (events first)
    end.
Proof.
  cbn zeta. cbn [insertBooks_loop]. rewrite run_bind. unfold and_then at 1.
  destruct (outcome (insert_book book w)) as [[err|]|x]; try reflexivity.
  destruct (String.eqb (Pg.code err) "23505"); [reflexivity|].
  rewrite run_bind. unfold log, emit, and_then. cbn [outcome final events app].
  reflexivity.
Qed.

(** What [insertBooks] does to the table, whatever the store answers: it
    appends one row per saved book, each the listing of a book of its input
    with a null decision, and touches nothing else. *)
Lemma insertBooks_loop_table (books : list ScrapedBook.t) (s d e : nat) (w : World) :
  exists counts added,
    outcome (insertBooks_loop books s d e w) = Ok counts
    /\ ebay_books (final (insertBooks_loop books s d e w)) = ebay_books w ++ added
    /\ InsertCounts.saved counts = (s + length added)%nat
    /\ Forall (fun r => exists b id, b ∈ books /\ r = new_row id b) added
    /\ (NoDup (EbayBook.isbn <$> ebay_books w) ->
        NoDup (EbayBook.isbn <$> ebay_books w ++ added))
    /\ totalNew (final (insertBooks_loop books s d e w)) = totalNew w
    /\ totalSkipped (final (insertBooks_loop books s d e w)) = totalSkipped w
    /\ clock (final (insertBooks_loop books s d e w)) = clock w.
Proof.
  revert s d e w. induction books as [|book rest IH]; intros s d e w.
  { exists (InsertCounts.mk s d e), []. cbn. rewrite app_nil_r.
    repeat split; auto. }
  rewrite insertBooks_loop_cons, insert_book_effect. cbn zeta.
  set (w1 := set_faults (tail (db_faults w)) w).
  assert (Hlift : forall s' d' e' w' extra,
    ebay_books w' = ebay_books w ++ extra ->
    totalNew w' = totalNew w -> totalSkipped w' = totalSkipped w ->
    clock w' = clock w ->
    s' = (s + length extra)%nat ->
    Forall (fun r => exists b id, b ∈ book :: rest /\ r = new_row id b) extra ->
    (NoDup (EbayBook.isbn <$> ebay_books w) ->
     NoDup (EbayBook.isbn <$> ebay_books w ++ extra)) ->
    exists counts added,
      outcome (insertBooks_loop rest s' d' e' w') = Ok counts
      /\ ebay_books (final (insertBooks_loop rest s' d' e' w')) = ebay_books w ++ added
      /\ InsertCounts.saved counts = (s + length added)%nat
      /\ Forall (fun r => exists b id, b ∈ book :: rest /\ r = new_row id b) added
      /\ (NoDup (EbayBook.isbn <$> ebay_books w) ->
          NoDup (EbayBook.isbn <$> ebay_books w ++ added))
      /\ totalNew (final (insertBooks_loop rest s' d' e' w')) = totalNew w
      /\ totalSkipped (final (insertBooks_loop rest s' d' e' w')) = totalSkipped w
      /\ clock (final (insertBooks_loop rest s' d' e' w')) = clock w).
  { intros s' d' e' w' extra Hbooks Hnew Hskip Hclock Hs Hextra Hnodup.
    destruct (IH s' d' e' w') as (counts & added & H1 & H2 & H3 & H4 & H5 & H6 & H7 & H8).
    exists counts, (extra ++ added). rewrite H1, H2, H3, H6, H7, H8, Hbooks.
    rewrite <- app_assoc, length_app.
    split; [done|]. split; [done|]. split.
    { lia. }
    split.
    { apply Forall_app. split; [exact Hextra|].
      eapply Forall_impl; [exact H4|]. cbn beta.
      intros r (b & id & Hb & ->). exists b, id. split; [|done].
      by apply list_elem_of_further. }
    split; [|done].
    intros Hw. rewrite app_assoc. rewrite <- Hbooks. apply H5.
    rewrite Hbooks. by apply Hnodup. }
  destruct (next_fault w) as [err|]; cbn [outcome final events].
  - destruct (String.eqb (Pg.code err) "23505");
      apply (Hlift _ _ _ w1 []); auto; try (by rewrite app_nil_r);
      cbn [length]; lia.
  - destruct (bool_decide_reflect
                (ScrapedBook.isbn book ∈ EbayBook.isbn <$> ebay_books w)) as [Hin|Hnew];
      cbn [outcome final events].
    + cbn [Pg.code unique_violation String.eqb Ascii.eqb Bool.eqb].
      apply (Hlift _ _ _ w1 []); auto; try (by rewrite app_nil_r);
        cbn [length]; lia.
    + apply (Hlift _ _ _ _ [new_row (Z.of_nat (S (length (ebay_books w)))) book]); auto.
      * cbn [length]. lia.
      * constructor; [|constructor]. exists book, (Z.of_nat (S (length (ebay_books w)))).
        split; [apply list_elem_of_here|done].
      * intros Hw. rewrite fmap_app. cbn [fmap list_fmap new_row EbayBook.isbn].
        apply NoDup_app. split; [done|]. split; [|apply NoDup_singleton].
        intros x Hx ->%list_elem_of_singleton. done.
Qed.

(** With a store that answers, [insertBooks] saves one row per catalog key
    of its input that the table did not hold, and counts every other book as
    a duplicate. *)
Lemma insertBooks_loop_reliable (books : list ScrapedBook.t) (s d e : nat) (w : World) :
  let known : gset string := list_to_set (EbayBook.isbn <$> ebay_books w) in
  let offered : gset string := list_to_set (ScrapedBook.isbn <$> books) in
  let run := insertBooks_loop books s d e w in
  store_reliable w ->
  exists counts,
    outcome run = Ok counts
    /\ InsertCounts.saved counts = (s + size (offered ∖ known))%nat
    /\ (InsertCounts.duplicates counts + size (offered ∖ known) = d + length books)%nat
    /\ InsertCounts.errors counts = e
    /\ list_to_set (EbayBook.isbn <$> ebay_books (final run)) = known ∪ offered
    /\ store_reliable (final run).
Proof.
  cbn zeta. revert s d e w. induction books as [|book rest IH]; intros s d e w Hrel.
  { exists (InsertCounts.mk s d e). cbn [insertBooks_loop mret M_ret outcome final
      fmap list_fmap list_to_set InsertCounts.saved InsertCounts.duplicates
      InsertCounts.errors length].
    rewrite (left_id_L ∅ (∖)) || idtac.
    assert ((∅ : gset string) ∖ list_to_set (EbayBook.isbn <$> ebay_books w) = ∅) as ->
      by set_solver.
    rewrite size_empty. repeat split; auto; try lia. set_solver. }
  rewrite insertBooks_loop_cons, insert_book_effect. cbn zeta.
  rewrite (store_reliable_next w Hrel).
  pose proof (store_reliable_tail w Hrel) as Hrel1.
  set (w1 := set_faults (tail (db_faults w)) w) in *.
  set (known := list_to_set (EbayBook.isbn <$> ebay_books w) : gset string).
  set (offered := list_to_set (ScrapedBook.isbn <$> rest) : gset string).
  cbn [fmap list_fmap list_to_set length].
  fold (ScrapedBook.isbn <$> rest). fold offered.
  destruct (bool_decide_reflect
              (ScrapedBook.isbn book ∈ EbayBook.isbn <$> ebay_books w)) as [Hin|Hnew];
    cbn [outcome final events].
  - cbn [Pg.code unique_violation String.eqb Ascii.eqb Bool.eqb].
    destruct (IH s (S d) e w1 Hrel1) as (counts & H1 & H2 & H3 & H4 & H5 & H6).
    cbn [ebay_books set_faults w1] in H2, H3, H5. fold known offered in H2, H3, H5.
    exists counts. cbn [outcome final]. rewrite H1, H5.
    assert (Hsame : ({[ScrapedBook.isbn book]} ∪ offered) ∖ known = offered ∖ known).
    { apply set_eq. intros x. subst known. set_solver. }
    rewrite Hsame. repeat split; auto; try lia.
    apply set_eq. intros x. subst known. set_solver.
  - set (row := new_row (Z.of_nat (S (length (ebay_books w1)))) book).
    assert (Hrel2 : store_reliable (set_books (fun rows => rows ++ [row]) w1)) by exact Hrel1.
    destruct (IH (S s) d e (set_books (fun rows =>
                 rows ++ [new_row (Z.of_nat (S (length rows))) book]) w1) Hrel2)
      as (counts & H1 & H2 & H3 & H4 & H5 & H6).
    cbn [ebay_books set_books set_faults w1] in H2, H3, H5.
    rewrite fmap_app, list_to_set_app_L in H2, H3, H5.
    cbn [fmap list_fmap new_row EbayBook.isbn list_to_set] in H2, H3, H5.
    fold known offered in H2, H3, H5.
    exists counts. cbn [outcome final]. rewrite H1, H5.
    assert (Hsplit : ({[ScrapedBook.isbn book]} ∪ offered) ∖ known
              = {[ScrapedBook.isbn book]}
                  ∪ offered ∖ (known ∪ ({[ScrapedBook.isbn book]} ∪ ∅))).
    { apply set_eq. intros x. subst known.
      rewrite !elem_of_difference, !elem_of_union, !elem_of_difference,
        !elem_of_union, !elem_of_singleton, elem_of_list_to_set.
      split.
      - intros [[-> | Hx] Hk]; [by left|].
        destruct (decide (x = ScrapedBook.isbn book)) as [->|Hne]; [by left|].
        right. split; [done|]. intros [? | [? | ?%elem_of_empty]]; done.
      - intros [-> | [Hx Hk]]; [split; [by left | done]|].
        split; [by right|]. intros ?. apply Hk. by left. }
    rewrite Hsplit, size_union, size_singleton by set_solver.
    repeat split; auto; try lia.
    apply set_eq. intros x. set_solver.
Qed.

(** X3.  Whatever the store answers, [insertBooks] returns, and all it does
    to the store is to append rows to the table: one row per book it counts
    as saved, each with the catalog key of a book of its input and with a
    null decision.  No row that was there is changed or removed, no
    checkpoint is touched, and catalog keys that were unique stay unique. *)
Theorem insertBooks_only_appends (books : list ScrapedBook.t) (w : World) :
  let run := insertBooks books w in
  exists counts added,
    outcome run = Ok counts
    /\ ebay_books (final run) = ebay_books w ++ added
    /\ length added = InsertCounts.saved counts
    /\ Forall (fun r => EbayBook.decision r = None
                        /\ EbayBook.evaluated_at r = None
                        /\ exists b, b ∈ books /\ EbayBook.isbn r = ScrapedBook.isbn b)
         added
    /\ fetcher_checkpoints (final run) = fetcher_checkpoints w
    /\ (NoDup (EbayBook.isbn <$> ebay_books w) ->
        NoDup (EbayBook.isbn <$> ebay_books (final run))).
Proof.
  cbn zeta. unfold insertBooks.
  destruct (insertBooks_loop_table books 0 0 0 w)
    as (counts & added & H1 & H2 & H3 & H4 & H5 & _).
  destruct (insertBooks_loop_frame books 0 0 0 w) as (Hcp & _).
  exists counts, added. rewrite H2.
  split; [exact H1|]. split; [done|]. split; [by rewrite H3|].
  split; [|split; [exact Hcp | exact H5]].
  eapply Forall_impl; [exact H4|]. cbn beta.
  intros r (b & id & Hb & ->). split; [done|]. split; [done|]. by exists b.
Qed.

Lemma insertBooks_only_appends_witness :
  NoDup (EbayBook.isbn <$>
           ebay_books
             (final (insertBooks [sample_listing "9780000000002";
                                  sample_listing "9780000000002"]
                       (sample_world [sample_book "9780000000001" "seller-a" 10] [])))).
Proof.
  destruct (insertBooks_only_appends
              [sample_listing "9780000000002"; sample_listing "9780000000002"]
              (sample_world [sample_book "9780000000001" "seller-a" 10] []))
    as (counts & added & _ & _ & _ & _ & _ & Hnodup).
  apply Hnodup. cbn. apply NoDup_singleton.
Defined.

(** X4.  With a store that answers every request, [insertBooks] saves one
    row for each catalog key of its input that the table did not hold yet,
    the first book of the input that bears it, and counts every other book
    of the input as a duplicate, a book that repeats a key of the same input
    included; it counts no error.  The catalog keys of the table are then
    those it held and those of the input. *)
Theorem insertBooks_saves_each_new_key_once (books : list ScrapedBook.t) (w : World) :
  store_reliable w ->
  let known : gset string := list_to_set (EbayBook.isbn <$> ebay_books w) in
  let offered : gset string := list_to_set (ScrapedBook.isbn <$> books) in
  let run := insertBooks books w in
  (size (offered ∖ known) <= length books)%nat
  /\ outcome run
     = Ok (InsertCounts.mk (size (offered ∖ known))
             (length books - size (offered ∖ known)) 0)
  /\ list_to_set (EbayBook.isbn <$> ebay_books (final run)) = known ∪ offered.
Proof.
  intros Hrel known offered run. subst known offered run. unfold insertBooks.
  destruct (insertBooks_loop_reliable books 0 0 0 w Hrel)
    as (counts & H1 & H2 & H3 & H4 & H5 & _).
  cbn [Nat.add] in H2, H3.
  split; [lia|]. split; [|exact H5].
  rewrite H1. f_equal. destruct counts as [s d e].
  cbn [InsertCounts.saved InsertCounts.duplicates InsertCounts.errors] in *.
  f_equal; lia.
Qed.

Lemma insertBooks_saves_each_new_key_once_witness :
  outcome (insertBooks [ sample_listing "9780000000002";
                         sample_listing "9780000000001";
                         sample_listing "9780000000002" ]
             (sample_world [sample_book "9780000000001" "seller-a" 10] []))
  = Ok (InsertCounts.mk 1 2 0).
Proof.
  destruct (insertBooks_saves_each_new_key_once
              [ sample_listing "9780000000002";
                sample_listing "9780000000001";
                sample_listing "9780000000002" ]
              (sample_world [sample_book "9780000000001" "seller-a" 10] []))
    as (_ & Hout & _).
  - constructor.
  - rewrite Hout. vm_compute. reflexivity.
Defined.

(** X5.  With a store that answers every request, a book that
    [insertBooks] is given and whose catalog key the table did not hold is
    listed by a [getPendingBooks] that follows: the row it was saved as has a
    null decision. *)
Theorem inserted_books_are_pending (books : list ScrapedBook.t) (w : World) :
  store_reliable w ->
  let inserted := insertBooks books w in
  let listed := getPendingBooks None (final inserted) in
  exists pending,
    outcome listed = Ok pending
    /\ forall b,
         b ∈ books ->
         ScrapedBook.isbn b ∉ EbayBook.isbn <$> ebay_books w ->
         exists r, r ∈ pending
                   /\ EbayBook.isbn r = ScrapedBook.isbn b
                   /\ EbayBook.decision r = None.
Proof.
  intros Hrel inserted listed. subst inserted listed. unfold insertBooks.
  destruct (insertBooks_loop_table books 0 0 0 w)
    as (counts & added & _ & Htable & _ & Hadded & _).
  destruct (insertBooks_loop_reliable books 0 0 0 w Hrel)
    as (counts' & _ & _ & _ & _ & Hkeys & Hrel').
  set (w' := final (insertBooks_loop books 0 0 0 w)) in *.
  destruct (getPendingBooks_spec None w') as (n & pages & Hout & Hall & _).
  eexists. split; [exact Hout|].
  intros b Hb Hnew.
  assert (Hin : ScrapedBook.isbn b ∈ EbayBook.isbn <$> ebay_books w').
  { apply (elem_of_list_to_set (C := gset string)). rewrite Hkeys.
    apply elem_of_union_r, elem_of_list_to_set. by apply list_elem_of_fmap_2. }
  rewrite Htable, fmap_app, elem_of_app in Hin.
  destruct Hin as [Hin | Hin]; [done|].
  apply list_elem_of_fmap in Hin as (r & Hisbn & Hr).
  assert (Hnone : EbayBook.decision r = None).
  { pose proof (proj1 (Forall_forall _ _) Hadded r Hr) as (b' & id & _ & ->). done. }
  exists r. split; [|by split].
  rewrite take_ge by (by apply Hall).
  unfold pending_rows. rewrite merge_sort_Permutation.
  apply list_elem_of_In, List.filter_In. split.
  - apply list_elem_of_In. rewrite Htable. apply elem_of_app. by right.
  - apply is_pending_spec. by split.
Qed.

Lemma inserted_books_are_pending_witness :
  exists pending,
    outcome (getPendingBooks None
               (final (insertBooks [sample_listing "9780000000002"]
                         (sample_world [] []))))
    = Ok pending
    /\ exists r, r ∈ pending /\ EbayBook.isbn r = "9780000000002"
                 /\ EbayBook.decision r = None.
Proof.
  destruct (inserted_books_are_pending [sample_listing "9780000000002"]
              (sample_world [] [])) as (pending & Hout & Hlisted).
  - constructor.
  - exists pending. split; [exact Hout|].
    apply (Hlisted (sample_listing "9780000000002")).
    + apply list_elem_of_here.
    + cbn. apply not_elem_of_nil.
Defined.

(** ** Listing the pending books: the page reads *)

Lemma getPendingBooks_loop_step (seller : option string) (fuel from : nat)
    (allPending : list EbayBook.t) (w : World) :
  getPendingBooks_loop seller (S fuel) from allPending w =
    let all := pending_rows seller (ebay_books w) in
    let data := take pageSize (drop from all) in
    let w1 := set_faults (tail (db_faults w)) w in
    let ev := EvDb (SelectPending seller from (from + pageSize - 1)) in
    match next_fault w with
    | Some e =>
        mkRun (Ok allPending) w1
          [ev; EvLog ("Error fetching pending books: " +:+ Pg.message e)]
    | None =>
        if Nat.eqb (length data) 0 then mkRun (Ok allPending) w1 [ev]
        else if Nat.ltb (length data) pageSize
        then mkRun (Ok (allPending ++ data)) w1 [ev]
        else
          let next := getPendingBooks_loop seller fuel (from + pageSize)
                        (allPending ++ data) w1 in
          mkRun (outcome next) (final next) (ev :: events next)
    end.
Proof.
  cbn zeta.
  remember (getPendingBooks_loop seller (S fuel) from allPending w) as run eqn:Hrun.
  cbn [getPendingBooks_loop] in Hrun. rewrite run_bind, db_request_run in Hrun.
  unfold and_then at 1 in Hrun. cbn [outcome final events] in Hrun.
  destruct (next_fault w) as [e|]; [by subst|].
  rewrite run_bind in Hrun. unfold gets, and_then in Hrun.
  cbn [outcome final events ebay_books set_faults app] in Hrun.
  rewrite range_page in Hrun.
  destruct (Nat.eqb _ 0); [by subst|].
  destruct (Nat.ltb _ pageSize); by subst.
Qed.

(** With a store that answers, the loop sends one read more than the full
    pages it finds, and nothing else. *)
Lemma getPendingBooks_loop_reliable (seller : option string) (fuel from : nat)
    (acc : list EbayBook.t) (w : World) :
  let all := pending_rows seller (ebay_books w) in
  let run := getPendingBooks_loop seller fuel from acc w in
  store_reliable w ->
  (length all - from < fuel * pageSize)%nat ->
  outcome run = Ok (acc ++ drop from all)
  /\ events run
     = EvDb <$> pending_page_requests seller from (S ((length all - from) / pageSize)).
Proof.
  cbn zeta. revert from acc w.
  induction fuel as [|fuel IH]; intros from acc w Hrel Hfuel; [lia|].
  rewrite getPendingBooks_loop_step. cbn zeta.
  rewrite (store_reliable_next w Hrel).
  set (all := pending_rows seller (ebay_books w)) in *.
  set (data := take pageSize (drop from all)).
  assert (Hlen : length data = Nat.min pageSize (length all - from)).
  { subst data. by rewrite length_take, length_drop. }
  pose proof pageSize_pos as Hpos.
  rewrite pending_page_requests_S.
  destruct (Nat.eqb_spec (length data) 0) as [H0|H0].
  - assert (Hnil : drop from all = []).
    { apply length_zero_iff_nil. rewrite length_drop. lia. }
    rewrite Hnil, app_nil_r. rewrite pages_short by lia. done.
  - destruct (Nat.ltb_spec (length data) pageSize) as [Hshort|Hfull].
    + assert (data = drop from all) as ->.
      { subst data. apply take_ge. rewrite length_drop. lia. }
      rewrite pages_short by lia. done.
    + destruct (IH (from + pageSize)%nat (acc ++ data)
                  (set_faults (tail (db_faults w)) w)) as (H1 & H2).
      { by apply store_reliable_tail. }
      { cbn [ebay_books set_faults]. fold all. cbn [Nat.mul] in Hfuel. lia. }
      cbn [ebay_books set_faults] in H1, H2. fold all in H1, H2.
      cbn [outcome final events]. rewrite H1, H2.
      split.
      * f_equal. subst data. rewrite <- app_assoc. f_equal.
        rewrite <- drop_drop. apply take_drop.
      * rewrite (pages_step (length all - from)) by lia.
        replace (length all - (from + pageSize))%nat
          with (length all - from - pageSize)%nat by lia.
        reflexivity.
Qed.

(** A read that fails after [k] full pages ends the loop with the rows of
    those pages. *)
Lemma getPendingBooks_loop_failure (seller : option string) (fuel from : nat)
    (acc : list EbayBook.t) (w : World) (k : nat) (e : Pg.Error)
    (rest : list (option Pg.Error)) :
  let all := pending_rows seller (ebay_books w) in
  let run := getPendingBooks_loop seller fuel from acc w in
  db_faults w = replicate k None ++ Some e :: rest ->
  (from + k * pageSize <= length all)%nat ->
  (k < fuel)%nat ->
  outcome run = Ok (acc ++ take (k * pageSize) (drop from all))
  /\ events run
     = (EvDb <$> pending_page_requests seller from (S k))
         ++ [EvLog ("Error fetching pending books: " +:+ Pg.message e)]
  /\ db_faults (final run) = rest.
Proof.
  cbn zeta. revert from acc w k.
  induction fuel as [|fuel IH]; intros from acc w k Hfaults Hk Hfuel; [lia|].
  rewrite getPendingBooks_loop_step. cbn zeta.
  unfold next_fault. rewrite Hfaults.
  set (all := pending_rows seller (ebay_books w)) in *.
  rewrite pending_page_requests_S.
  destruct k as [|k]; cbn [replicate app tail].
  - cbn [outcome final events set_faults db_faults Nat.mul take].
    by rewrite app_nil_r.
  - set (data := take pageSize (drop from all)).
    assert (Hlen : length data = pageSize).
    { subst data. rewrite length_take, length_drop. cbn [Nat.mul] in Hk. lia. }
    pose proof pageSize_pos as Hpos.
    rewrite Hlen. rewrite (proj2 (Nat.eqb_neq _ _)) by lia.
    rewrite (proj2 (Nat.ltb_ge _ _)) by lia.
    destruct (IH (from + pageSize)%nat (acc ++ data)
                (set_faults (replicate k None ++ Some e :: rest) w) k)
      as (H1 & H2 & H3).
    { reflexivity. }
    { cbn [ebay_books set_faults]. fold all. cbn [Nat.mul] in Hk. lia. }
    { lia. }
    cbn [ebay_books set_faults] in H1. fold all in H1.
    cbn [outcome final events]. rewrite H1, H2, H3.
    split; [|done].
    f_equal. subst data. cbn [Nat.mul].
    rewrite <- app_assoc. f_equal.
    by rewrite <- drop_drop, <- take_take_drop.
Qed.

Lemma getPendingBooks_unfold (seller : option string) (w : World) :
  getPendingBooks seller w
  = getPendingBooks_loop seller (S (length (ebay_books w))) 0 [] w.
Proof.
  unfold getPendingBooks. rewrite run_bind. unfold gets, and_then.
  cbn [outcome final events app].
  by destruct (getPendingBooks_loop _ _ _ _ _).
Qed.

Lemma getPendingBooks_fuel (seller : option string) (w : World) :
  (length (pending_rows seller (ebay_books w)) - 0
   < S (length (ebay_books w)) * pageSize)%nat.
Proof.
  unfold pending_rows. rewrite merge_sort_Permutation.
  pose proof (filter_length (is_pending seller) (ebay_books w)).
  pose proof pageSize_pos. nia.
Qed.

(** X6.  A read that fails ends [getPendingBooks] with what it has read:
    when the first [k] reads are answered, each with a full page of 1000
    rows, and the next read fails, the function logs the error and returns,
    without throwing, the first [k] * 1000 rows of the pending query, the
    oldest ones; the rest of the pending books is silently left out. *)
Theorem getPendingBooks_stops_at_failed_read (seller : option string) (w : World)
    (k : nat) (e : Pg.Error) (rest : list (option Pg.Error)) :
  let all := pending_rows seller (ebay_books w) in
  let run := getPendingBooks seller w in
  db_faults w = replicate k None ++ Some e :: rest ->
  (k * pageSize <= length all)%nat ->
  outcome run = Ok (take (k * pageSize) all)
  /\ events run
     = (EvDb <$> pending_page_requests seller 0 (S k))
         ++ [EvLog ("Error fetching pending books: " +:+ Pg.message e)]
  /\ db_faults (final run) = rest.
Proof.
  intros all run Hfaults Hk. subst all run. rewrite getPendingBooks_unfold.
  destruct (getPendingBooks_loop_failure seller (S (length (ebay_books w))) 0 [] w
              k e rest Hfaults) as (H1 & H2 & H3).
  - exact Hk.
  - pose proof (getPendingBooks_fuel seller w). pose proof pageSize_pos. nia.
  - by rewrite H1, H2, H3.
Qed.

Lemma getPendingBooks_stops_at_failed_read_witness :
  outcome (getPendingBooks None
             (sample_world [ sample_book "9780000000001" "seller-a" 10;
                             sample_book "9780000000002" "seller-a" 20 ]
                [Some timeout_error]))
  = Ok [].
Proof.
  apply (getPendingBooks_stops_at_failed_read None
           (sample_world [ sample_book "9780000000001" "seller-a" 10;
                           sample_book "9780000000002" "seller-a" 20 ]
              [Some timeout_error])
           0%nat timeout_error []).
  - reflexivity.
  - cbn. lia.
Defined.

(** X7.  With a store that answers every request, [getPendingBooks] sends
    nothing but its page reads, for the ranks 0 to 999, 1000 to 1999 and so
    on, and stops at the first page that is not full: one read more than
    there are full pages, so that a number of pending books that is a
    multiple of 1000, zero included, costs a last read that returns
    nothing. *)
Theorem getPendingBooks_page_reads (seller : option string) (w : World) :
  store_reliable w ->
  let all := pending_rows seller (ebay_books w) in
  events (getPendingBooks seller w)
  = EvDb <$> pending_page_requests seller 0 (S (length all / pageSize)).
Proof.
  intros Hrel all. subst all. rewrite getPendingBooks_unfold.
  destruct (getPendingBooks_loop_reliable seller (S (length (ebay_books w))) 0 [] w
              Hrel (getPendingBooks_fuel seller w)) as (_ & H2).
  by rewrite H2, Nat.sub_0_r.
Qed.

Lemma getPendingBooks_page_reads_witness :
  events (getPendingBooks None (sample_world [] []))
  = [EvDb (SelectPending None 0 999)].
Proof.
  apply (getPendingBooks_page_reads None (sample_world [] [])).
  constructor.
Defined.

(** ** Checkpoints: writing and reading back *)

(** X8.  [saveCheckpoint] never throws and touches neither the books nor the
    checkpoint of any other (seller, search) pair.  When the store accepts
    the write, the pair has one row, holding the offset and the time of the
    call, and a [getCheckpoint] of the pair that follows returns that offset
    if its read succeeds; when the store refuses the write, the checkpoints
    are as they were and the error is logged. *)
Theorem saveCheckpoint_then_getCheckpoint (seller key : string) (offset : N)
    (w : World) :
  let saved := saveCheckpoint seller key offset w in
  let read := getCheckpoint seller key (final saved) in
  outcome saved = Ok tt
  /\ ebay_books (final saved) = ebay_books w
  /\ (forall other, other <> (seller, key) ->
        fetcher_checkpoints (final saved) !! other = fetcher_checkpoints w !! other)
  /\ (next_fault w = None ->
        fetcher_checkpoints (final saved) !! (seller, key)
        = Some (Checkpoint.mk offset (clock w))
        /\ events saved = [EvDb (UpsertCheckpoint seller key offset (clock w))]
        /\ (next_fault (final saved) = None -> outcome read = Ok offset))
  /\ (forall e, next_fault w = Some e ->
        fetcher_checkpoints (final saved) = fetcher_checkpoints w
        /\ events saved
           = [ EvDb (UpsertCheckpoint seller key offset (clock w));
               EvLog ("  Checkpoint save error: " +:+ Pg.message e) ]).
Proof.
  intros saved read. subst saved read.
  rewrite getCheckpoint_run, saveCheckpoint_run, upsert_checkpoint_run.
  cbn [outcome final events].
  split; [done|]. split; [by destruct (next_fault w)|].
  split; [|split].
  - intros other Hother. destruct (next_fault w); [done|].
    cbn. by rewrite lookup_insert_ne.
  - intros ->. cbn [fetcher_checkpoints set_checkpoints set_faults].
    rewrite lookup_insert_eq. split; [done|]. split; [done|].
    by intros ->.
  - by intros e ->.
Qed.

Lemma saveCheckpoint_then_getCheckpoint_witness :
  outcome (getCheckpoint "seller-a" "books"
             (final (saveCheckpoint "seller-a" "books" 1200 (checkpoint_world []))))
  = Ok 1200%N.
Proof.
  apply (proj1 (proj2 (proj2 (proj2
    (saveCheckpoint_then_getCheckpoint "seller-a" "books" 1200 (checkpoint_world []))))));
    reflexivity.
Defined.

(** ** Updates: unknown keys and successive evaluations *)

Lemma update_where_isbn_keys (isbn : string) (stamp : Timestamp) (ev : Evaluation.t)
    (rows : list EbayBook.t) :
  EbayBook.isbn <$> update_where_isbn isbn (cleanEval_of stamp ev) rows
  = EbayBook.isbn <$> rows.
Proof.
  unfold update_where_isbn. rewrite <- list_fmap_compose.
  apply list_fmap_ext. intros _ r _. unfold compose.
  destruct (String.eqb (EbayBook.isbn r) isbn); [|done].
  by rewrite update_row_cleanEval.
Qed.

Lemma update_where_isbn_unknown (isbn : string) (body : gmap string JsVal)
    (rows : list EbayBook.t) :
  isbn ∉ EbayBook.isbn <$> rows -> update_where_isbn isbn body rows = rows.
Proof.
  intros Hnew. unfold update_where_isbn.
  rewrite <- (list_fmap_id rows) at 2.
  apply list_fmap_ext. intros i r Hr.
  destruct (String.eqb_spec (EbayBook.isbn r) isbn) as [<-|]; [|done].
  exfalso. apply Hnew. apply list_elem_of_fmap_2.
  by eapply list_elem_of_lookup_2.
Qed.

(** X9.  [updateBookEvaluation] adds no row, removes none and changes no
    catalog key, whatever the store answers.  For a catalog key that the
    table does not hold, an update that the store accepts changes nothing,
    and the call still returns true: its result says that the request went
    through, not that a book was updated. *)
Theorem updateBookEvaluation_unknown_key (isbn : string) (ev : Evaluation.t)
    (w : World) :
  let run := updateBookEvaluation isbn ev w in
  EbayBook.isbn <$> ebay_books (final run) = EbayBook.isbn <$> ebay_books w
  /\ length (ebay_books (final run)) = length (ebay_books w)
  /\ fetcher_checkpoints (final run) = fetcher_checkpoints w
  /\ (next_fault w = None ->
      isbn ∉ EbayBook.isbn <$> ebay_books w ->
      outcome run = Ok true
      /\ ebay_books (final run) = ebay_books w
      /\ events run = [EvDb (UpdateBook isbn (cleanEval_of (clock w) ev))]).
Proof.
  intros run. subst run. rewrite updateBookEvaluation_run. cbn zeta.
  assert (Hkeys : EbayBook.isbn <$>
            update_where_isbn isbn (cleanEval_of (clock w) ev) (ebay_books w)
            = EbayBook.isbn <$> ebay_books w) by apply update_where_isbn_keys.
  split; [|split; [|split]].
  - by destruct (next_fault w).
  - destruct (next_fault w); [done|]. cbn [final ebay_books set_books set_faults].
    by rewrite <- (length_fmap EbayBook.isbn), Hkeys, length_fmap.
  - by destruct (next_fault w).
  - intros -> Hnew. cbn [outcome final events ebay_books set_books set_faults].
    by rewrite update_where_isbn_unknown.
Qed.

Lemma updateBookEvaluation_unknown_key_witness :
  outcome (updateBookEvaluation "9780000000009" no_data_evaluation
             (sample_world [sample_book "9780000000001" "seller-a" 10] []))
  = Ok true
  /\ ebay_books
       (final (updateBookEvaluation "9780000000009" no_data_evaluation
                 (sample_world [sample_book "9780000000001" "seller-a" 10] [])))
     = [sample_book "9780000000001" "seller-a" 10].
Proof.
  destruct (updateBookEvaluation_unknown_key "9780000000009" no_data_evaluation
              (sample_world [sample_book "9780000000001" "seller-a" 10] []))
    as (_ & _ & _ & H).
  destruct H as (Hout & Hbooks & _).
  - reflexivity.
  - cbn. intros Hin%list_elem_of_singleton. discriminate.
  - split; [exact Hout | exact Hbooks].
Defined.

Lemma written_written {A : Type} (later earlier old : option A) :
  written later (written earlier old) = written (written later earlier) old.
Proof. by destruct later. Qed.

Lemma written_number_written (later earlier old : option number) :
  written_number later (written_number earlier old)
  = written_number (written later earlier) old.
Proof. by destruct later as [[]|]. Qed.

Lemma update_row_twice (stamp : Timestamp) (earlier later : Evaluation.t)
    (r : EbayBook.t) :
  update_row (cleanEval_of stamp later) (update_row (cleanEval_of stamp earlier) r)
  = update_row (cleanEval_of stamp (merge_evaluations earlier later)) r.
Proof.
  rewrite !update_row_cleanEval.
  cbn [EbayBook.id EbayBook.isbn EbayBook.title EbayBook.price EbayBook.condition
       EbayBook.seller EbayBook.category EbayBook.ebay_item_id EbayBook.ebay_url
       EbayBook.image_url EbayBook.shipping EbayBook.scraped_at EbayBook.decision
       EbayBook.asin EbayBook.amazon_price EbayBook.sales_rank
       EbayBook.sales_rank_drops_90 EbayBook.fba_profit EbayBook.fbm_profit
       EbayBook.amazon_flag EbayBook.book_type EbayBook.weight_oz
       EbayBook.evaluated_at EbayBook.bought_at merge_evaluations
       Evaluation.decision Evaluation.asin Evaluation.amazon_price
       Evaluation.sales_rank Evaluation.sales_rank_drops_90 Evaluation.fba_profit
       Evaluation.fbm_profit Evaluation.amazon_flag Evaluation.book_type
       Evaluation.weight_oz].
  by rewrite !written_written, !written_number_written.
Qed.

(** X10.  Two evaluations of a book written one after the other, both
    accepted by the store, leave the table as one evaluation would that holds
    the decision of the later one and, field by field, the value of the later
    one where it defines the field and the value of the earlier one where it
    does not: a field that the later evaluation leaves out keeps what the
    earlier one wrote. *)
Theorem later_evaluation_keeps_omitted_fields (isbn : string)
    (earlier later : Evaluation.t) (w : World) :
  store_reliable w ->
  let twice := (updateBookEvaluation isbn earlier;; updateBookEvaluation isbn later) w in
  let once := updateBookEvaluation isbn (merge_evaluations earlier later) w in
  outcome twice = Ok true
  /\ outcome once = Ok true
  /\ ebay_books (final twice) = ebay_books (final once).
Proof.
  intros Hrel twice once. subst twice once.
  pose proof (store_reliable_next w Hrel) as Hnext.
  pose proof (store_reliable_next _ (store_reliable_tail w Hrel)) as Hnext'.
  rewrite run_bind, !updateBookEvaluation_run. cbn zeta. rewrite Hnext.
  unfold and_then. cbn [outcome final events].
  rewrite updateBookEvaluation_run. cbn zeta.
  change (next_fault (set_books _ ?w')) with (next_fault w').
  rewrite Hnext'. cbn [outcome final ebay_books set_books set_faults clock].
  split; [done|]. split; [done|].
  unfold update_where_isbn. rewrite <- list_fmap_compose.
  apply list_fmap_ext. intros _ r _. unfold compose.
  destruct (String.eqb (EbayBook.isbn r) isbn) eqn:Hr.
  - rewrite update_row_cleanEval at 1. cbn [EbayBook.isbn]. rewrite Hr.
    rewrite <- update_row_twice. by rewrite (update_row_cleanEval _ earlier).
  - by rewrite Hr.
Qed.

Lemma later_evaluation_keeps_omitted_fields_witness :
  EbayBook.asin <$>
    ebay_books
      (final ((updateBookEvaluation "9780000000001"
                 (evaluation_of Js.Fin (sample_engine tt (Js.num 13)));;
               updateBookEvaluation "9780000000001" no_data_evaluation)
                (sample_world [sample_book "9780000000001" "seller-a" 10] [])))
  = [Some "B000000001"].
Proof.
  destruct (later_evaluation_keeps_omitted_fields "9780000000001"
              (evaluation_of Js.Fin (sample_engine tt (Js.num 13)))
              no_data_evaluation
              (sample_world [sample_book "9780000000001" "seller-a" 10] []))
    as (_ & _ & Hbooks).
  - constructor.
  - rewrite Hbooks. vm_compute. reflexivity.
Defined.

(** ** Numbers: the window of [safeInt] *)

Lemma Qfloor_ge_iff (a : Z) (x : Q) : a <= Qfloor x <-> (inject_Z a <= x)%Q.
Proof.
  split.
  - intros H. eapply Qle_trans; [|apply Qfloor_le].
    rewrite <- Zle_Qle. exact H.
  - intros H. apply Qfloor_resp_le in H. by rewrite Qfloor_Z in H.
Qed.

Lemma Qfloor_le_iff (b : Z) (x : Q) : Qfloor x <= b <-> (x < inject_Z (b + 1))%Q.
Proof.
  split.
  - intros H. eapply Qlt_le_trans; [apply Qlt_floor|].
    rewrite <- Zle_Qle. lia.
  - intros H. destruct (Z.le_gt_cases (Qfloor x) b) as [Hle|Hgt]; [done|].
    exfalso. assert (Hb : b + 1 <= Qfloor x) by lia.
    apply Qfloor_ge_iff in Hb. apply (Qlt_irrefl x).
    eapply Qlt_le_trans; [exact H | exact Hb].
Qed.

Lemma half_shift_le (a : Z) (q : Q) :
  (inject_Z a <= q + (1 # 2))%Q <-> (inject_Z a - (1 # 2) <= q)%Q.
Proof.
  rewrite <- (Qplus_le_l (inject_Z a - (1 # 2)) q (1 # 2)).
  assert (Heq : (inject_Z a - (1 # 2) + (1 # 2) == inject_Z a)%Q) by ring.
  by rewrite Heq.
Qed.

Lemma half_shift_lt (b : Z) (q : Q) :
  (q + (1 # 2) < inject_Z (b + 1))%Q <-> (q < inject_Z b + (1 # 2))%Q.
Proof.
  rewrite <- (Qplus_lt_l q (inject_Z b + (1 # 2)) (1 # 2)).
  assert (Heq : (inject_Z b + (1 # 2) + (1 # 2) == inject_Z (b + 1))%Q)
    by (rewrite inject_Z_plus; ring).
  by rewrite Heq.
Qed.

(** X11.  In terms of its argument, [safeInt] keeps a finite number exactly
    when it lies in the window from -2,000,000,000.5 included to
    2,000,000,000.5 excluded: [Math.round] rounds a tie upwards, so the lower
    end of the window is kept and the upper end is dropped.  What it returns
    is an integer, which a second rounding or a second [safeInt] gives back
    unchanged: the cents, rounded once before the guard, are not altered by
    it. *)
Theorem safeInt_window :
  (forall q : Q,
      (exists n, safeInt (Some (Js.Fin q)) = Some (Js.num n))
      <-> (inject_Z (-2000000000) - (1 # 2) <= q
           /\ q < inject_Z 2000000000 + (1 # 2))%Q)
  /\ (forall x : number, safeInt (Some (Js.Math_round x)) = safeInt (Some x))
  /\ (forall v : option number, safeInt (safeInt v) = safeInt v).
Proof.
  assert (Hround : forall x, safeInt (Some (Js.Math_round x)) = safeInt (Some x)).
  { intros [| s | q]; try reflexivity.
    cbn [Js.Math_round]. unfold Js.num at 1.
    rewrite !safeInt_finite, round_half_up_integer. reflexivity. }
  split; [|split; [exact Hround|]].
  - intros q. rewrite safeInt_finite. unfold Js.round_half_up.
    assert (Hlo : -2000000000 <= Qfloor (q + (1 # 2))
                  <-> (inject_Z (-2000000000) - (1 # 2) <= q)%Q).
    { rewrite Qfloor_ge_iff. apply half_shift_le. }
    assert (Hhi : Qfloor (q + (1 # 2)) <= 2000000000
                  <-> (q < inject_Z 2000000000 + (1 # 2))%Q).
    { rewrite Qfloor_le_iff. apply half_shift_lt. }
    rewrite <- Hlo, <- Hhi.
    destruct (Z.ltb_spec 2000000000 (Qfloor (q + (1 # 2))));
      destruct (Z.ltb_spec (Qfloor (q + (1 # 2))) (-2000000000)); cbn [orb];
      (split; [intros [n Hn]; try discriminate; lia | intros [? ?]; try lia; eauto]).
  - intros v. destruct (safeInt v) as [r|] eqn:Hv; [|reflexivity].
    destruct (safeInt_some v r Hv) as (q & -> & -> & Hb).
    change (Js.num (Js.round_half_up q)) with (Js.Math_round (Js.Fin q)) at 1.
    rewrite Hround. exact Hv.
Qed.

Section EvaluateTraces.

Variable fl : Q -> number.
Variable KeepaProduct : Type.
Variable keepa : string -> KeepaReply KeepaProduct.
Variable evaluateBook : KeepaProduct -> number -> KeepaEval.t.
Variable KEEPA_DELAY_MS : N.

Local Abbreviation book_turn :=
  (evaluate_book fl KeepaProduct keepa evaluateBook KEEPA_DELAY_MS).
Local Abbreviation loop_of :=
  (evaluate_loop fl KeepaProduct keepa evaluateBook KEEPA_DELAY_MS).
Local Abbreviation pending_run :=
  (evaluatePendingBooks fl KeepaProduct keepa evaluateBook KEEPA_DELAY_MS).

(** The lookup of the book answers: with a product or with no data. *)
Local Abbreviation answers :=
  (fun book : EbayBook.t => forall e, keepa (EbayBook.isbn book) <> KeepaThrows e).

(** What one turn of the loop leaves, when the lookup answers. *)
Lemma evaluate_book_answers (total : nat) (book : EbayBook.t) (c : EvalCounts.t)
    (w : World) :
  answers book ->
  let run := book_turn total book c w in
  (exists c', outcome run = Ok c'
              /\ EvalCounts.evaluated c' = S (EvalCounts.evaluated c))
  /\ updated_isbns (events run) = [EbayBook.isbn book]
  /\ sleeps (events run) = [KEEPA_DELAY_MS]
  /\ keepa_calls (events run) = [Acquire; Lookup (EbayBook.isbn book)]
  /\ clock (final run) = (clock w + KEEPA_DELAY_MS)%N
  /\ EbayBook.isbn <$> ebay_books (final run) = EbayBook.isbn <$> ebay_books w
  /\ fetcher_checkpoints (final run) = fetcher_checkpoints w
  /\ totalNew (final run) = totalNew w
  /\ (forall i r, ebay_books w !! i = Some r ->
        EbayBook.isbn r <> EbayBook.isbn book ->
        ebay_books (final run) !! i = Some r)
  /\ (store_reliable w -> store_reliable (final run)).
Proof.
  intros Hanswers run. subst run. rewrite evaluate_book_run.
  assert (Hturn : forall c' ev line,
    EvalCounts.evaluated c' = S (EvalCounts.evaluated c) ->
    let run := turn KEEPA_DELAY_MS total book c' ev line w in
    (exists c'', outcome run = Ok c''
                 /\ EvalCounts.evaluated c'' = S (EvalCounts.evaluated c))
    /\ updated_isbns (events run) = [EbayBook.isbn book]
    /\ sleeps (events run) = [KEEPA_DELAY_MS]
    /\ keepa_calls (events run) = [Acquire; Lookup (EbayBook.isbn book)]
    /\ clock (final run) = (clock w + KEEPA_DELAY_MS)%N
    /\ EbayBook.isbn <$> ebay_books (final run) = EbayBook.isbn <$> ebay_books w
    /\ fetcher_checkpoints (final run) = fetcher_checkpoints w
    /\ totalNew (final run) = totalNew w
    /\ (forall i r, ebay_books w !! i = Some r ->
          EbayBook.isbn r <> EbayBook.isbn book ->
          ebay_books (final run) !! i = Some r)
    /\ (store_reliable w -> store_reliable (final run))).
  { intros c' ev line Hc' run. subst run. unfold turn.
    rewrite updateBookEvaluation_run. cbn zeta.
    destruct (next_fault w) as [err|] eqn:Hfault;
      cbn [outcome final events app updated_isbns sleeps keepa_calls omap list_omap
           clock set_clock set_faults set_books ebay_books fetcher_checkpoints totalNew];
      (split; [by exists c'|]); repeat split; try done;
      try (intros Hrel; by apply (store_reliable_tail w Hrel)).
    - apply update_where_isbn_keys.
    - intros i r Hr Hne. unfold update_where_isbn. rewrite list_lookup_fmap, Hr.
      cbn. by rewrite (proj2 (String.eqb_neq _ _) Hne). }
  destruct (keepa (EbayBook.isbn book)) as [e| |raw] eqn:Hkeepa.
  - by destruct (Hanswers e).
  - by apply Hturn.
  - cbn zeta. apply Hturn. by destruct (KeepaEval.decision _).
Qed.

(** The loop over the books whose lookups answer, followed by the loop over
    what remains. *)
Lemma evaluate_loop_app (total : nat) (before after : list EbayBook.t)
    (c : EvalCounts.t) (w : World) :
  Forall answers before ->
  exists c1 w1 evs,
    loop_of total (before ++ after) c w
    = mkRun (outcome (loop_of total after c1 w1)) (final (loop_of total after c1 w1))
        (evs ++ events (loop_of total after c1 w1))
    /\ EvalCounts.evaluated c1 = (EvalCounts.evaluated c + length before)%nat
    /\ updated_isbns evs = EbayBook.isbn <$> before
    /\ sleeps evs = replicate (length before) KEEPA_DELAY_MS
    /\ keepa_calls evs
       = flat_map (fun book => [Acquire; Lookup (EbayBook.isbn book)]) before
    /\ clock w1 = (clock w + N.of_nat (length before) * KEEPA_DELAY_MS)%N
    /\ EbayBook.isbn <$> ebay_books w1 = EbayBook.isbn <$> ebay_books w
    /\ fetcher_checkpoints w1 = fetcher_checkpoints w
    /\ totalNew w1 = totalNew w
    /\ (forall i r, ebay_books w !! i = Some r ->
          EbayBook.isbn r ∉ EbayBook.isbn <$> before ->
          ebay_books w1 !! i = Some r)
    /\ (store_reliable w -> store_reliable w1).
Proof.
  intros Hbefore. revert c w.
  induction Hbefore as [|book before Hbook _ IH]; intros c w.
  { exists c, w, []. cbn [app length replicate fmap list_fmap flat_map].
    split; [by destruct (loop_of total after c w)|].
    repeat split; auto; try lia. }
  cbn [app evaluate_loop]. rewrite run_bind.
  destruct (evaluate_book_answers total book c w Hbook)
    as ((c' & Hout & Hc') & Hup & Hsl & Hcalls & Hclock & Hkeys & Hcp & Htot & Hframe & Hrel).
  rewrite (and_then_ok _ _ _ Hout).
  destruct (IH c' (final (book_turn total book c w)))
    as (c1 & w1 & evs & Hrun & H1 & H2 & H3 & H4 & H5 & H6 & H7 & H8 & H9 & H10).
  exists c1, w1, (events (book_turn total book c w) ++ evs).
  rewrite Hrun. cbn [outcome final events length replicate fmap list_fmap flat_map].
  unfold updated_isbns, sleeps, keepa_calls in *.
  rewrite !omap_app, Hup, Hsl, Hcalls, H2, H3, H4, H5, H6, H7, H8, Hclock, Hkeys, Hcp, Htot.
  split; [by rewrite app_assoc|]. split; [lia|].
  repeat split; auto; try lia.
  - intros i r Hr Hnot. apply H9.
    + apply Hframe; [done|]. intros Heq. apply Hnot. rewrite Heq. apply list_elem_of_here.
    + intros Hin. apply Hnot. by apply list_elem_of_further.
Qed.

Lemma evaluate_loop_nil (total : nat) (c : EvalCounts.t) (w : World) :
  loop_of total [] c w = mkRun (Ok c) w [].
Proof. reflexivity. Qed.

(** A lookup that throws ends the loop there. *)
Lemma evaluate_loop_throw (total : nat) (book : EbayBook.t) (after : list EbayBook.t)
    (c : EvalCounts.t) (w : World) (e : string) :
  keepa (EbayBook.isbn book) = KeepaThrows e ->
  loop_of total (book :: after) c w
  = mkRun (Thrown e) w [EvWaitForKeepaTokens; EvGetProductByIsbn (EbayBook.isbn book)].
Proof.
  intros Hthrow. cbn [evaluate_loop]. rewrite run_bind, evaluate_book_run, Hthrow.
  by rewrite (and_then_thrown _ _ e).
Qed.

(** A run of the loop either returns, and then every lookup answered, or
    throws what the first lookup that throws has thrown. *)
Lemma evaluate_loop_outcome (total : nat) (pending : list EbayBook.t)
    (c : EvalCounts.t) (w : World) :
  match outcome (loop_of total pending c w) with
  | Ok _ => Forall answers pending
  | Thrown e =>
      exists before book after,
        pending = before ++ book :: after
        /\ Forall answers before
        /\ keepa (EbayBook.isbn book) = KeepaThrows e
  end.
Proof.
  revert c w. induction pending as [|book rest IH]; intros c w; [by constructor|].
  destruct (keepa (EbayBook.isbn book)) as [e| |raw] eqn:Hkeepa.
  { rewrite (evaluate_loop_throw _ _ _ _ _ e Hkeepa). cbn [outcome].
    exists [], book, rest. by repeat split. }
  all: assert (Hbook : answers book) by (intros e; rewrite Hkeepa; discriminate).
  all: cbn [evaluate_loop]; rewrite run_bind;
    destruct (evaluate_book_answers total book c w Hbook) as ((c' & Hout & _) & _);
    rewrite (and_then_ok _ _ _ Hout); cbn [outcome];
    specialize (IH c' (final (book_turn total book c w)));
    destruct (outcome (loop_of total rest c' _)) as [c''|e].
  all: try (by constructor).
  all: destruct IH as (before & book' & after & -> & Hbefore & Hthrow);
    exists (book :: before), book', after; repeat split; auto.
Qed.

(** The listing touches neither the clock nor the tables, pauses nowhere and
    updates nothing. *)
Lemma getPendingBooks_loop_quiet (seller : option string) (fuel from : nat)
    (acc : list EbayBook.t) (w : World) :
  let run := getPendingBooks_loop seller fuel from acc w in
  updated_isbns (events run) = []
  /\ sleeps (events run) = []
  /\ upserted_offsets (events run) = []
  /\ clock (final run) = clock w
  /\ fetcher_checkpoints (final run) = fetcher_checkpoints w
  /\ totalNew (final run) = totalNew w.
Proof.
  cbn zeta. revert from acc w.
  induction fuel as [|fuel IH]; intros from acc w; [done|].
  rewrite getPendingBooks_loop_step. cbn zeta.
  destruct (next_fault w) as [e|]; [done|].
  destruct (Nat.eqb _ 0); [done|].
  destruct (Nat.ltb _ pageSize); [done|].
  cbn [outcome final events].
  destruct (IH (from + pageSize)%nat
              (acc ++ take pageSize (drop from (pending_rows seller (ebay_books w))))
              (set_faults (tail (db_faults w)) w)) as (H1 & H2 & H3 & H4 & H5 & H6).
  unfold updated_isbns, sleeps, upserted_offsets in *. cbn [omap list_omap].
  by rewrite H1, H2, H3, H4, H5, H6.
Qed.

Lemma getPendingBooks_quiet (seller : option string) (w : World) :
  let run := getPendingBooks seller w in
  updated_isbns (events run) = []
  /\ sleeps (events run) = []
  /\ upserted_offsets (events run) = []
  /\ clock (final run) = clock w
  /\ fetcher_checkpoints (final run) = fetcher_checkpoints w
  /\ totalNew (final run) = totalNew w.
Proof.
  cbn zeta. unfold getPendingBooks. rewrite run_bind. unfold gets, and_then.
  cbn [outcome final events app].
  apply getPendingBooks_loop_quiet.
Qed.

(** The books listed are rows of the table with a null decision. *)
Lemma getPendingBooks_listed (seller : option string) (w : World)
    (pending : list EbayBook.t) :
  outcome (getPendingBooks seller w) = Ok pending ->
  forall b, b ∈ pending -> b ∈ ebay_books w /\ EbayBook.decision b = None.
Proof.
  intros Hout b Hb.
  destruct (getPendingBooks_spec seller w) as (n & pages & Hlist & _).
  rewrite Hout in Hlist. injection Hlist as ->.
  apply subseteq_take in Hb. unfold pending_rows in Hb.
  rewrite merge_sort_Permutation in Hb.
  apply list_elem_of_In, List.filter_In in Hb as [Hin Hp].
  split; [by apply list_elem_of_In|].
  by apply is_pending_spec in Hp as [? _].
Qed.

Lemma pending_rows_none (seller : option string) (rows : list EbayBook.t) :
  Forall (fun r => is_pending seller r = false) rows ->
  pending_rows seller rows = [].
Proof.
  intros Hnone. apply Permutation_nil_r. unfold pending_rows.
  rewrite merge_sort_Permutation.
  induction Hnone as [|r rows Hr _ IH]; [done|].
  cbn [List.filter]. by rewrite Hr.
Qed.


Lemma getPendingBooks_none_pending (seller : option string) (w : World) :
  Forall (fun r => is_pending seller r = false) (ebay_books w) ->
  outcome (getPendingBooks seller w) = Ok [].
Proof.
  intros Hnone.
  destruct (getPendingBooks_spec seller w) as (n & pages & Hlist & _).
  by rewrite Hlist, (pending_rows_none seller _ Hnone), take_nil.
Qed.

(** With nothing listed, the run is the listing and the announcement. *)
Lemma evaluatePendingBooks_idle (seller : option string) (w : World) :
  outcome (getPendingBooks seller w) = Ok [] ->
  let run := pending_run seller w in
  outcome run = Ok (EvalCounts.mk 0 0 0 0 0)
  /\ keepa_calls (events run) = []
  /\ sleeps (events run) = []
  /\ updated_isbns (events run) = []
  /\ events run
     = events (getPendingBooks seller w)
         ++ [EvLog (newline +:+ "Evaluating 0 pending books...")]
  /\ ebay_books (final run) = ebay_books w
  /\ clock (final run) = clock w.
Proof.
  intros Hnothing run. subst run.
  destruct (evaluatePendingBooks_run fl KeepaProduct keepa evaluateBook KEEPA_DELAY_MS
              seller w) as (pending & Hpending & Hquiet & Hout & Hfinal & Hevents).
  destruct (getPendingBooks_spec seller w) as (n & pages & Hlist & _ & Hbooks & _).
  destruct (getPendingBooks_quiet seller w) as (Hup & Hsl & _ & Hclock & _).
  assert (Hnil : pending = []) by congruence.
  subst pending. cbn [length Nat.ltb Nat.leb app] in *.
  rewrite evaluate_loop_nil in *. cbn [outcome final events] in *.
  rewrite Hout, Hfinal, Hevents, Hbooks, Hclock.
  unfold keepa_calls, sleeps, updated_isbns in *. rewrite !omap_app, Hquiet, Hup, Hsl.
  repeat split; reflexivity.
Qed.


(** The run over the books listed: the loop, after the listing and the first
    acquisition. *)
Lemma evaluatePendingBooks_split (seller : option string) (w : World)
    (before after : list EbayBook.t) :
  outcome (getPendingBooks seller w) = Ok (before ++ after) ->
  Forall answers before ->
  exists c1 w1,
    let rest := loop_of (length (before ++ after)) after c1 w1 in
    outcome (pending_run seller w) = outcome rest
    /\ final (pending_run seller w) = final rest
    /\ keepa_calls (events (pending_run seller w))
       = (if Nat.ltb 0 (length (before ++ after)) then [Acquire] else [])
           ++ flat_map (fun b => [Acquire; Lookup (EbayBook.isbn b)]) before
           ++ keepa_calls (events rest)
    /\ updated_isbns (events (pending_run seller w))
       = (EbayBook.isbn <$> before) ++ updated_isbns (events rest)
    /\ sleeps (events (pending_run seller w))
       = replicate (length before) KEEPA_DELAY_MS ++ sleeps (events rest)
    /\ clock w1 = (clock w + N.of_nat (length before) * KEEPA_DELAY_MS)%N
    /\ EbayBook.isbn <$> ebay_books w1 = EbayBook.isbn <$> ebay_books w
    /\ fetcher_checkpoints w1 = fetcher_checkpoints w
    /\ totalNew w1 = totalNew w
    /\ (forall i r, ebay_books w !! i = Some r ->
          EbayBook.isbn r ∉ EbayBook.isbn <$> before ->
          ebay_books w1 !! i = Some r)
    /\ (store_reliable w -> store_reliable w1).
Proof.
  intros Hlisted Hbefore.
  destruct (evaluatePendingBooks_run fl KeepaProduct keepa evaluateBook KEEPA_DELAY_MS
              seller w) as (pending & Hpending & Hquiet & Hout & Hfinal & Hevents).
  rewrite Hlisted in Hpending. injection Hpending as <-.
  destruct (getPendingBooks_spec seller w) as (n & pages & _ & _ & Hbooks & Hrel & _).
  destruct (getPendingBooks_quiet seller w) as (Hup & Hsl & _ & Hclock & Hcp & Htot).
  destruct (evaluate_loop_app (length (before ++ after)) before after
              (EvalCounts.mk 0 0 0 0 0) (final (getPendingBooks seller w)) Hbefore)
    as (c1 & w1 & evs & Hrun & _ & H2 & H3 & H4 & H5 & H6 & H7 & H8 & H9 & H10).
  exists c1, w1. cbn zeta.
  rewrite Hout, Hfinal, Hevents, Hrun. cbn [outcome final events].
  unfold keepa_calls, updated_isbns, sleeps in *.
  rewrite !omap_app, Hquiet, Hup, Hsl, H2, H3, H4, H5, H6, H7, H8, Hclock, Hbooks, Hcp, Htot.
  split; [done|]. split; [done|]. split.
  { by destruct (Nat.ltb 0 (length (before ++ after))). }
  split.
  { by destruct (Nat.ltb 0 (length (before ++ after))). }
  split.
  { by destruct (Nat.ltb 0 (length (before ++ after))). }
  repeat split; auto.
  intros i r Hr Hnot. apply H9; [by rewrite Hbooks | done].
Qed.

(** X13.  A lookup that throws aborts [evaluatePendingBooks]: the run
    throws the same error and returns no counters.  The books listed before
    it have been looked up, updated and paused after, one by one; the
    failing book has cost an acquisition and its lookup; nothing was asked
    for the books after it, and no row but those of the books before it has
    changed. *)
Theorem lookup_failure_aborts_evaluation (seller : option string) (w : World)
    (before after : list EbayBook.t) (book : EbayBook.t) (e : string) :
  outcome (getPendingBooks seller w) = Ok (before ++ book :: after) ->
  Forall (fun b => forall e', keepa (EbayBook.isbn b) <> KeepaThrows e') before ->
  keepa (EbayBook.isbn book) = KeepaThrows e ->
  let run := pending_run seller w in
  outcome run = Thrown e
  /\ keepa_calls (events run)
     = Acquire :: flat_map (fun b => [Acquire; Lookup (EbayBook.isbn b)]) before
         ++ [Acquire; Lookup (EbayBook.isbn book)]
  /\ updated_isbns (events run) = EbayBook.isbn <$> before
  /\ sleeps (events run) = replicate (length before) KEEPA_DELAY_MS
  /\ (forall i r, ebay_books w !! i = Some r ->
        EbayBook.isbn r ∉ EbayBook.isbn <$> before ->
        ebay_books (final run) !! i = Some r).
Proof.
  intros Hlisted Hbefore Hthrow run. subst run.
  destruct (evaluatePendingBooks_split seller w before (book :: after) Hlisted Hbefore)
    as (c1 & w1 & Hout & Hfinal & Hcalls & Hup & Hsl & _ & _ & _ & _ & Hframe & _).
  rewrite (evaluate_loop_throw _ _ _ _ _ e Hthrow) in *.
  cbn [outcome final events] in *.
  rewrite Hout, Hfinal, Hcalls, Hup, Hsl.
  rewrite length_app. cbn [length].
  replace (Nat.ltb 0 (length before + S (length after))) with true
    by (symmetry; apply Nat.ltb_lt; lia).
  cbn [app keepa_calls updated_isbns sleeps omap list_omap].
  rewrite !app_nil_r. repeat split; auto.
Qed.


(** What a run of [evaluatePendingBooks] leaves of the store, whether it
    returns or throws. *)
Lemma evaluatePendingBooks_frame (seller : option string) (w : World) :
  exists pending,
    outcome (getPendingBooks seller w) = Ok pending
    /\ EbayBook.isbn <$> ebay_books (final (pending_run seller w))
       = EbayBook.isbn <$> ebay_books w
    /\ fetcher_checkpoints (final (pending_run seller w)) = fetcher_checkpoints w
    /\ totalNew (final (pending_run seller w)) = totalNew w
    /\ (forall i r, ebay_books w !! i = Some r ->
          EbayBook.isbn r ∉ EbayBook.isbn <$> pending ->
          ebay_books (final (pending_run seller w)) !! i = Some r)
    /\ (store_reliable w -> store_reliable (final (pending_run seller w))).
Proof.
  destruct (evaluatePendingBooks_run fl KeepaProduct keepa evaluateBook KEEPA_DELAY_MS
              seller w) as (pending & Hpending & _ & Hout & _).
  exists pending. split; [exact Hpending|].
  pose proof (evaluate_loop_outcome (length pending) pending (EvalCounts.mk 0 0 0 0 0)
                (final (getPendingBooks seller w))) as Hall.
  destruct (outcome (loop_of (length pending) pending _ _)) as [c|e].
  - rewrite <- (app_nil_r pending) in Hpending.
    destruct (evaluatePendingBooks_split seller w pending [] Hpending Hall)
      as (c1 & w1 & _ & Hfinal & _ & _ & _ & _ & Hkeys & Hcp & Htot & Hframe & Hrel).
    rewrite evaluate_loop_nil in *. cbn [final] in Hfinal. rewrite Hfinal.
    repeat split; auto.
  - destruct Hall as (before & book & after & -> & Hbefore & Hthrow).
    destruct (evaluatePendingBooks_split seller w before (book :: after) Hpending Hbefore)
      as (c1 & w1 & _ & Hfinal & _ & _ & _ & _ & Hkeys & Hcp & Htot & Hframe & Hrel).
    rewrite (evaluate_loop_throw _ _ _ _ _ e Hthrow) in *. cbn [final] in Hfinal.
    rewrite Hfinal. repeat split; auto.
    intros i r Hr Hnot. apply Hframe; [done|].
    intros Hin. apply Hnot. rewrite fmap_app. apply elem_of_app. by left.
Qed.

(** X15.  Whether it returns or throws, [evaluatePendingBooks] adds no row,
    removes none, changes no catalog key and no checkpoint, and leaves as it
    was every row whose catalog key is not that of a book it listed.  When
    the catalog keys of the table are unique, as the store's constraint has
    them, no row that already holds a decision is changed: a book bought or
    decided is never evaluated again. *)
Theorem evaluation_changes_listed_books_only (seller : option string) (w : World) :
  let run := pending_run seller w in
  exists pending,
    outcome (getPendingBooks seller w) = Ok pending
    /\ EbayBook.isbn <$> ebay_books (final run) = EbayBook.isbn <$> ebay_books w
    /\ fetcher_checkpoints (final run) = fetcher_checkpoints w
    /\ (forall i r, ebay_books w !! i = Some r ->
          EbayBook.isbn r ∉ EbayBook.isbn <$> pending ->
          ebay_books (final run) !! i = Some r)
    /\ (NoDup (EbayBook.isbn <$> ebay_books w) ->
        forall i r, ebay_books w !! i = Some r ->
          EbayBook.decision r <> None ->
          ebay_books (final run) !! i = Some r).
Proof.
  cbn zeta.
  destruct (evaluatePendingBooks_frame seller w)
    as (pending & Hpending & Hkeys & Hcp & _ & Hframe & _).
  exists pending. repeat split; auto.
  intros Hnodup i r Hr Hdecided. apply Hframe; [done|].
  intros (b & Hisbn & Hb)%list_elem_of_fmap.
  destruct (getPendingBooks_listed seller w pending Hpending b Hb) as [Hrow Hnone].
  apply list_elem_of_lookup in Hrow as [j Hj].
  assert (i = j).
  { apply (NoDup_lookup _ i j (EbayBook.isbn r) Hnodup).
    - by rewrite list_lookup_fmap, Hr.
    - by rewrite list_lookup_fmap, Hj, Hisbn. }
  subst j. rewrite Hr in Hj. injection Hj as ->. done.
Qed.

(** X16.  With a store that answers every request, a second run of
    [evaluatePendingBooks] that follows one that returned finds nothing
    pending for the same seller filter: it returns zero counters, calls the
    valuation service for no book and leaves the table as the first run left
    it.  No book is evaluated twice. *)
Theorem second_pass_finds_nothing (seller : option string) (w : World)
    (counts : EvalCounts.t) :
  store_reliable w ->
  outcome (pending_run seller w) = Ok counts ->
  let again := pending_run seller (final (pending_run seller w)) in
  outcome again = Ok (EvalCounts.mk 0 0 0 0 0)
  /\ keepa_calls (events again) = []
  /\ updated_isbns (events again) = []
  /\ ebay_books (final again) = ebay_books (final (pending_run seller w)).
Proof.
  intros Hrel Hcounts again. subst again.
  pose proof (evaluatePendingBooks_decides_all fl KeepaProduct keepa evaluateBook
                KEEPA_DELAY_MS seller w counts Hrel Hcounts) as Hdecided.
  destruct (evaluatePendingBooks_idle seller (final (pending_run seller w)))
    as (H1 & H2 & _ & H4 & _ & H6 & _).
  { apply getPendingBooks_none_pending, Forall_forall. exact Hdecided. }
  by repeat split.
Qed.

(** A run that throws has met a lookup that throws. *)
Lemma evaluatePendingBooks_thrown (seller : option string) (w : World) (e : string) :
  outcome (pending_run seller w) = Thrown e ->
  exists before book after,
    outcome (getPendingBooks seller w) = Ok (before ++ book :: after)
    /\ Forall answers before
    /\ keepa (EbayBook.isbn book) = KeepaThrows e.
Proof.
  intros Hthrown.
  destruct (evaluatePendingBooks_run fl KeepaProduct keepa evaluateBook KEEPA_DELAY_MS
              seller w) as (pending & Hpending & _ & Hout & _).
  pose proof (evaluate_loop_outcome (length pending) pending (EvalCounts.mk 0 0 0 0 0)
                (final (getPendingBooks seller w))) as Hall.
  rewrite <- Hout, Hthrown in Hall.
  destruct Hall as (before & book & after & -> & Hbefore & Hthrow).
  by exists before, book, after.
Qed.

End EvaluateTraces.


Lemma outcome_cases {A : Type} (r : Run A) :
  (exists a, outcome r = Ok a) \/ (exists e, outcome r = Thrown e).
Proof. destruct (outcome r); eauto. Qed.

Lemma outcome_mkRun {A : Type} (o : Outcome A) (w : World) (evs : list Event) :
  outcome (mkRun o w evs) = o.
Proof. reflexivity. Qed.

Lemma final_mkRun {A : Type} (o : Outcome A) (w : World) (evs : list Event) :
  final (mkRun o w evs) = w.
Proof. reflexivity. Qed.

Lemma events_mkRun {A : Type} (o : Outcome A) (w : World) (evs : list Event) :
  events (mkRun o w evs) = evs.
Proof. reflexivity. Qed.

Lemma keepa_calls_app (a b : list Event) :
  keepa_calls (a ++ b) = keepa_calls a ++ keepa_calls b.
Proof. apply omap_app. Qed.

Lemma books_set_totals (new skipped : nat) (w : World) :
  ebay_books (set_totals new skipped w) = ebay_books w.
Proof. reflexivity. Qed.

Lemma totalNew_set_totals (new skipped : nat) (w : World) :
  totalNew (set_totals new skipped w) = new.
Proof. reflexivity. Qed.

(** ** What the steps of a crawl leave alone *)

Lemma checkpoint_reads_app (a b : list Event) :
  checkpoint_reads (a ++ b) = checkpoint_reads a ++ checkpoint_reads b.
Proof. apply omap_app. Qed.

Lemma insertBooks_loop_reads (books : list ScrapedBook.t) (s d e : nat) (w : World) :
  checkpoint_reads (events (insertBooks_loop books s d e w)) = []
  /\ keepa_calls (events (insertBooks_loop books s d e w)) = [].
Proof.
  revert s d e w. induction books as [|book rest IH]; intros s d e w; [done|].
  rewrite insertBooks_loop_cons, insert_book_effect. cbn zeta.
  unfold checkpoint_reads, keepa_calls in *.
  destruct (next_fault w) as [err|]; cbn [outcome final events].
  - destruct (String.eqb (Pg.code err) "23505"); cbn [outcome final events];
      rewrite !omap_app; cbn [omap list_omap app];
      by destruct (IH s (S d) e (set_faults (tail (db_faults w)) w)) as [-> ->]
      || by destruct (IH s d (S e) (set_faults (tail (db_faults w)) w)) as [-> ->].
  - destruct (bool_decide _); cbn [outcome final events];
      cbn [Pg.code unique_violation String.eqb Ascii.eqb Bool.eqb];
      cbn [outcome final events]; rewrite !omap_app; cbn [omap list_omap app];
      match goal with
      | |- context [insertBooks_loop rest ?a ?b ?c ?w'] =>
          by destruct (IH a b c w') as [-> ->]
      end.
Qed.

(** The page callback of [main]: the rows it adds are the books it counts as
    new. *)
Lemma main_onPage_growth (books : list ScrapedBook.t) (w : World) :
  let run := main_onPage books w in
  (length (ebay_books (final run)) + totalNew w
   = length (ebay_books w) + totalNew (final run))%nat
  /\ checkpoint_reads (events run) = []
  /\ keepa_calls (events run) = [].
Proof.
  cbn zeta. unfold main_onPage, insertBooks. rewrite run_bind.
  destruct (insertBooks_loop_table books 0 0 0 w)
    as (counts & added & Hout & Hbooks & Hsaved & _ & _ & Hnew & _).
  destruct (insertBooks_loop_reads books 0 0 0 w) as [Hreads Hcalls].
  rewrite (and_then_ok _ _ _ Hout). unfold modify.
  cbn [outcome final events ebay_books set_totals totalNew].
  rewrite app_nil_r, Hbooks, Hnew, Hsaved, length_app.
  split; [cbn; lia|]. by split.
Qed.

Lemma saveCheckpoint_frame (seller key : string) (offset : N) (w : World) :
  let run := saveCheckpoint seller key offset w in
  ebay_books (final run) = ebay_books w
  /\ totalNew (final run) = totalNew w
  /\ checkpoint_reads (events run) = []
  /\ keepa_calls (events run) = [].
Proof.
  cbn zeta. rewrite saveCheckpoint_run, upsert_checkpoint_run.
  by destruct (next_fault w).
Qed.

Lemma resetCheckpoint_frame (seller key : string) (w : World) :
  let run := resetCheckpoint seller key w in
  ebay_books (final run) = ebay_books w
  /\ totalNew (final run) = totalNew w
  /\ checkpoint_reads (events run) = []
  /\ keepa_calls (events run) = [].
Proof.
  cbn zeta. rewrite resetCheckpoint_run, upsert_checkpoint_run.
  by destruct (next_fault w).
Qed.

Lemma crawl_page_growth (seller key : string) (isbns : gset string)
    (maxNew : option nat) (items : list Listing.t) (offset : N)
    (totals : ScrapeResult.t) (w : World) :
  let run := crawl_page isbns main_onPage (saveCheckpoint seller key) maxNew
               items offset totals w in
  (length (ebay_books (final run)) + totalNew w
   = length (ebay_books w) + totalNew (final run))%nat
  /\ checkpoint_reads (events run) = []
  /\ keepa_calls (events run) = [].
Proof.
  cbn zeta. rewrite crawl_page_run. cbn zeta. cbn [outcome final events].
  destruct (main_onPage_growth (Listing.item <$> List.filter (is_new isbns) items) w)
    as (Hgrow & Hreads & Hcalls).
  destruct (saveCheckpoint_frame seller key (offset + PAGE_SIZE)
              (final (main_onPage (Listing.item <$> List.filter (is_new isbns) items) w)))
    as (Hbooks & Hnew & Hreads' & Hcalls').
  rewrite Hbooks, Hnew. unfold checkpoint_reads, keepa_calls in *.
  rewrite !omap_app, Hreads, Hreads', Hcalls, Hcalls'. by split.
Qed.

Lemma scrape_pages_growth (seller key : string) (isbns : gset string)
    (maxNew : option nat) (replies : list PageReply) (offset : N)
    (totals : ScrapeResult.t) (w : World) :
  let run := scrape_pages seller key isbns main_onPage (saveCheckpoint seller key)
               maxNew replies offset totals w in
  (length (ebay_books (final run)) + totalNew w
   = length (ebay_books w) + totalNew (final run))%nat
  /\ checkpoint_reads (events run) = []
  /\ keepa_calls (events run) = [].
Proof.
  cbn zeta. revert offset totals w.
  induction replies as [|reply rest IH]; intros offset totals w;
    remember (scrape_pages seller key isbns main_onPage (saveCheckpoint seller key)
                maxNew _ offset totals w) as run eqn:Hrun;
    cbn [scrape_pages] in Hrun; rewrite run_bind in Hrun;
    unfold emit at 1, and_then at 1 in Hrun; cbn [outcome final events] in Hrun.
  - rewrite run_bind in Hrun.
    destruct (crawl_page_spec seller key isbns maxNew [] offset totals w) as (Hout & _).
    destruct (crawl_page_growth seller key isbns maxNew [] offset totals w)
      as (Hgrow & Hreads & Hcalls).
    rewrite (and_then_ok _ _ _ Hout) in Hrun.
    destruct (page_verdict _ _ _);
      cbn [mret M_ret outcome final events app] in Hrun; subst run;
      cbn [outcome final events];
      unfold checkpoint_reads, keepa_calls in *; cbn [omap list_omap];
      rewrite !omap_app, Hreads, Hcalls; by split.
  - destruct reply as [e|items].
    + unfold throw in Hrun. cbn [outcome final events app] in Hrun. by subst run.
    + rewrite run_bind in Hrun.
      destruct (crawl_page_spec seller key isbns maxNew items offset totals w)
        as (Hout & _).
      destruct (crawl_page_growth seller key isbns maxNew items offset totals w)
        as (Hgrow & Hreads & Hcalls).
      rewrite (and_then_ok _ _ _ Hout) in Hrun.
      destruct (page_verdict _ _ _) as [result|totals'].
      * cbn [mret M_ret outcome final events app] in Hrun. subst run.
        cbn [outcome final events].
        unfold checkpoint_reads, keepa_calls in *; cbn [omap list_omap];
          rewrite !omap_app, Hreads, Hcalls; by split.
      * set (w1 := final (crawl_page _ _ _ _ _ _ _ w)) in *.
        destruct (IH (offset + PAGE_SIZE)%N totals' w1) as (Hgrow' & Hreads' & Hcalls').
        cbn [outcome final events app] in Hrun. subst run.
        cbn [outcome final events].
        unfold checkpoint_reads, keepa_calls in *; cbn [omap list_omap].
        rewrite !omap_app, Hreads, Hcalls, Hreads', Hcalls'.
        split; [lia|]. by split.
Qed.

Lemma crawl_search_growth (ebay : string -> string -> list PageReply)
    (isbns : gset string) (seller : string) (search : Search.t) (w : World) :
  let run := crawl_search ebay isbns seller search w in
  (length (ebay_books (final run)) + totalNew w
   = length (ebay_books w) + totalNew (final run))%nat
  /\ checkpoint_reads (events run) = [(seller, Search.query search)]
  /\ keepa_calls (events run) = [].
Proof.
  cbn zeta. rewrite crawl_search_run. cbn zeta.
  unfold crawl_scrape, scrapeAllListings.
  set (w0 := final (getCheckpoint seller (Search.query search) w)).
  assert (Hw0 : ebay_books w0 = ebay_books w /\ totalNew w0 = totalNew w).
  { subst w0. by rewrite getCheckpoint_run. }
  destruct Hw0 as [Hb0 Hn0].
  destruct (scrape_pages_growth seller (Search.query search) isbns None
              (ebay seller (Search.query search))
              (start_offset seller (Search.query search) w)
              (ScrapeResult.mk false 0 0 0) w0) as (Hgrow & Hreads & Hcalls).
  set (scrape := scrape_pages _ _ _ _ _ _ _ _ _ w0) in *.
  rewrite Hb0, Hn0 in Hgrow.
  rewrite getCheckpoint_run. cbn [events].
  destruct (reported_completed scrape); cbn [final events].
  - destruct (resetCheckpoint_frame seller (Search.query search) (final scrape))
      as (Hb & Hn & Hreads' & Hcalls').
    rewrite Hb, Hn. unfold checkpoint_reads, keepa_calls in *.
    cbn [app omap list_omap]. rewrite !omap_app, Hreads, Hreads', Hcalls, Hcalls'.
    by split.
  - unfold checkpoint_reads, keepa_calls in *.
    cbn [app omap list_omap]. rewrite Hreads, Hcalls. by split.
Qed.

Lemma crawl_all_growth (ebay : string -> string -> list PageReply)
    (isbns : gset string) (pairs : list (string * Search.t)) (w : World) :
  let run := crawl_all ebay isbns pairs w in
  (length (ebay_books (final run)) + totalNew w
   = length (ebay_books w) + totalNew (final run))%nat
  /\ checkpoint_reads (events run)
     = (fun p : string * Search.t => (p.1, Search.query p.2)) <$> pairs
  /\ keepa_calls (events run) = [].
Proof.
  cbn zeta. revert w. induction pairs as [|p rest IH]; intros w; [done|].
  cbn [crawl_all]. rewrite run_bind.
  rewrite (and_then_ok _ _ tt) by apply crawl_search_returns.
  cbn [outcome final events].
  destruct (crawl_search_growth ebay isbns p.1 p.2 w) as (Hgrow & Hreads & Hcalls).
  destruct (IH (final (crawl_search ebay isbns p.1 p.2 w))) as (Hgrow' & Hreads' & Hcalls').
  unfold checkpoint_reads, keepa_calls in *.
  rewrite !omap_app, Hreads, Hreads', Hcalls, Hcalls'.
  split; [lia|]. by split.
Qed.

(** ** The steps of [main] before the crawl *)

Lemma getExistingISBNs_loop_reads (fuel from : nat) (isbns : gset string) (w : World) :
  let run := getExistingISBNs_loop fuel from isbns w in
  checkpoint_reads (events run) = []
  /\ keepa_calls (events run) = []
  /\ totalNew (final run) = totalNew w.
Proof.
  cbn zeta. revert from isbns w.
  induction fuel as [|fuel IH]; intros from isbns w; [done|].
  rewrite getExistingISBNs_loop_step. cbn zeta.
  destruct (next_fault w); [done|].
  destruct (Nat.eqb _ 0); [done|].
  destruct (Nat.ltb _ pageSize); [done|].
  cbn [outcome final events].
  destruct (IH (from + pageSize)%nat
              (isbns ∪ list_to_set (take pageSize (drop from (EbayBook.isbn <$> ebay_books w))))
              (set_faults (tail (db_faults w)) w)) as (H1 & H2 & H3).
  unfold checkpoint_reads, keepa_calls in *. cbn [omap list_omap].
  by rewrite H1, H2, H3.
Qed.

Lemma getExistingISBNs_frame (w : World) :
  let run := getExistingISBNs w in
  (exists isbns, outcome run = Ok isbns)
  /\ ebay_books (final run) = ebay_books w
  /\ checkpoint_reads (events run) = []
  /\ keepa_calls (events run) = [].
Proof.
  cbn zeta. rewrite getExistingISBNs_unfold. cbn zeta.
  destruct (getExistingISBNs_loop_sound (S (length (ebay_books w))) 0 ∅ w
              (getExistingISBNs_fuel w)) as [n Hn].
  destruct (getExistingISBNs_loop_frame (S (length (ebay_books w))) 0 ∅ w) as [Hb _].
  destruct (getExistingISBNs_loop_reads (S (length (ebay_books w))) 0 ∅ w)
    as (Hreads & Hcalls & _).
  rewrite Hn. cbn [outcome final events].
  unfold checkpoint_reads, keepa_calls in *. rewrite !omap_app, Hreads, Hcalls.
  split; [by eexists|]. by split.
Qed.

Lemma getPendingBooks_reads (seller : option string) (w : World) :
  checkpoint_reads (events (getPendingBooks seller w)) = [].
Proof.
  rewrite getPendingBooks_unfold.
  generalize (S (length (ebay_books w))) 0%nat (@nil EbayBook.t).
  intros fuel. revert w. induction fuel as [|fuel IH]; intros w from acc; [done|].
  rewrite getPendingBooks_loop_step. cbn zeta.
  destruct (next_fault w); [done|].
  destruct (Nat.eqb _ 0); [done|].
  destruct (Nat.ltb _ pageSize); [done|].
  cbn [events]. unfold checkpoint_reads in *. cbn [omap list_omap]. apply IH.
Qed.

Lemma evaluate_loop_reads (fl : Q -> number) (KeepaProduct : Type)
    (keepa : string -> KeepaReply KeepaProduct)
    (evaluateBook : KeepaProduct -> number -> KeepaEval.t) (KEEPA_DELAY_MS : N)
    (total : nat) (pending : list EbayBook.t) (c : EvalCounts.t) (w : World) :
  checkpoint_reads
    (events (evaluate_loop fl KeepaProduct keepa evaluateBook KEEPA_DELAY_MS
               total pending c w)) = [].
Proof.
  revert c w. induction pending as [|book rest IH]; intros c w; [done|].
  cbn [evaluate_loop]. rewrite run_bind, evaluate_book_run.
  assert (Hturn : forall c' ev line,
    checkpoint_reads
      (events (and_then (turn KEEPA_DELAY_MS total book c' ev line w)
                 (fun c'' => evaluate_loop fl KeepaProduct keepa evaluateBook
                               KEEPA_DELAY_MS total rest c''))) = []).
  { intros c' ev line. rewrite (and_then_ok _ _ c') by reflexivity.
    cbn [events]. rewrite checkpoint_reads_app, IH, app_nil_r.
    unfold turn. cbn [events]. rewrite updateBookEvaluation_run. cbn zeta.
    by destruct (next_fault w). }
  destruct (keepa (EbayBook.isbn book)) as [e| |raw]; [|apply Hturn..].
  by rewrite (and_then_thrown _ _ e).
Qed.

Lemma evaluatePendingBooks_reads (fl : Q -> number) (KeepaProduct : Type)
    (keepa : string -> KeepaReply KeepaProduct)
    (evaluateBook : KeepaProduct -> number -> KeepaEval.t) (KEEPA_DELAY_MS : N)
    (seller : option string) (w : World) :
  checkpoint_reads
    (events (evaluatePendingBooks fl KeepaProduct keepa evaluateBook KEEPA_DELAY_MS
               seller w)) = [].
Proof.
  destruct (evaluatePendingBooks_run fl KeepaProduct keepa evaluateBook KEEPA_DELAY_MS
              seller w) as (pending & _ & _ & _ & _ & Hevents).
  rewrite Hevents, !checkpoint_reads_app, getPendingBooks_reads, evaluate_loop_reads.
  by destruct (Nat.ltb 0 (length pending)).
Qed.

Section MainProperties.

Variable fl : Q -> number.
Variable KeepaProduct : Type.
Variable keepa : string -> KeepaReply KeepaProduct.
Variable evaluateBook : KeepaProduct -> number -> KeepaEval.t.
Variable KEEPA_DELAY_MS : N.
Variable SELLERS : list string.
Variable SEARCHES : list Search.t.
Variable ebay : string -> string -> list PageReply.

Local Abbreviation evaluation_of_run :=
  (evaluatePendingBooks fl KeepaProduct keepa evaluateBook KEEPA_DELAY_MS None).
Local Abbreviation main_run :=
  (main fl KeepaProduct keepa evaluateBook KEEPA_DELAY_MS SELLERS SEARCHES ebay).

(** [main] stops after the evaluation when that throws. *)
Lemma main_thrown (w : World) (e : string) :
  outcome (evaluation_of_run w) = Thrown e ->
  main_run w
  = mkRun (Thrown e) (final (evaluation_of_run w)) (events (evaluation_of_run w)).
Proof.
  intros Hev. unfold main. rewrite run_bind.
  rewrite (and_then_thrown (evaluation_of_run w) _ e Hev). reflexivity.
Qed.

(** Otherwise [main] is the evaluation, then the loading of the dedup index,
    then the crawls of every pair, the counters of new books at zero. *)
Lemma main_returned (w : World) (counts : EvalCounts.t) (isbns : gset string) :
  outcome (evaluation_of_run w) = Ok counts ->
  outcome (getExistingISBNs (final (evaluation_of_run w))) = Ok isbns ->
  main_run w
  = mkRun
      (outcome (crawl_all ebay isbns (crawl_order SELLERS SEARCHES)
                  (set_totals 0 0
                     (final (getExistingISBNs (final (evaluation_of_run w)))))))
      (final (crawl_all ebay isbns (crawl_order SELLERS SEARCHES)
                (set_totals 0 0
                   (final (getExistingISBNs (final (evaluation_of_run w)))))))
      (events (evaluation_of_run w)
         ++ events (getExistingISBNs (final (evaluation_of_run w)))
         ++ events (crawl_all ebay isbns (crawl_order SELLERS SEARCHES)
                      (set_totals 0 0
                         (final (getExistingISBNs (final (evaluation_of_run w))))))).
Proof.
  intros Hev Hload. unfold main. rewrite run_bind.
  rewrite (and_then_ok (evaluation_of_run w) _ counts Hev). rewrite run_bind.
  rewrite (and_then_ok (getExistingISBNs (final (evaluation_of_run w))) _ isbns Hload).
  rewrite run_bind. unfold modify, and_then. cbn [outcome final events app].
  rewrite for_sellers_crawls_every_pair. reflexivity.
Qed.

(** X17.  A run of [main] fails only when a Keepa lookup throws during the
    evaluation that opens it: [main] then throws that error and stops there,
    before it loads the dedup index or crawls any search.  When the
    evaluation returns, [main] returns: no answer of the store and no failure
    of the marketplace makes it throw. *)
Theorem main_fails_only_when_a_lookup_throws (w : World) :
  (forall counts, outcome (evaluation_of_run w) = Ok counts ->
     outcome (main_run w) = Ok tt)
  /\ (forall e, outcome (evaluation_of_run w) = Thrown e ->
        main_run w
        = mkRun (Thrown e) (final (evaluation_of_run w)) (events (evaluation_of_run w)))
  /\ (forall e, outcome (main_run w) = Thrown e ->
        exists before book after,
          outcome (getPendingBooks None w) = Ok (before ++ book :: after)
          /\ keepa (EbayBook.isbn book) = KeepaThrows e).
Proof.
  assert (Hok : forall counts, outcome (evaluation_of_run w) = Ok counts ->
                  outcome (main_run w) = Ok tt).
  { intros counts Hev.
    destruct (getExistingISBNs_frame (final (evaluation_of_run w)))
      as ((isbns & Hload) & _).
    rewrite (main_returned w counts isbns Hev Hload), outcome_mkRun.
    apply crawl_all_returns. }
  split; [exact Hok|]. split; [apply main_thrown|].
  intros e Hmain.
  destruct (outcome_cases (evaluation_of_run w)) as [[counts Hev] | [e' Hev]].
  { rewrite (Hok counts Hev) in Hmain. discriminate. }
  rewrite (main_thrown w e' Hev), outcome_mkRun in Hmain.
  injection Hmain as ->.
  destruct (evaluatePendingBooks_thrown fl KeepaProduct keepa evaluateBook
              KEEPA_DELAY_MS None w e Hev)
    as (before & book & after & Hlisted & _ & Hthrow).
  by exists before, book, after.
Qed.

(** X18.  When the evaluation returns, [main] takes up every (seller,
    search) pair, sellers in the order of [SELLERS] and for each the searches
    in the order of [SEARCHES]: it reads the checkpoint of each pair once, in
    that order, whatever the marketplace and the store answer.  A search
    that fails does not keep the following ones from being crawled. *)
Theorem main_takes_up_every_search (w : World) (counts : EvalCounts.t) :
  outcome (evaluation_of_run w) = Ok counts ->
  outcome (main_run w) = Ok tt
  /\ checkpoint_reads (events (main_run w))
     = (fun p : string * Search.t => (p.1, Search.query p.2))
         <$> crawl_order SELLERS SEARCHES.
Proof.
  intros Hev.
  destruct (getExistingISBNs_frame (final (evaluation_of_run w)))
    as ((isbns & Hload) & _ & Hreads & _).
  rewrite (main_returned w counts isbns Hev Hload), outcome_mkRun, events_mkRun.
  split; [apply crawl_all_returns|].
  rewrite !checkpoint_reads_app, evaluatePendingBooks_reads, Hreads.
  cbn [app]. apply crawl_all_growth.
Qed.

(** X19.  When [main] returns, the number of new books it reports is the
    number of rows by which the table has grown during the run: [totalNew]
    counts the rows that the inserts of the page callback have saved, and no
    other step of the run adds or removes a row. *)
Theorem main_counts_the_rows_it_adds (w : World) :
  outcome (main_run w) = Ok tt ->
  length (ebay_books (final (main_run w)))
  = (length (ebay_books w) + totalNew (final (main_run w)))%nat.
Proof.
  intros Hmain.
  destruct (outcome_cases (evaluation_of_run w)) as [[counts Hev] | [e Hev]].
  2: { rewrite (main_thrown w e Hev) in Hmain. discriminate. }
  destruct (getExistingISBNs_frame (final (evaluation_of_run w)))
    as ((isbns & Hload) & Hbooks & _).
  rewrite (main_returned w counts isbns Hev Hload), final_mkRun.
  destruct (crawl_all_growth ebay isbns (crawl_order SELLERS SEARCHES)
              (set_totals 0 0 (final (getExistingISBNs (final (evaluation_of_run w))))))
    as (Hgrow & _).
  rewrite books_set_totals, totalNew_set_totals, Hbooks in Hgrow.
  destruct (evaluatePendingBooks_frame fl KeepaProduct keepa evaluateBook
              KEEPA_DELAY_MS None w) as (pending & _ & Hkeys & _).
  apply (f_equal length) in Hkeys. rewrite !length_fmap in Hkeys.
  lia.
Qed.

(** X20.  A run of [main] calls the valuation service during the evaluation
    that opens it and at no other time: loading the dedup index and crawling
    call neither the rate limiter nor the lookup.  The books that a run
    inserts are therefore not evaluated in that run. *)
Theorem main_evaluates_before_it_scrapes (w : World) :
  keepa_calls (events (main_run w)) = keepa_calls (events (evaluation_of_run w)).
Proof.
  destruct (outcome_cases (evaluation_of_run w)) as [[counts Hev] | [e Hev]].
  2: { by rewrite (main_thrown w e Hev), events_mkRun. }
  destruct (getExistingISBNs_frame (final (evaluation_of_run w)))
    as ((isbns & Hload) & _ & _ & Hcalls).
  rewrite (main_returned w counts isbns Hev Hload), events_mkRun.
  destruct (crawl_all_growth ebay isbns (crawl_order SELLERS SEARCHES)
              (set_totals 0 0 (final (getExistingISBNs (final (evaluation_of_run w))))))
    as (_ & _ & Hcrawl).
  by rewrite !keepa_calls_app, Hcalls, Hcrawl, !app_nil_r.
Qed.

End MainProperties.

(** ** Examples for the evaluation and the run loop *)

Lemma lookup_failure_aborts_evaluation_witness :
  outcome (evaluatePendingBooks Js.Fin unit failing_keepa sample_engine 1000 None
             (sample_world [ sample_book "9780000000001" "seller-a" 10;
                             sample_book "9780000000002" "seller-a" 20;
                             sample_book "9780000000003" "seller-a" 30 ] []))
  = Thrown "Keepa request failed: 429"
  /\ updated_isbns
       (events (evaluatePendingBooks Js.Fin unit failing_keepa sample_engine 1000 None
                  (sample_world [ sample_book "9780000000001" "seller-a" 10;
                                  sample_book "9780000000002" "seller-a" 20;
                                  sample_book "9780000000003" "seller-a" 30 ] [])))
     = ["9780000000001"].
Proof.
  destruct (lookup_failure_aborts_evaluation Js.Fin unit failing_keepa sample_engine 1000
              None
              (sample_world [ sample_book "9780000000001" "seller-a" 10;
                              sample_book "9780000000002" "seller-a" 20;
                              sample_book "9780000000003" "seller-a" 30 ] [])
              [sample_book "9780000000001" "seller-a" 10]
              [sample_book "9780000000003" "seller-a" 30]
              (sample_book "9780000000002" "seller-a" 20)
              "Keepa request failed: 429")
    as (Hout & _ & Hupdated & _).
  - vm_compute. reflexivity.
  - constructor; [|constructor]. intros e'. vm_compute. discriminate.
  - reflexivity.
  - split; [exact Hout | exact Hupdated].
Defined.


Lemma evaluation_changes_listed_books_only_witness :
  ebay_books
    (final (evaluatePendingBooks Js.Fin unit sample_keepa sample_engine 1000 None
              (sample_world [ bought_book "9780000000001" "seller-a" 10;
                              sample_book "9780000000002" "seller-a" 20 ] [])))
    !! 0%nat
  = Some (bought_book "9780000000001" "seller-a" 10).
Proof.
  destruct (evaluation_changes_listed_books_only Js.Fin unit sample_keepa sample_engine
              1000 None
              (sample_world [ bought_book "9780000000001" "seller-a" 10;
                              sample_book "9780000000002" "seller-a" 20 ] []))
    as (pending & _ & _ & _ & _ & Hkept).
  apply Hkept.
  - cbn. apply NoDup_cons. split; [|apply NoDup_singleton].
    intros Hin%list_elem_of_singleton. discriminate.
  - reflexivity.
  - discriminate.
Defined.

Lemma second_pass_finds_nothing_witness :
  outcome
    (evaluatePendingBooks Js.Fin unit sample_keepa sample_engine 1000 None
       (final (evaluatePendingBooks Js.Fin unit sample_keepa sample_engine 1000 None
                 (sample_world [ sample_book "9780000000001" "seller-a" 10;
                                 sample_book "9780000000002" "seller-a" 20 ] []))))
  = Ok (EvalCounts.mk 0 0 0 0 0).
Proof.
  apply (second_pass_finds_nothing Js.Fin unit sample_keepa sample_engine 1000 None
           (sample_world [ sample_book "9780000000001" "seller-a" 10;
                           sample_book "9780000000002" "seller-a" 20 ] [])
           (EvalCounts.mk 2 1 0 0 1)).
  - constructor.
  - vm_compute. reflexivity.
Defined.

Lemma main_fails_only_when_a_lookup_throws_witness :
  outcome (main Js.Fin unit failing_keepa sample_engine 1000 ["seller-a"] [books_search]
             one_page_marketplace
             (sample_world [ sample_book "9780000000001" "seller-a" 10;
                             sample_book "9780000000002" "seller-a" 20 ] []))
  = Thrown "Keepa request failed: 429".
Proof.
  rewrite (proj1 (proj2
    (main_fails_only_when_a_lookup_throws Js.Fin unit failing_keepa sample_engine 1000
       ["seller-a"] [books_search] one_page_marketplace
       (sample_world [ sample_book "9780000000001" "seller-a" 10;
                       sample_book "9780000000002" "seller-a" 20 ] [])))
    "Keepa request failed: 429").
  - reflexivity.
  - vm_compute. reflexivity.
Defined.

Lemma main_takes_up_every_search_witness :
  checkpoint_reads
    (events (main Js.Fin unit sample_keepa sample_engine 1000
               ["seller-a"; "seller-b"] [books_search] failing_marketplace
               (sample_world [sample_book "9780000000001" "seller-a" 10] [])))
  = [("seller-a", "books"); ("seller-b", "books")].
Proof.
  apply (proj2
    (main_takes_up_every_search Js.Fin unit sample_keepa sample_engine 1000
       ["seller-a"; "seller-b"] [books_search] failing_marketplace
       (sample_world [sample_book "9780000000001" "seller-a" 10] [])
       (EvalCounts.mk 1 0 0 0 1) eq_refl)).
Defined.

Lemma main_counts_the_rows_it_adds_witness :
  length (ebay_books
            (final (main Js.Fin unit sample_keepa sample_engine 1000 ["seller-a"]
                      [books_search] one_page_marketplace
                      (sample_world [sample_book "9780000000001" "seller-a" 10] []))))
  = (1 + totalNew
           (final (main Js.Fin unit sample_keepa sample_engine 1000 ["seller-a"]
                     [books_search] one_page_marketplace
                     (sample_world [sample_book "9780000000001" "seller-a" 10] []))))%nat.
Proof.
  apply (main_counts_the_rows_it_adds Js.Fin unit sample_keepa sample_engine 1000
           ["seller-a"] [books_search] one_page_marketplace
           (sample_world [sample_book "9780000000001" "seller-a" 10] [])).
  vm_compute. reflexivity.
Defined.

(** ** The OAuth helper *)

Section AuthProperties.
Import EbayAuth.

Variable URLSearchParams_toString : list (string * string) -> string.
Variable String_trim : string -> string.
Variable URL_searchParams : string -> option (list (string * string)).
Variable base64 : string -> string.
Variable JSON_stringify : Json -> string.
Variable ToString : Json -> option string.
Variable days : option Json -> option string.
Variable env : string -> option string.
Variable stdin : option string.
Variable reply : Request -> Reply.

Local Abbreviation request_of := (token_request URLSearchParams_toString base64 env).
Local Abbreviation report_of := (report ToString days).
Local Abbreviation exchange_of :=
  (exchange URLSearchParams_toString base64 JSON_stringify ToString days env reply).
Local Abbreviation answer_of :=
  (on_answer URLSearchParams_toString String_trim URL_searchParams base64 JSON_stringify
     ToString days env reply).
Local Abbreviation steps :=
  (ebay_auth URLSearchParams_toString String_trim URL_searchParams base64 JSON_stringify
     ToString days env stdin reply).

Lemma fetches_app (xs ys : list Step) : fetches (xs ++ ys) = fetches xs ++ fetches ys.
Proof. apply omap_app. Qed.

Lemma exits_app (xs ys : list Step) : exits (xs ++ ys) = exits xs ++ exits ys.
Proof. apply omap_app. Qed.

Lemma fetches_cons (request : Request) (rest : list Step) :
  fetches (Fetch request :: rest) = request :: fetches rest.
Proof. reflexivity. Qed.

Lemma exits_cons (request : Request) (rest : list Step) :
  exits (Fetch request :: rest) = exits rest.
Proof. reflexivity. Qed.

(** What follows the request: nothing is sent any more, and the run either
    ends on the line of the refresh token, without an exit, or on an exit
    with the code 1. *)
Lemma report_ends (data : Json) :
  fetches (report_of data) = []
  /\ ((exits (report_of data) = []
       /\ exists t, last (report_of data)
                    = Some (ConsoleLog ("EBAY_REFRESH_TOKEN=" +:+ t +:+ newline)))
      \/ (exists pre, report_of data = pre ++ [ProcessExit 1]
                      /\ exits pre = [])).
Proof.
  unfold report, caught.
  destruct (member data "refresh_token") as [refreshToken|];
    [|split; [done|right; by eexists [_]]].
  destruct (member data "access_token") as [accessToken|];
    [|split; [done|right; by eexists [_]]].
  destruct (member data "refresh_token_expires_in") as [refreshExpires|];
    [|split; [done|right; by eexists [_]]].
  destruct accessToken as [[| | |s| |]|];
    try (split; [done|right; by eexists [_; _]]).
  destruct (days refreshExpires) as [d|];
    [|split; [done|right; by eexists [_; _; _]]].
  destruct (template ToString refreshToken) as [t|].
  - split; [done|]. left. split; [done|]. by exists t.
  - split; [done|right; by eexists [_; _; _; _; _]].
Qed.

Lemma exchange_ends (code : string) :
  exists rest,
    exchange_of code = Fetch (request_of code) :: rest
    /\ fetches rest = []
    /\ ((exits rest = []
         /\ exists t, last rest
                      = Some (ConsoleLog ("EBAY_REFRESH_TOKEN=" +:+ t +:+ newline)))
        \/ (exists pre, rest = pre ++ [ProcessExit 1] /\ exits pre = [])).
Proof.
  unfold exchange, caught. eexists. split; [reflexivity|].
  destruct (reply (request_of code)) as [reason|[] [reason|data]];
    try (split; [done|right; by eexists [_]]).
  apply report_ends.
Qed.

(** The run stops before the request, or it reaches the exchange with the
    code of the pasted URL. *)
Lemma ebay_auth_reaches :
  (fetches steps = []
   /\ ((stdin = None /\ exits steps = []
        /\ exists prompt, last steps = Some (Question prompt))
       \/ (exists pre, steps = pre ++ [ProcessExit 1] /\ exits pre = [])))
  \/ (exists before redirectUrl searchParams code,
        stdin = Some redirectUrl
        /\ URL_searchParams (String_trim redirectUrl) = Some searchParams
        /\ searchParams_get "code" searchParams = Some code
        /\ code <> ""
        /\ CLIENT_ID env <> "" /\ CLIENT_SECRET env <> "" /\ RUNAME env <> ""
        /\ steps = before ++ exchange_of code
        /\ fetches before = [] /\ exits before = []).
Proof.
  unfold ebay_auth.
  destruct (String.eqb_spec (CLIENT_ID env) "") as [Hid|Hid]; cbn [orb].
  { left. split; [done|right; by eexists [_]]. }
  destruct (String.eqb_spec (CLIENT_SECRET env) "") as [Hsecret|Hsecret].
  { left. split; [done|right; by eexists [_]]. }
  destruct (String.eqb_spec (RUNAME env) "") as [Hruname|Hruname].
  { left. split; [done|right; by eexists [_]]. }
  destruct stdin as [redirectUrl|].
  2: { left. split; [done|]. left. split; [done|]. split; [done|]. by eexists. }
  unfold on_answer.
  destruct (URL_searchParams (String_trim redirectUrl)) as [searchParams|] eqn:Hurl.
  2: { left. split; [done|right]. by eexists [_; _; _; _; _; _; _; _]. }
  cbn zeta.
  destruct (searchParams_get "code" searchParams) as [code|] eqn:Hcode;
    cbn [from_option id].
  2: { left. split; [done|right]. by eexists [_; _; _; _; _; _; _; _]. }
  destruct (String.eqb_spec code "") as [Hempty|Hempty].
  { left. split; [done|right]. by eexists [_; _; _; _; _; _; _; _]. }
  right. eexists [_; _; _; _; _; _; _; _], redirectUrl, searchParams, code.
  by repeat split.
Qed.

(** X21.  The helper contacts eBay at most once, and only when the three
    settings are set and not empty, a line was typed at the prompt, that
    line, trimmed, is a URL, and the URL holds a [code] parameter that is not
    empty.  The request is then the POST to the token endpoint that carries
    this code, the redirect name and the basic credentials.  In every other
    case the run sends nothing. *)
Theorem token_request_needs_settings_and_code :
  fetches steps = []
  \/ exists redirectUrl searchParams code,
       stdin = Some redirectUrl
       /\ URL_searchParams (String_trim redirectUrl) = Some searchParams
       /\ searchParams_get "code" searchParams = Some code
       /\ code <> ""
       /\ CLIENT_ID env <> "" /\ CLIENT_SECRET env <> "" /\ RUNAME env <> ""
       /\ fetches steps = [request_of code]
       /\ method (request_of code) = "POST"
       /\ url (request_of code) = EBAY_TOKEN_URL.
Proof.
  destruct ebay_auth_reaches
    as [[Hnone _] | (before & redirectUrl & searchParams & code & Hin & Hurl & Hcode
                     & Hempty & Hid & Hsecret & Hruname & Hsteps & Hfetch & _)];
    [by left|right].
  exists redirectUrl, searchParams, code.
  repeat (split; [done|]).
  destruct (exchange_ends code) as (rest & Hrest & Hquiet & _).
  split; [|done].
  by rewrite Hsteps, Hrest, fetches_app, Hfetch, fetches_cons, Hquiet.
Qed.

Lemma exit_code_last (pre : list Step) :
  exits pre = [] -> exit_code (pre ++ [ProcessExit 1]) = 1.
Proof. intros Hpre. unfold exit_code. by rewrite exits_app, Hpre. Qed.

Lemma last_exit (pre : list Step) (line : string) :
  last (pre ++ [ProcessExit 1]) <> Some (ConsoleLog line).
Proof. by rewrite last_snoc. Qed.

(** X22.  [process.exit] is called with the code 1 only, and at most once, as
    the last step of a run.  When a line was typed at the prompt, the run
    ends with the exit code 0 exactly when its last step prints the
    [EBAY_REFRESH_TOKEN=] line: every other outcome of an answered prompt, an
    invalid URL, a missing code, a failed or refused exchange, a body that is
    not JSON, is an exit with the code 1. *)
Theorem refresh_token_printed_iff_exit_code_zero :
  (exits steps = []
   \/ exists pre, steps = pre ++ [ProcessExit 1] /\ exits pre = [])
  /\ ((exists t, last steps = Some (ConsoleLog ("EBAY_REFRESH_TOKEN=" +:+ t +:+ newline)))
      <-> is_Some stdin /\ exit_code steps = 0).
Proof.
  destruct ebay_auth_reaches
    as [[_ [(Hin & Hexits & prompt & Hlast) | (pre & Hsteps & Hpre)]]
       | (before & redirectUrl & searchParams & code & Hin & _ & _ & _ & _ & _ & _
          & Hsteps & _ & Hbefore)].
  - split; [by left|]. rewrite Hlast, Hin. split.
    + by intros (t & ?).
    + by intros [[? ?] _].
  - split; [right; by exists pre|]. rewrite Hsteps. split.
    + intros (t & Hlast). by apply last_exit in Hlast.
    + rewrite exit_code_last by done. by intros [_ ?].
  - destruct (exchange_ends code)
      as (rest & Hrest & _ & [(Hexits & t & Hlast) | (pre & Hpre & Hquiet)]).
    + assert (Hnone : exits steps = []).
      { by rewrite Hsteps, Hrest, exits_app, Hbefore, exits_cons, Hexits. }
      split; [by left|]. split.
      * intros _. split; [by rewrite Hin|]. unfold exit_code. by rewrite Hnone.
      * intros _. exists t. rewrite Hsteps, Hrest.
        by rewrite last_app_cons, last_cons, Hlast.
    + assert (Hshape : steps = (before ++ Fetch (request_of code) :: pre)
                               ++ [ProcessExit 1]).
      { by rewrite Hsteps, Hrest, Hpre, <- app_assoc. }
      assert (Hexits : exits (before ++ Fetch (request_of code) :: pre) = []).
      { by rewrite exits_app, Hbefore, exits_cons, Hquiet. }
      split; [right; by eexists|]. rewrite Hshape. split.
      * intros (t & Hlast). by apply last_exit in Hlast.
      * rewrite exit_code_last by done. by intros [_ ?].
Qed.

(** X23.  The helper prints [Success!] before it looks at the tokens.  When
    the token endpoint answers the request with an ok status and a JSON body
    that is not null and holds no string [access_token], the run prints
    [Success!], then fails on [accessToken.substring]: it reports the error,
    prints no refresh token and exits with the code 1. *)
Theorem success_printed_before_tokens_are_read (request : Request) (data : Json) :
  fetches steps = [request] ->
  reply request = Response true (inr data) ->
  data <> JsonNull ->
  (forall s, member data "access_token" <> Some (Some (JsonString s))) ->
  exit_code steps = 1
  /\ exists before,
       steps = before ++ [ Fetch request;
                           ConsoleLog ("Success!" +:+ newline);
                           ConsoleErrorCaught "Error exchanging code:" TypeError;
                           ProcessExit 1 ]
       /\ exits before = [].
Proof.
  intros Hsent Hreply Hdata Htoken.
  destruct ebay_auth_reaches
    as [[Hnone _] | (before & redirectUrl & searchParams & code & _ & _ & _ & _ & _ & _
                     & _ & Hsteps & Hfetch & Hbefore)].
  { rewrite Hnone in Hsent. discriminate. }
  assert (Hrequest : request = request_of code).
  { destruct (exchange_ends code) as (rest & Hrest & Hquiet & _).
    rewrite Hsteps, Hrest, fetches_app, Hfetch, fetches_cons, Hquiet in Hsent.
    cbn [app] in Hsent. congruence. }
  subst request.
  assert (Hexchange : exchange_of code
                      = [ Fetch (request_of code);
                          ConsoleLog ("Success!" +:+ newline);
                          ConsoleErrorCaught "Error exchanging code:" TypeError;
                          ProcessExit 1 ]).
  { unfold exchange. rewrite Hreply. unfold report, caught. f_equal.
    destruct data as [|b|n|s|items|members]; [done|..];
      cbn [member] in *; try done.
    destruct (snd <$> List.find _ members) as [[| | |s| |]|] eqn:Haccess;
      try done.
    by destruct (Htoken s). }
  rewrite Hsteps, Hexchange. split; [|by exists before].
  change [Fetch (request_of code); ?a; ?b; ProcessExit 1]
    with ([Fetch (request_of code); a; b] ++ [ProcessExit 1]).
  rewrite app_assoc. apply exit_code_last.
  by rewrite exits_app, Hbefore.
Qed.

End AuthProperties.

Lemma success_printed_before_tokens_are_read_witness :
  EbayAuth.exit_code
    (EbayAuth.ebay_auth sample_query id sample_url id (fun _ => "{}")
       (fun _ => Some "[object Object]") (fun _ => Some "NaN")
       sample_env (Some "https://localhost:8080/callback?code=abc")
       (fun _ => EbayAuth.Response true
                   (inr (EbayAuth.JsonObject
                           [("error", EbayAuth.JsonString "invalid_grant")]))))
  = 1.
Proof.
  apply (success_printed_before_tokens_are_read sample_query id sample_url id
           (fun _ => "{}") (fun _ => Some "[object Object]") (fun _ => Some "NaN")
           sample_env (Some "https://localhost:8080/callback?code=abc")
           (fun _ => EbayAuth.Response true
                       (inr (EbayAuth.JsonObject
                               [("error", EbayAuth.JsonString "invalid_grant")])))
           (EbayAuth.token_request sample_query id sample_env "abc")
           (EbayAuth.JsonObject [("error", EbayAuth.JsonString "invalid_grant")])).
  - reflexivity.
  - reflexivity.
  - discriminate.
  - intros s. discriminate.
Defined.

(** ** The batch variant of [main] *)

Lemma batch_step_same {A B : Type} (w : World) (r : Run A) (r' : Run B) :
  final r' = final r -> events r' = events r -> batch_step w r -> batch_step w r'.
Proof. unfold batch_step. by intros -> ->. Qed.

Lemma batch_step_quiet {A : Type} (a : Outcome A) (w : World) (evs : list Event) :
  upserted_offsets evs = [] -> keepa_calls evs = [] ->
  batch_step w (mkRun a w evs).
Proof.
  intros Hoff Hcalls. unfold batch_step.
  rewrite final_mkRun, events_mkRun, Hoff. by repeat split.
Qed.

(** Steps compose. *)
Lemma batch_step_trans {A B : Type} (w : World) (first : Run A) (second : Run B)
    (o : Outcome B) :
  batch_step w first ->
  batch_step (final first) second ->
  batch_step w (mkRun o (final second) (events first ++ events second)).
Proof.
  unfold batch_step. rewrite final_mkRun, events_mkRun.
  intros (G1 & M1 & O1 & K1) (G2 & M2 & O2 & K2).
  split; [lia|]. split; [lia|]. split.
  - rewrite upserted_offsets_app. by apply Forall_app.
  - intros Heq. rewrite keepa_calls_app, K1, K2 by lia. done.
Qed.

Lemma batch_step_and_then {A B : Type} (w : World) (first : Run A) (next : A -> M B) :
  batch_step w first ->
  (forall a, batch_step (final first) (next a (final first))) ->
  batch_step w (and_then first next).
Proof.
  intros Hfirst Hnext.
  destruct (outcome_cases first) as [[a Ha] | [e He]].
  - rewrite (and_then_ok first next a Ha). by apply batch_step_trans.
  - rewrite (and_then_thrown first next e He).
    by apply (batch_step_same w first).
Qed.

Lemma getCheckpoint_step (seller key : string) (w : World) :
  batch_step w (getCheckpoint seller key w)
  /\ (exists offset, outcome (getCheckpoint seller key w) = Ok offset)
  /\ totalNew (final (getCheckpoint seller key w)) = totalNew w.
Proof.
  rewrite getCheckpoint_run. split; [|split; [by eexists|done]].
  unfold batch_step. rewrite final_mkRun, events_mkRun. by repeat split.
Qed.

Lemma main_onPage_step (books : list ScrapedBook.t) (w : World) :
  batch_step w (main_onPage books w).
Proof.
  destruct (main_onPage_growth books w) as (Hgrow & _ & Hcalls).
  destruct (main_onPage_frame books w) as (_ & _ & _ & Hoff).
  unfold batch_step. rewrite Hoff, Hcalls. split; [done|]. split; [|done].
  unfold main_onPage, insertBooks. rewrite run_bind.
  destruct (insertBooks_loop_table books 0 0 0 w)
    as (counts & added & Hout & _ & _ & _ & _ & Hnew & _).
  rewrite (and_then_ok _ _ _ Hout). unfold modify.
  cbn [outcome final events set_totals totalNew]. rewrite Hnew. lia.
Qed.

Lemma saveCheckpoint_step (seller key : string) (offset : N) (w : World) :
  (PAGE_SIZE <= offset)%N ->
  batch_step w (saveCheckpoint seller key offset w).
Proof.
  intros Hoffset.
  destruct (saveCheckpoint_frame seller key offset w) as (Hbooks & Hnew & _ & Hcalls).
  destruct (saveCheckpoint_effect seller key offset w) as (_ & Hoff & _).
  unfold batch_step. rewrite Hbooks, Hnew, Hoff, Hcalls.
  repeat split; [lia|]. by apply Forall_singleton.
Qed.

Lemma crawl_page_step (seller key : string) (isbns : gset string)
    (maxNew : option nat) (items : list Listing.t) (offset : N)
    (totals : ScrapeResult.t) (w : World) :
  batch_step w
    (crawl_page isbns main_onPage (saveCheckpoint seller key) maxNew items offset
       totals w).
Proof.
  unfold crawl_page. rewrite run_bind.
  apply batch_step_and_then; [apply main_onPage_step|].
  intros _. rewrite run_bind.
  apply batch_step_and_then.
  - apply saveCheckpoint_step. unfold PAGE_SIZE. lia.
  - intros _. by apply batch_step_quiet.
Qed.

(** The crawl: whatever the marketplace answers and wherever the crawl ends
    or fails. *)
Lemma scrape_pages_step (seller query key : string) (isbns : gset string)
    (maxNew : option nat) (replies : list PageReply) (offset : N)
    (totals : ScrapeResult.t) (w : World) :
  batch_step w
    (scrape_pages seller query isbns main_onPage (saveCheckpoint seller key) maxNew
       replies offset totals w).
Proof.
  revert offset totals w.
  induction replies as [|reply rest IH]; intros offset totals w;
    cbn [scrape_pages]; rewrite run_bind;
    (apply batch_step_and_then; [by apply batch_step_quiet|]);
    intros _; cbn [final emit].
  - rewrite run_bind. apply batch_step_and_then; [apply crawl_page_step|].
    intros [result|totals']; by apply batch_step_quiet.
  - destruct reply as [e|items]; [by apply batch_step_quiet|].
    rewrite run_bind. apply batch_step_and_then; [apply crawl_page_step|].
    intros [result|totals']; [by apply batch_step_quiet|apply IH].
Qed.

Lemma run_eta {A : Type} (r : Run A) : mkRun (outcome r) (final r) (events r) = r.
Proof. by destruct r. Qed.

Lemma getExistingISBNs_loop_no_upsert (fuel from : nat) (isbns : gset string)
    (w : World) :
  upserted_offsets (events (getExistingISBNs_loop fuel from isbns w)) = [].
Proof.
  revert from isbns w.
  induction fuel as [|fuel IH]; intros from isbns w; [done|].
  rewrite getExistingISBNs_loop_step. cbn zeta.
  destruct (next_fault w); [done|].
  destruct (Nat.eqb _ 0); [done|].
  destruct (Nat.ltb _ pageSize); [done|].
  cbn [events]. unfold upserted_offsets in *. cbn [omap list_omap]. apply IH.
Qed.

Lemma getExistingISBNs_step (w : World) :
  batch_step w (getExistingISBNs w)
  /\ (exists isbns, outcome (getExistingISBNs w) = Ok isbns)
  /\ ebay_books (final (getExistingISBNs w)) = ebay_books w
  /\ upserted_offsets (events (getExistingISBNs w)) = []
  /\ keepa_calls (events (getExistingISBNs w)) = [].
Proof.
  destruct (getExistingISBNs_frame w) as (Hout & Hbooks & _ & Hcalls).
  assert (Hnew : totalNew (final (getExistingISBNs w)) = totalNew w).
  { rewrite getExistingISBNs_unfold. cbn zeta.
    destruct (getExistingISBNs_loop_reads (S (length (ebay_books w))) 0 ∅ w)
      as (_ & _ & H).
    by destruct (outcome (getExistingISBNs_loop _ _ _ _)). }
  assert (Hoff : upserted_offsets (events (getExistingISBNs w)) = []).
  { rewrite getExistingISBNs_unfold. cbn zeta.
    pose proof (getExistingISBNs_loop_no_upsert (S (length (ebay_books w))) 0 ∅ w) as H.
    destruct (outcome (getExistingISBNs_loop _ _ _ _)); cbn [events]; [|done].
    by rewrite upserted_offsets_app, H. }
  split; [|done].
  unfold batch_step. rewrite Hbooks, Hnew, Hoff, Hcalls. by repeat split.
Qed.

Lemma getPendingBooks_no_upsert (seller : option string) (w : World) :
  upserted_offsets (events (getPendingBooks seller w)) = [].
Proof.
  rewrite getPendingBooks_unfold.
  generalize (S (length (ebay_books w))) 0%nat (@nil EbayBook.t).
  intros fuel. revert w. induction fuel as [|fuel IH]; intros w from acc; [done|].
  rewrite getPendingBooks_loop_step. cbn zeta.
  destruct (next_fault w); [done|].
  destruct (Nat.eqb _ 0); [done|].
  destruct (Nat.ltb _ pageSize); [done|].
  cbn [events]. unfold upserted_offsets in *. cbn [omap list_omap]. apply IH.
Qed.

Lemma evaluate_loop_no_upsert (fl : Q -> number) (KeepaProduct : Type)
    (keepa : string -> KeepaReply KeepaProduct)
    (evaluateBook : KeepaProduct -> number -> KeepaEval.t) (KEEPA_DELAY_MS : N)
    (total : nat) (pending : list EbayBook.t) (c : EvalCounts.t) (w : World) :
  upserted_offsets
    (events (evaluate_loop fl KeepaProduct keepa evaluateBook KEEPA_DELAY_MS
               total pending c w)) = [].
Proof.
  revert c w. induction pending as [|book rest IH]; intros c w; [done|].
  cbn [evaluate_loop]. rewrite run_bind, evaluate_book_run.
  assert (Hturn : forall c' ev line,
    upserted_offsets
      (events (and_then (turn KEEPA_DELAY_MS total book c' ev line w)
                 (fun c'' => evaluate_loop fl KeepaProduct keepa evaluateBook
                               KEEPA_DELAY_MS total rest c''))) = []).
  { intros c' ev line. rewrite (and_then_ok _ _ c') by reflexivity.
    cbn [events]. rewrite upserted_offsets_app, IH, app_nil_r.
    unfold turn. cbn [events]. rewrite updateBookEvaluation_run. cbn zeta.
    by destruct (next_fault w). }
  destruct (keepa (EbayBook.isbn book)) as [e| |raw]; [|apply Hturn..].
  by rewrite (and_then_thrown _ _ e).
Qed.

(** An evaluation keeps the size of the table and the counter of [main], and
    writes no checkpoint. *)
Lemma evaluatePendingBooks_aside (fl : Q -> number) (KeepaProduct : Type)
    (keepa : string -> KeepaReply KeepaProduct)
    (evaluateBook : KeepaProduct -> number -> KeepaEval.t) (KEEPA_DELAY_MS : N)
    (seller : option string) (w : World) :
  let run := evaluatePendingBooks fl KeepaProduct keepa evaluateBook KEEPA_DELAY_MS
               seller w in
  length (ebay_books (final run)) = length (ebay_books w)
  /\ totalNew (final run) = totalNew w
  /\ upserted_offsets (events run) = [].
Proof.
  cbn zeta.
  destruct (evaluatePendingBooks_frame fl KeepaProduct keepa evaluateBook
              KEEPA_DELAY_MS seller w) as (pending & _ & Hkeys & _ & Hnew & _).
  apply (f_equal length) in Hkeys. rewrite !length_fmap in Hkeys.
  split; [done|]. split; [done|].
  destruct (evaluatePendingBooks_run fl KeepaProduct keepa evaluateBook KEEPA_DELAY_MS
              seller w) as (pending' & _ & _ & _ & _ & Hevents).
  rewrite Hevents, !upserted_offsets_app, getPendingBooks_no_upsert,
    evaluate_loop_no_upsert.
  by destruct (Nat.ltb 0 (length pending')).
Qed.

Section BatchProperties.

Variable fl : Q -> number.
Variable KeepaProduct : Type.
Variable keepa : string -> KeepaReply KeepaProduct.
Variable evaluateBook : KeepaProduct -> number -> KeepaEval.t.
Variable KEEPA_DELAY_MS : N.
Variable SELLER : string.
Variable CONDITION_ID : string.
Variable EVAL_BATCH_SIZE : nat.
Variable SEARCHES : list BatchSearch.t.
Variable ebay : string -> string -> string -> nat -> list PageReply.

Local Abbreviation try_of :=
  (batch_try fl KeepaProduct keepa evaluateBook KEEPA_DELAY_MS SELLER CONDITION_ID
     EVAL_BATCH_SIZE ebay).
Local Abbreviation turn_of :=
  (batch_turn fl KeepaProduct keepa evaluateBook KEEPA_DELAY_MS SELLER CONDITION_ID
     EVAL_BATCH_SIZE ebay).
Local Abbreviation while_of :=
  (batch_while fl KeepaProduct keepa evaluateBook KEEPA_DELAY_MS SELLER CONDITION_ID
     EVAL_BATCH_SIZE ebay).
Local Abbreviation for_of :=
  (batch_for fl KeepaProduct keepa evaluateBook KEEPA_DELAY_MS SELLER CONDITION_ID
     EVAL_BATCH_SIZE ebay).
Local Abbreviation batch_run :=
  (batch_main fl KeepaProduct keepa evaluateBook KEEPA_DELAY_MS SELLER CONDITION_ID
     EVAL_BATCH_SIZE SEARCHES ebay).

(** The [try] block of a turn: it leaves [searchDone] false only when it has
    saved a book. *)
Lemma batch_try_spec (isbns : gset string) (search : BatchSearch.t) (turn : nat)
    (startOffset : N) (w : World) :
  batch_step w (try_of isbns search turn startOffset w)
  /\ (outcome (try_of isbns search turn startOffset w) = Ok false ->
      (totalNew w < totalNew (final (try_of isbns search turn startOffset w)))%nat).
Proof.
  unfold batch_try. rewrite run_bind.
  rewrite (and_then_ok (gets totalNew w) _ (totalNew w)) by reflexivity.
  cbn [gets final events app]. rewrite run_eta, run_bind.
  set (scrape := scrapeAllListings _ _ _ _ _ _ _ _ w).
  assert (Hscrape : batch_step w scrape) by apply scrape_pages_step.
  destruct (outcome_cases scrape) as [[result Hres] | [e He]].
  2: { rewrite (and_then_thrown scrape _ e He). split; [|by rewrite outcome_mkRun].
       by apply (batch_step_same w scrape). }
  rewrite (and_then_ok scrape _ result Hres), run_bind.
  rewrite (and_then_ok (gets totalNew (final scrape)) _ (totalNew (final scrape)))
    by reflexivity.
  cbn [gets final events app]. rewrite run_eta.
  destruct Hscrape as (G1 & M1 & O1 & K1).
  destruct (Nat.ltb_spec (totalNew w) (totalNew (final scrape))) as [Hgrew|Hsame].
  - rewrite run_bind.
    set (evaluation := evaluatePendingBooks _ _ _ _ _ _ (final scrape)).
    destruct (evaluatePendingBooks_aside fl KeepaProduct keepa evaluateBook
                KEEPA_DELAY_MS (Some SELLER) (final scrape)) as (Hlen & Hnew & Hoff).
    fold evaluation in Hlen, Hnew, Hoff.
    assert (Hstep : forall (A : Type) (r : Run A),
              final r = final evaluation ->
              events r = events scrape ++ events evaluation ->
              batch_step w r
              /\ (totalNew w < totalNew (final r))%nat).
    { intros A r Hfinal Hevents. unfold batch_step.
      rewrite Hfinal, Hevents, Hlen, Hnew, upserted_offsets_app, Hoff, app_nil_r.
      repeat split; [done|lia|done|lia|lia]. }
    destruct (outcome_cases evaluation) as [[counts Hcounts] | [e He]].
    + rewrite (and_then_ok evaluation _ counts Hcounts).
      cbn [mret M_ret outcome final events]. rewrite app_nil_r.
      destruct (Hstep bool (mkRun (Ok (ScrapeResult.completed result))
                              (final evaluation)
                              (events scrape ++ events evaluation)))
        as [H1 H2]; [done|done|].
      split; [exact H1|intros _; exact H2].
    + rewrite (and_then_thrown evaluation _ e He).
      cbn [outcome final events].
      destruct (Hstep bool (mkRun (Thrown e) (final evaluation)
                              (events scrape ++ events evaluation)))
        as [H1 H2]; [done|done|].
      split; [exact H1|done].
  - cbn [mret M_ret outcome final events]. rewrite app_nil_r.
    split; [|done].
    apply (batch_step_same w scrape); [done|done|].
    by repeat split.
Qed.

(** A turn never throws, and it leaves [searchDone] false only when it has
    saved a book. *)
Lemma batch_turn_spec (isbns : gset string) (search : BatchSearch.t) (turn : nat)
    (w : World) :
  batch_step w (turn_of isbns search turn w)
  /\ exists searchDone,
       outcome (turn_of isbns search turn w) = Ok searchDone
       /\ (searchDone = false ->
           (totalNew w < totalNew (final (turn_of isbns search turn w)))%nat).
Proof.
  unfold batch_turn. rewrite run_bind.
  destruct (getCheckpoint_step SELLER (BatchSearch.key search) w)
    as (Hread & (startOffset & Hout) & Hnew).
  rewrite (and_then_ok _ _ startOffset Hout).
  set (w0 := final (getCheckpoint SELLER (BatchSearch.key search) w)) in *.
  destruct (batch_try_spec isbns search turn startOffset w0) as (Htry & Hfalse).
  unfold try_catch. cbn zeta.
  destruct (outcome_cases (try_of isbns search turn startOffset w0))
    as [[searchDone Hdone] | [e He]].
  - rewrite Hdone. cbn [outcome final events].
    split; [by apply batch_step_trans|].
    exists searchDone. split; [exact Hdone|].
    intros ->. specialize (Hfalse Hdone). lia.
  - rewrite He. cbn [mret M_ret outcome final events]. rewrite app_nil_r.
    split; [|by exists true].
    by apply (batch_step_trans w _ (try_of isbns search turn startOffset w0)).
Qed.

(** The loop of a search: it never throws; when its turns are used up, each
    of them has saved a book; when it has saved none, it has ended with its
    first turn. *)
Lemma batch_while_spec (fuel : nat) (isbns : gset string) (search : BatchSearch.t)
    (turn : nat) (w : World) :
  batch_step w (while_of fuel isbns search turn w)
  /\ exists ended,
       outcome (while_of fuel isbns search turn w) = Ok ended
       /\ (ended = false ->
           (totalNew w + fuel
            <= totalNew (final (while_of fuel isbns search turn w)))%nat)
       /\ (totalNew (final (while_of fuel isbns search turn w)) = totalNew w ->
           (1 <= fuel)%nat -> ended = true).
Proof.
  revert turn w. induction fuel as [|fuel IH]; intros turn w.
  { split; [by apply batch_step_quiet|]. exists false.
    split; [done|]. split; [cbn; lia|lia]. }
  cbn [batch_while]. rewrite run_bind.
  destruct (batch_turn_spec isbns search turn w)
    as (Hturn & searchDone & Hdone & Hgrew).
  rewrite (and_then_ok _ _ searchDone Hdone).
  destruct searchDone.
  - cbn [mret M_ret outcome final events]. rewrite app_nil_r.
    split; [|by exists true].
    eapply batch_step_same; [| |exact Hturn]; done.
  - specialize (Hgrew eq_refl).
    destruct (IH (S turn) (final (turn_of isbns search turn w)))
      as (Hrest & ended & Hended & Hused & _).
    rewrite outcome_mkRun, final_mkRun.
    split; [by apply batch_step_trans|].
    exists ended. split; [exact Hended|]. split.
    + intros Hfalse. specialize (Hused Hfalse). lia.
    + intros Hsame. destruct Hrest as (_ & Hmono & _). lia.
Qed.

Lemma batch_for_spec (fuel : nat) (isbns : gset string)
    (searches : list BatchSearch.t) (w : World) :
  batch_step w (for_of fuel isbns searches w)
  /\ exists finished,
       outcome (for_of fuel isbns searches w) = Ok finished
       /\ (finished = false ->
           (totalNew w + fuel
            <= totalNew (final (for_of fuel isbns searches w)))%nat)
       /\ (totalNew (final (for_of fuel isbns searches w)) = totalNew w ->
           (1 <= fuel)%nat -> finished = true).
Proof.
  revert w. induction searches as [|search rest IH]; intros w.
  { split; [by apply batch_step_quiet|]. by exists true. }
  cbn [batch_for]. rewrite run_bind.
  destruct (batch_while_spec fuel isbns search 0 w)
    as (Hwhile & ended & Hended & Hused & Hquick).
  rewrite (and_then_ok _ _ ended Hended).
  destruct ended.
  - destruct (IH (final (while_of fuel isbns search 0 w)))
      as (Hrest & finished & Hfinished & Hused' & Hquick').
    rewrite outcome_mkRun, final_mkRun.
    split; [by apply batch_step_trans|].
    exists finished. split; [exact Hfinished|].
    destruct Hwhile as (_ & Hmono & _). destruct Hrest as (_ & Hmono' & _).
    split.
    + intros Hfalse. specialize (Hused' Hfalse). lia.
    + intros Hsame Hfuel. apply Hquick'; [lia|done].
  - cbn [mret M_ret outcome final events]. rewrite app_nil_r.
    split; [eapply batch_step_same; [| |exact Hwhile]; done|].
    exists false. split; [done|]. split.
    + intros _. by apply Hused.
    + intros Hsame Hfuel. by apply Hquick.
Qed.

(** The whole run, from the world in which the counters are reset. *)
Lemma batch_main_spec (fuel : nat) (w : World) :
  exists isbns,
    let w0 := set_totals 0 0 (final (getExistingISBNs w)) in
    outcome (getExistingISBNs w) = Ok isbns
    /\ outcome (batch_run fuel w) = outcome (for_of fuel isbns SEARCHES w0)
    /\ final (batch_run fuel w) = final (for_of fuel isbns SEARCHES w0)
    /\ events (batch_run fuel w)
       = events (getExistingISBNs w) ++ events (for_of fuel isbns SEARCHES w0).
Proof.
  destruct (getExistingISBNs_step w) as (_ & (isbns & Hload) & _).
  exists isbns. cbn zeta. split; [exact Hload|].
  unfold batch_main. rewrite run_bind, (and_then_ok _ _ isbns Hload), run_bind.
  rewrite (and_then_ok (modify (set_totals 0 0) (final (getExistingISBNs w))) _ tt)
    by reflexivity.
  cbn [modify outcome final events app]. done.
Qed.


(** X26.  The batch [main] evaluates only after it has saved a book: a run
    that reports no new book has called neither the rate limiter nor the
    Keepa lookup, whatever is pending in the table, and each of its searches
    has ended with its first turn. *)
Theorem batch_main_evaluates_only_after_saving (fuel : nat) (w : World) :
  totalNew (final (batch_run fuel w)) = 0%nat ->
  keepa_calls (events (batch_run fuel w)) = []
  /\ ((1 <= fuel)%nat -> outcome (batch_run fuel w) = Ok true).
Proof.
  intros Hnone.
  destruct (batch_main_spec fuel w) as (isbns & _ & Hout & Hfinal & Hevents).
  destruct (getExistingISBNs_step w) as (_ & _ & _ & _ & Hcalls).
  destruct (batch_for_spec fuel isbns SEARCHES
              (set_totals 0 0 (final (getExistingISBNs w))))
    as ((_ & _ & _ & Hquiet) & finished & Hfinished & _ & Hquick).
  rewrite Hfinal in Hnone. rewrite totalNew_set_totals in Hquiet, Hquick.
  split.
  - by rewrite Hevents, keepa_calls_app, Hcalls, Hquiet.
  - intros Hfuel. by rewrite Hout, Hfinished, Hquick.
Qed.

End BatchProperties.

Lemma batch_main_evaluates_only_after_saving_witness :
  keepa_calls
    (events (batch_main Js.Fin unit sample_keepa sample_engine 1000 "seller-a" "3000" 50
               [fiction_search] empty_marketplace 1
               (sample_world [sample_book "9780000000001" "seller-a" 10] [])))
  = [].
Proof.
  apply (batch_main_evaluates_only_after_saving Js.Fin unit sample_keepa sample_engine
           1000 "seller-a" "3000" 50 [fiction_search] empty_marketplace 1
           (sample_world [sample_book "9780000000001" "seller-a" 10] [])).
  vm_compute. reflexivity.
Defined.

(** ** The checkpoint writes of the batch variant *)









Section BatchWrites.

Variable fl : Q -> number.
Variable KeepaProduct : Type.
Variable keepa : string -> KeepaReply KeepaProduct.
Variable evaluateBook : KeepaProduct -> number -> KeepaEval.t.
Variable KEEPA_DELAY_MS : N.
Variable SELLER : string.
Variable CONDITION_ID : string.
Variable EVAL_BATCH_SIZE : nat.
Variable SEARCHES : list BatchSearch.t.
Variable ebay : string -> string -> string -> nat -> list PageReply.

Local Abbreviation try_of :=
  (batch_try fl KeepaProduct keepa evaluateBook KEEPA_DELAY_MS SELLER CONDITION_ID
     EVAL_BATCH_SIZE ebay).
Local Abbreviation turn_of :=
  (batch_turn fl KeepaProduct keepa evaluateBook KEEPA_DELAY_MS SELLER CONDITION_ID
     EVAL_BATCH_SIZE ebay).
Local Abbreviation while_of :=
  (batch_while fl KeepaProduct keepa evaluateBook KEEPA_DELAY_MS SELLER CONDITION_ID
     EVAL_BATCH_SIZE ebay).
Local Abbreviation for_of :=
  (batch_for fl KeepaProduct keepa evaluateBook KEEPA_DELAY_MS SELLER CONDITION_ID
     EVAL_BATCH_SIZE ebay).
Local Abbreviation batch_run :=
  (batch_main fl KeepaProduct keepa evaluateBook KEEPA_DELAY_MS SELLER CONDITION_ID
     EVAL_BATCH_SIZE SEARCHES ebay).
Local Abbreviation saves_from startOffset search pages :=
  ((fun i => (SELLER, BatchSearch.key search,
              (startOffset + PAGE_SIZE * N.of_nat (S i))%N)) <$> seq 0 pages).







End BatchWrites.

